(** * diff2HtmlCompare: side-by-side HTML diff

    A shallow embedding of [analyze/util/diff2HtmlCompare.py] and of the part
    of the Python standard library module [difflib] that
    [CodeDiff.getDiffDetails] runs ([difflib._mdiff], [Differ],
    [SequenceMatcher], after [Lib/difflib.py] of CPython 3.8 to 3.12).

    Conventions.  A Python [str] is a [string]; characters are [ascii].
    Python integers that the code keeps non-negative (indices, lengths,
    counters of a [range]) are [nat]; integers that may be negative or that
    come from the caller (line numbers seen by the formatter, the tab size,
    the pending-blank counter) are [Z].  A Python generator is the list of
    the values it yields.  A loop whose number of rounds is not bounded by
    its syntax takes fuel and returns [None] when the fuel runs out; the
    properties show that the fuel given is enough.  The similarity ratios
    of [SequenceMatcher] are exact rationals where Python has floats.  The
    recursion of [Differ._fancy_replace] is bounded by the room the
    interpreter's stack has left, an input of the model ([room]); the
    memory is not bounded.  The highlighter (pygments) and the file system
    are inputs of the model. *)

From Stdlib Require Import List String Ascii ZArith QArith Lia Bool Arith Sorted.
From Stdlib Require Import Numbers.DecimalString.
Import ListNotations.

Close Scope Q_scope.
Open Scope string_scope.
Open Scope list_scope.
Open Scope nat_scope.
Open Scope bool_scope.

Infix "+++" := String.append (right associativity, at level 60).

(** ** Python string primitives *)

Module Py.

Definition NUL : ascii := "000"%char.
Definition SOH : ascii := "001"%char.
Definition TAB : ascii := "009"%char.
Definition LF : ascii := "010"%char.
Definition CR : ascii := "013"%char.
Definition SP : ascii := " "%char.
Definition DQ : ascii := "034"%char.

(** [s.replace(old, new)] for one-character [old] and [new]. *)
Fixpoint replace_char (old new : ascii) (s : string) : string :=
  match s with
  | EmptyString => EmptyString
  | String c s' =>
      String (if Ascii.eqb c old then new else c) (replace_char old new s')
  end.

(** [c * n] for a one-character string [c]. *)
Fixpoint repeat_char (c : ascii) (n : nat) : string :=
  match n with
  | O => EmptyString
  | S n' => String c (repeat_char c n')
  end.

(** [s.expandtabs(tabsize)], after [unicode_expandtabs_impl]: [line_pos] is
    the current column; a tab is replaced by the spaces that reach the next
    multiple of [tabsize] (by nothing when [tabsize <= 0]); a line feed or
    carriage return resets the column. *)
Fixpoint expandtabs_from (tabsize : Z) (line_pos : nat) (s : string) : string :=
  match s with
  | EmptyString => EmptyString
  | String ch s' =>
      if Ascii.eqb ch TAB then
        if (0 <? tabsize)%Z then
          let incr := Z.to_nat (tabsize - (Z.of_nat line_pos) mod tabsize) in
          repeat_char SP incr +++ expandtabs_from tabsize (line_pos + incr) s'
        else expandtabs_from tabsize line_pos s'
      else
        String ch
          (expandtabs_from tabsize
             (if Ascii.eqb ch LF || Ascii.eqb ch CR then 0 else S line_pos) s')
  end.

Definition expandtabs (tabsize : Z) (s : string) : string :=
  expandtabs_from tabsize 0 s.

(** [s.rstrip(c)] for a one-character set [c]. *)
Fixpoint rstrip_char (c : ascii) (s : string) : string :=
  match s with
  | EmptyString => EmptyString
  | String x s' =>
      match rstrip_char c s' with
      | EmptyString => if Ascii.eqb x c then EmptyString else String x EmptyString
      | r => String x r
      end
  end.

(** [str.isspace] on one character (Latin-1 range). *)
Definition isspace (c : ascii) : bool :=
  let n := nat_of_ascii c in
  ((9 <=? n) && (n <=? 13)) || ((28 <=? n) && (n <=? 32))
  || (n =? 133) || (n =? 160).

(** [s.rstrip()]: trailing whitespace removed. *)
Fixpoint rstrip (s : string) : string :=
  match s with
  | EmptyString => EmptyString
  | String x s' =>
      match rstrip s' with
      | EmptyString => if isspace x then EmptyString else String x EmptyString
      | r => String x r
      end
  end.

(** [s.split(sep)] for a one-character separator: the pieces between the
    occurrences of [sep]; never the empty list. *)
Fixpoint split_char (sep : ascii) (s : string) : list string :=
  match s with
  | EmptyString => [EmptyString]
  | String c s' =>
      if Ascii.eqb c sep then EmptyString :: split_char sep s'
      else match split_char sep s' with
           | [] => [String c EmptyString]
           | p :: ps => String c p :: ps
           end
  end.

(** [sep.join(parts)] for the empty separator. *)
Definition join (parts : list string) : string :=
  fold_right String.append EmptyString parts.

(** [f.readlines()] of a text file whose decoded, newline-translated content
    is [s]: the lines with their terminator kept; no empty last line. *)
Fixpoint readlines (s : string) : list string :=
  match s with
  | EmptyString => []
  | String c s' =>
      if Ascii.eqb c LF then String c EmptyString :: readlines s'
      else match readlines s' with
           | [] => [String c EmptyString]
           | l :: ls => String c l :: ls
           end
  end.

(** [str(n)] for an integer. *)
Definition str_of_int (n : Z) : string :=
  NilZero.string_of_int (Z.to_int n).

(** [s[lo:hi]], [s[:hi]] and [s[lo:]] for non-negative bounds. *)
Fixpoint drop (n : nat) (s : string) : string :=
  match n, s with
  | O, _ => s
  | S n', String _ s' => drop n' s'
  | S _, EmptyString => EmptyString
  end.

Fixpoint take (n : nat) (s : string) : string :=
  match n, s with
  | S n', String c s' => String c (take n' s')
  | _, _ => EmptyString
  end.

Definition slice (lo hi : nat) (s : string) : string :=
  take (hi - lo) (drop lo s).

End Py.

(** ** [CodeDiff.getDiffDetails]: tab expansion *)

(** The nested function [expand_tabs] of [getDiffDetails], closed over
    [tabSize]. *)
Definition expand_tabs (tabSize : Z) (line : string) : string :=
  (* hide real spaces *)
  let line := Py.replace_char Py.SP Py.NUL line in
  (* expand tabs into spaces *)
  let line := Py.expandtabs tabSize line in
  (* replace spaces from expanded tabs back into tab characters *)
  let line := Py.replace_char Py.SP Py.TAB line in
  Py.rstrip_char Py.LF (Py.replace_char Py.NUL Py.SP line).


(** ** [difflib.SequenceMatcher] *)

Module Difflib.

(** A [Match(a, b, size)] named tuple; tuples compare lexicographically. *)
Definition Match : Type := nat * nat * nat.

Definition Match_ltb (x y : Match) : bool :=
  let '(i1, j1, k1) := x in
  let '(i2, j2, k2) := y in
  (i1 <? i2) || ((i1 =? i2) && ((j1 <? j2) || ((j1 =? j2) && (k1 <? k2)))).

(** [list.sort()] on a list of [Match] tuples. *)
Fixpoint insert_sorted (x : Match) (l : list Match) : list Match :=
  match l with
  | [] => [x]
  | y :: l' => if Match_ltb y x then y :: insert_sorted x l' else x :: l
  end.

Fixpoint sort (l : list Match) : list Match :=
  match l with
  | [] => []
  | x :: l' => insert_sorted x (sort l')
  end.

Inductive optag := Replace | Delete | Insert | Equal.

(** An opcode [(tag, i1, i2, j1, j2)]. *)
Definition opcode : Type := optag * nat * nat * nat * nat.

(** [_calculate_ratio]: [2.0 * matches / length], or [1.0] for length 0.
    The quotient is kept as an exact rational. *)
Definition _calculate_ratio (matches length : nat) : Q :=
  if length =? 0 then 1%Q
  else Qmake (Z.of_nat (2 * matches)) (Pos.of_nat length).

Definition Qgtb (x y : Q) : bool := negb (Qle_bool x y).
Definition Qltb (x y : Q) : bool := negb (Qle_bool y x).

Section SequenceMatcher.

(** Sequence elements: anything hashable with [==]; [dflt] stands for the
    value of a subscript out of range, which the range guards of this
    class exclude. *)
Context {A : Type}.
Variable eqb : A -> A -> bool.
Variable dflt : A.

(** A [dict] keyed by elements, in insertion order. *)
Fixpoint dict_get {V : Type} (d : list (A * V)) (k : A) : option V :=
  match d with
  | [] => None
  | (k', v) :: d' => if eqb k' k then Some v else dict_get d' k
  end.

Fixpoint dict_set {V : Type} (d : list (A * V)) (k : A) (v : V)
  : list (A * V) :=
  match d with
  | [] => [(k, v)]
  | (k', v') :: d' =>
      if eqb k' k then (k', v) :: d' else (k', v') :: dict_set d' k v
  end.

(** A [dict] keyed by integers ([j2len]). *)
Fixpoint idict_get (d : list (nat * nat)) (k : nat) : option nat :=
  match d with
  | [] => None
  | (k', v) :: d' => if k' =? k then Some v else idict_get d' k
  end.

(** The constructor arguments: [isjunk] ([None] or a predicate) and the
    sequences [a] and [b]; [autojunk] keeps its default [True]. *)
Variable isjunk : option (A -> bool).
Variables a b : list A.

Definition autojunk : bool := true.

Definition enumerate {X : Type} (l : list X) : list (nat * X) :=
  combine (seq 0 (List.length l)) l.

(** [indices = b2j.setdefault(elt, []); indices.append(i)] *)
Definition b2j_add (b2j : list (A * list nat)) (ie : nat * A)
  : list (A * list nat) :=
  let '(i, elt) := ie in
  match dict_get b2j elt with
  | None => b2j ++ [(elt, [i])]
  | Some indices => dict_set b2j elt (indices ++ [i])
  end.

Definition in_set (s : list A) (x : A) : bool := existsb (eqb x) s.

(** [__chain_b]: the index [b2j] of the positions of each element of [b],
    with the junk elements and then the popular elements purged; returns
    [(b2j, bjunk, bpopular)]. *)
Definition __chain_b : list (A * list nat) * list A * list A :=
  let b2j := fold_left b2j_add (enumerate b) [] in
  (* Purge junk elements *)
  let junk :=
    match isjunk with
    | Some isj => map fst (filter (fun kv => isj (fst kv)) b2j)
    | None => []
    end in
  let b2j := filter (fun kv => negb (in_set junk (fst kv))) b2j in
  (* Purge popular elements that are not junk *)
  let n := List.length b in
  let popular :=
    if autojunk && (200 <=? n) then
      let ntest := n / 100 + 1 in
      map fst (filter (fun kv => ntest <? List.length (snd kv)) b2j)
    else [] in
  let b2j := filter (fun kv => negb (in_set popular (fst kv))) b2j in
  (b2j, junk, popular).

Definition b2j : list (A * list nat) := fst (fst __chain_b).
Definition bjunk : list A := snd (fst __chain_b).
Definition isbjunk (x : A) : bool := in_set bjunk x.

(** [a[i]] and [b[j]]. *)
Definition a_ (i : nat) : A := nth i a dflt.
Definition b_ (j : nat) : A := nth j b dflt.

(** The state [(besti, bestj, bestsize)] of [find_longest_match]. *)
Definition best3 : Type := nat * nat * nat.

(** The body of [for j in b2j.get(a[i], nothing)]: [continue] below [blo],
    [break] at [bhi], else extend the match that ends at [(i-1, j-1)].
    [j2len.get(j-1, 0)] at [j = 0] asks for the key [-1], which is never
    there.  The length [k] is at most [i + 1] and [j + 1], so [i-k+1] and
    [j-k+1] are not negative. *)
Fixpoint flm_inner (j2len : list (nat * nat)) (i blo bhi : nat)
    (js : list nat) (newj2len : list (nat * nat)) (best : best3)
  : list (nat * nat) * best3 :=
  match js with
  | [] => (newj2len, best)
  | j :: js' =>
      if j <? blo then flm_inner j2len i blo bhi js' newj2len best
      else if bhi <=? j then (newj2len, best)
      else
        let prev := match j with
                    | O => 0
                    | S j1 => match idict_get j2len j1 with
                              | Some v => v
                              | None => 0
                              end
                    end in
        let k := prev + 1 in
        let newj2len := (j, k) :: newj2len in
        let '(besti, bestj, bestsize) := best in
        let best := if bestsize <? k then (i + 1 - k, j + 1 - k, k)
                    else best in
        flm_inner j2len i blo bhi js' newj2len best
  end.

(** [for i in range(alo, ahi)], over the list of the values of [i]. *)
Fixpoint flm_outer (irange : list nat) (blo bhi : nat)
    (j2len : list (nat * nat)) (best : best3) : best3 :=
  match irange with
  | [] => best
  | i :: irange' =>
      let js := match dict_get b2j (a_ i) with
                | Some js => js
                | None => []
                end in
      let '(newj2len, best) := flm_inner j2len i blo bhi js [] best in
      flm_outer irange' blo bhi newj2len best
  end.

(** [while besti > alo and bestj > blo and junk(b[bestj-1]) and
    a[besti-1] == b[bestj-1]], where [junk(x)] is [isbjunk(x)] or
    [not isbjunk(x)]; each round takes one from [besti], on which the
    recursion runs. *)
Fixpoint extend_down (junk : bool) (alo blo : nat)
    (besti bestj bestsize : nat) {struct besti} : best3 :=
  match besti with
  | O => (besti, bestj, bestsize)
  | S besti' =>
      if (alo <? besti) && (blo <? bestj)
         && Bool.eqb (isbjunk (b_ (bestj - 1))) junk
         && eqb (a_ (besti - 1)) (b_ (bestj - 1))
      then extend_down junk alo blo besti' (bestj - 1) (bestsize + 1)
      else (besti, bestj, bestsize)
  end.

(** [while besti+bestsize < ahi and bestj+bestsize < bhi and
    junk(b[bestj+bestsize]) and a[besti+bestsize] == b[bestj+bestsize]];
    [gap] is [ahi - (besti + bestsize)], which each round lowers by one:
    at [gap = 0] the condition is false. *)
Fixpoint extend_up (junk : bool) (ahi bhi : nat)
    (besti bestj bestsize : nat) (gap : nat) {struct gap} : best3 :=
  match gap with
  | O => (besti, bestj, bestsize)
  | S gap' =>
      if (besti + bestsize <? ahi) && (bestj + bestsize <? bhi)
         && Bool.eqb (isbjunk (b_ (bestj + bestsize))) junk
         && eqb (a_ (besti + bestsize)) (b_ (bestj + bestsize))
      then extend_up junk ahi bhi besti bestj (bestsize + 1) gap'
      else (besti, bestj, bestsize)
  end.

Definition find_longest_match (alo ahi blo bhi : nat) : Match :=
  let '(besti, bestj, bestsize) :=
    flm_outer (seq alo (ahi - alo)) blo bhi [] (alo, blo, 0) in
  (* extend the best by non-junk elements on each end *)
  let '(besti, bestj, bestsize) :=
    extend_down false alo blo besti bestj bestsize in
  let '(besti, bestj, bestsize) :=
    extend_up false ahi bhi besti bestj bestsize
      (ahi - (besti + bestsize)) in
  (* suck up the matching junk on each side of it too *)
  let '(besti, bestj, bestsize) :=
    extend_down true alo blo besti bestj bestsize in
  extend_up true ahi bhi besti bestj bestsize (ahi - (besti + bestsize)).

(** The loop [while queue:] of [get_matching_blocks].  The Python list
    [queue] is used as a stack ([pop()] and [append] at its end): the head
    of [queue] is that end.  [None]: the fuel ran out. *)
Fixpoint matching_loop (fuel : nat) (queue : list (nat * nat * nat * nat))
    (matching_blocks : list Match) : option (list Match) :=
  match queue with
  | [] => Some matching_blocks
  | (alo, ahi, blo, bhi) :: queue =>
      match fuel with
      | O => None
      | S fuel' =>
          let '(i, j, k) := find_longest_match alo ahi blo bhi in
          if k =? 0 then matching_loop fuel' queue matching_blocks
          else
            let matching_blocks := matching_blocks ++ [(i, j, k)] in
            let queue := if (alo <? i) && (blo <? j)
                         then (alo, i, blo, j) :: queue else queue in
            let queue := if (i + k <? ahi) && (j + k <? bhi)
                         then (i + k, ahi, j + k, bhi) :: queue else queue in
            matching_loop fuel' queue matching_blocks
      end
  end.

(** The collapsing of adjacent blocks: the state is the block
    [(i1, j1, k1)] under construction and [non_adjacent]. *)
Definition collapse_step (st : Match * list Match) (blk : Match)
  : Match * list Match :=
  let '((i1, j1, k1), non_adjacent) := st in
  let '(i2, j2, k2) := blk in
  if (i1 + k1 =? i2) && (j1 + k1 =? j2) then ((i1, j1, k1 + k2), non_adjacent)
  else
    ((i2, j2, k2),
     if k1 =? 0 then non_adjacent else non_adjacent ++ [(i1, j1, k1)]).

Definition collapse (matching_blocks : list Match) : list Match :=
  let '((i1, j1, k1), non_adjacent) :=
    fold_left collapse_step matching_blocks ((0, 0, 0), []) in
  let non_adjacent :=
    if k1 =? 0 then non_adjacent else non_adjacent ++ [(i1, j1, k1)] in
  non_adjacent ++ [(List.length a, List.length b, 0)].

Definition get_matching_blocks : option (list Match) :=
  match matching_loop (2 * List.length a + 1) [(0, List.length a, 0, List.length b)] [] with
  | Some matching_blocks => Some (collapse (sort matching_blocks))
  | None => None
  end.

(** The loop of [get_opcodes]: the state is [(i, j, answer)]. *)
Definition opcodes_step (st : nat * nat * list opcode) (blk : Match)
  : nat * nat * list opcode :=
  let '(i, j, answer) := st in
  let '(ai, bj, size) := blk in
  let answer :=
    if (i <? ai) && (j <? bj) then answer ++ [(Replace, i, ai, j, bj)]
    else if i <? ai then answer ++ [(Delete, i, ai, j, bj)]
    else if j <? bj then answer ++ [(Insert, i, ai, j, bj)]
    else answer in
  let i := ai + size in
  let j := bj + size in
  let answer :=
    if size =? 0 then answer else answer ++ [(Equal, ai, i, bj, j)] in
  (i, j, answer).

Definition get_opcodes : option (list opcode) :=
  match get_matching_blocks with
  | Some blocks => Some (snd (fold_left opcodes_step blocks (0, 0, [])))
  | None => None
  end.

Definition ratio : option Q :=
  match get_matching_blocks with
  | Some blocks =>
      let matches := fold_left (fun s (t : Match) => s + snd t) blocks 0 in
      Some (_calculate_ratio matches (List.length a + List.length b))
  | None => None
  end.

(** [quick_ratio]: [fullbcount] counts the elements of [b]; [avail] counts
    down what is left of each for the elements of [a]. *)
Definition fullbcount : list (A * Z) :=
  fold_left
    (fun d elt =>
       dict_set d elt
         (match dict_get d elt with Some n => n | None => 0%Z end + 1)%Z)
    b [].

Definition quick_step (st : list (A * Z) * nat) (elt : A)
  : list (A * Z) * nat :=
  let '(avail, matches) := st in
  let numb :=
    match dict_get avail elt with
    | Some n => n
    | None => match dict_get fullbcount elt with
              | Some n => n
              | None => 0%Z
              end
    end in
  (dict_set avail elt (numb - 1)%Z,
   if (0 <? numb)%Z then matches + 1 else matches).

Definition quick_ratio : Q :=
  let matches := snd (fold_left quick_step a ([], 0)) in
  _calculate_ratio matches (List.length a + List.length b).

Definition real_quick_ratio : Q :=
  let la := List.length a in
  let lb := List.length b in
  _calculate_ratio (Nat.min la lb) (la + lb).

End SequenceMatcher.

(** ** [difflib.Differ] *)

(** A line of a delta: [(line[0], line[2:])], the tag character and the text
    after the two-character prefix. *)
Definition dline : Type := ascii * string.

Definition full_line (l : dline) : string :=
  String (fst l) (String " " (snd l)).

Definition IS_CHARACTER_JUNK (ch : ascii) : bool :=
  Ascii.eqb ch " " || Ascii.eqb ch Py.TAB.

(** [_keep_original_ws]: [zip] stops at the shorter of [s] and [tag_s]. *)
Fixpoint _keep_original_ws (s tag_s : string) : string :=
  match s, tag_s with
  | String c s', String tag_c tag_s' =>
      String (if Ascii.eqb tag_c " " && Py.isspace c then c else tag_c)
        (_keep_original_ws s' tag_s')
  | _, _ => EmptyString
  end.

(** The search state of [_fancy_replace]: [best_ratio, best_i, best_j]
    ([None] while [best_ratio] is still 0.74 and the indices are unbound) and
    [eqi, eqj]. *)
Record search := mkSearch {
  s_best : option (Q * nat * nat);
  s_eq : option (nat * nat)
}.

Definition best_ratio (st : search) : Q :=
  match s_best st with
  | Some (r, _, _) => r
  | None => Qmake 37 50
  end.

Definition cutoff : Q := Qmake 3 4.

Section Differ.

(** The room on the interpreter's stack: the number of activations of
    [_fancy_replace] that can be nested, from the call [Differ.compare]
    makes, before the recursion limit is reached ([sys.getrecursionlimit()]
    frames, 1000 by default, less the frames of the callers; the generator
    of each nested [_fancy_replace] runs inside the generator of a
    [_fancy_helper], so a level takes two frames). *)
Variable room : nat.

Variable linejunk : option (string -> bool).
Variable charjunk : option (ascii -> bool).

Definition _dump (tag : ascii) (x : list string) (lo hi : nat) : list dline :=
  map (fun i => (tag, nth i x EmptyString)) (seq lo (hi - lo)).

(** [None]: the [assert] fails. *)
Definition _plain_replace (a : list string) (alo ahi : nat)
    (b : list string) (blo bhi : nat) : option (list dline) :=
  if (alo <? ahi) && (blo <? bhi) then
    if bhi - blo <? ahi - alo
    then Some (_dump "+" b blo bhi ++ _dump "-" a alo ahi)
    else Some (_dump "-" a alo ahi ++ _dump "+" b blo bhi)
  else None.

(** [cruncher]: the character matcher on the lines [ai] and [bj]. *)
Definition char_ratio (ai bj : string) : option Q :=
  ratio Ascii.eqb Py.NUL charjunk
    (list_ascii_of_string ai) (list_ascii_of_string bj).

Definition char_opcodes (ai bj : string) : option (list opcode) :=
  get_opcodes Ascii.eqb Py.NUL charjunk
    (list_ascii_of_string ai) (list_ascii_of_string bj).

(** The body of [for i in range(alo, ahi)] inside [for j in
    range(blo, bhi)]. *)
Definition search_step (a b : list string) (j : nat)
    (st : option search) (i : nat) : option search :=
  match st with
  | None => None
  | Some st =>
      let ai := nth i a EmptyString in
      let bj := nth j b EmptyString in
      if String.eqb ai bj then
        match s_eq st with
        | None => Some (mkSearch (s_best st) (Some (i, j)))
        | Some _ => Some st
        end
      else if Qgtb (real_quick_ratio (list_ascii_of_string ai)
                      (list_ascii_of_string bj)) (best_ratio st)
              && Qgtb (quick_ratio Ascii.eqb (list_ascii_of_string ai)
                         (list_ascii_of_string bj)) (best_ratio st)
      then
        match char_ratio ai bj with
        | None => None
        | Some r =>
            if Qgtb r (best_ratio st)
            then Some (mkSearch (Some (r, i, j)) (s_eq st))
            else Some st
        end
      else Some st
  end.

Definition search_pairs (a : list string) (alo ahi : nat)
    (b : list string) (blo bhi : nat) : option search :=
  fold_left
    (fun st j => fold_left (search_step a b j) (seq alo (ahi - alo)) st)
    (seq blo (bhi - blo)) (Some (mkSearch None None)).

Definition tags_step (st : string * string) (op : opcode) : string * string :=
  let '(atags, btags) := st in
  let '(tag, ai1, ai2, bj1, bj2) := op in
  let la := ai2 - ai1 in
  let lb := bj2 - bj1 in
  match tag with
  | Replace => (atags +++ Py.repeat_char "^" la, btags +++ Py.repeat_char "^" lb)
  | Delete => (atags +++ Py.repeat_char "-" la, btags)
  | Insert => (atags, btags +++ Py.repeat_char "+" lb)
  | Equal => (atags +++ Py.repeat_char " " la, btags +++ Py.repeat_char " " lb)
  end.

Definition _qformat (aline bline atags btags : string) : list dline :=
  let atags := Py.rstrip (_keep_original_ws aline atags) in
  let btags := Py.rstrip (_keep_original_ws bline btags) in
  [("-"%char, aline)]
  ++ (if String.eqb atags EmptyString then []
      else [("?"%char, atags +++ String Py.LF EmptyString)])
  ++ [("+"%char, bline)]
  ++ (if String.eqb btags EmptyString then []
      else [("?"%char, btags +++ String Py.LF EmptyString)]).

(** [_fancy_helper], over the recursive call [fancy] it makes. *)
Definition fancy_helper_of
    (fancy : list string -> nat -> nat -> list string -> nat -> nat
             -> option (list dline))
    (a : list string) (alo ahi : nat) (b : list string) (blo bhi : nat)
  : option (list dline) :=
  if alo <? ahi then
    if blo <? bhi then fancy a alo ahi b blo bhi
    else Some (_dump "-" a alo ahi)
  else if blo <? bhi then Some (_dump "+" b blo bhi)
  else Some [].

(** [_fancy_replace], with [fuel] levels of room left on the stack: the
    calls of [_fancy_helper] for the lines before and after the pair that
    synchronises the two ranges run one level deeper.  [None]: an
    exception ends the call; with no room left it is the [RecursionError]
    of the interpreter (the [assert] of [_plain_replace] and the unbound
    [best_i] cannot fail on the ranges this function is called with). *)
Fixpoint _fancy_replace (fuel : nat) (a : list string) (alo ahi : nat)
    (b : list string) (blo bhi : nat) {struct fuel} : option (list dline) :=
  match fuel with
  | O => None
  | S fuel' =>
      match search_pairs a alo ahi b blo bhi with
      | None => None
      | Some st =>
          let synch (best_i best_j : nat) (identical : bool) :=
            match fancy_helper_of (_fancy_replace fuel')
                    a alo best_i b blo best_j with
            | None => None
            | Some before =>
                let aelt := nth best_i a EmptyString in
                let belt := nth best_j b EmptyString in
                match
                  (if identical then Some [(" "%char, aelt)]
                   else
                     match char_opcodes aelt belt with
                     | None => None
                     | Some ops =>
                         let '(atags, btags) :=
                           fold_left tags_step ops
                             (EmptyString, EmptyString) in
                         Some (_qformat aelt belt atags btags)
                     end)
                with
                | None => None
                | Some mid =>
                    match fancy_helper_of (_fancy_replace fuel')
                            a (best_i + 1) ahi b (best_j + 1) bhi with
                    | None => None
                    | Some after => Some (before ++ mid ++ after)
                    end
                end
            end in
          if Qltb (best_ratio st) cutoff then
            (* no non-identical "pretty close" pair *)
            match s_eq st with
            | None => _plain_replace a alo ahi b blo bhi
            | Some (eqi, eqj) => synch eqi eqj true
            end
          else
            (* there's a close pair, so forget the identical pair *)
            match s_best st with
            | Some (_, best_i, best_j) => synch best_i best_j false
            | None => None
            end
      end
  end.

Definition _fancy_helper (fuel : nat) := fancy_helper_of (_fancy_replace fuel).

Definition compare_step (a b : list string) (acc : option (list dline))
    (op : opcode) : option (list dline) :=
  match acc with
  | None => None
  | Some out =>
      let '(tag, alo, ahi, blo, bhi) := op in
      match
        match tag with
        | Replace => _fancy_replace room a alo ahi b blo bhi
        | Delete => Some (_dump "-" a alo ahi)
        | Insert => Some (_dump "+" b blo bhi)
        | Equal => Some (_dump " " a alo ahi)
        end
      with
      | None => None
      | Some g => Some (out ++ g)
      end
  end.

Definition compare (a b : list string) : option (list dline) :=
  match get_opcodes String.eqb EmptyString linejunk a b with
  | None => None
  | Some ops => fold_left (compare_step a b) ops (Some [])
  end.

End Differ.

Definition ndiff (room : nat) (a b : list string)
    (linejunk : option (string -> bool))
    (charjunk : option (ascii -> bool)) : option (list dline) :=
  compare room linejunk charjunk a b.

(** ** [difflib._mdiff] *)

(** The first slot of a line tuple: a line number (an [int]), or the empty
    string of a blank placeholder. *)
Inductive pyno :=
| PInt (n : Z)
| PStr (s : string).

(** A line tuple [(num, text)]. *)
Definition cell : Type := pyno * string.

(** What [_mdiff] yields: a tuple [(from_line, to_line, flag)] of two line
    tuples and a [bool]; the separator [(None, None, None)] of context mode;
    [Unset] is the bare [None] an untouched slot of [contextLines] holds. *)
Inductive mdiff_item :=
| Row (from_line to_line : cell) (flag : bool)
| Separator
| Unset.

(** What [_line_iterator] yields: either side may be [None]. *)
Definition half_row : Type := option cell * option cell * bool.

(** The blank placeholder [('', '\n')]. *)
Definition blank : cell := (PStr EmptyString, String Py.LF EmptyString).

Definition is_marker (c : ascii) : bool :=
  Ascii.eqb c "+" || Ascii.eqb c "-" || Ascii.eqb c "^".

(** [change_re.sub(record_sub_info, markers)] with the pattern
    [(\++|\-+|\^+)]: the maximal runs of one marker character, left to
    right, each as [(key, (begin, end))].  [cur] is the run being read and
    [pos] the index of the next character. *)
Fixpoint sub_info_from (pos : nat) (cur : option (ascii * nat)) (markers : string)
  : list (ascii * (nat * nat)) :=
  match markers with
  | EmptyString =>
      match cur with
      | Some (key, begin) => [(key, (begin, pos))]
      | None => []
      end
  | String x rest =>
      let next := if is_marker x then Some (x, pos) else None in
      match cur with
      | Some (key, begin) =>
          if Ascii.eqb x key then sub_info_from (S pos) cur rest
          else (key, (begin, pos)) :: sub_info_from (S pos) next rest
      | None => sub_info_from (S pos) next rest
      end
  end.

Definition sub_info (markers : string) : list (ascii * (nat * nat)) :=
  sub_info_from 0 None markers.

(** [text[0:begin]+'\0'+key+text[begin:end]+'\1'+text[end:]] *)
Definition mark_span (text : string) (info : ascii * (nat * nat)) : string :=
  let '(key, (begin, end_)) := info in
  Py.take begin text +++ String Py.NUL (String key (Py.slice begin end_ text))
  +++ String Py.SOH (Py.drop end_ text).

(** [lines.pop(0)]; the list [lines] of [_line_iterator] always ends with the
    pad lines ['X'], which are not stored here. *)
Definition pop0 (lines : list dline) : dline * list dline :=
  match lines with
  | [] => (("X"%char, EmptyString), [])
  | l :: rest => (l, rest)
  end.

(** [_make_line(lines, format_key, side)]: returns the line tuple, with what
    is left of [lines] and the counters [num_lines] after the call.  [side]
    is [false] for 0 (from) and [true] for 1 (to). *)
Definition _make_line (lines : list dline) (format_key : option ascii)
    (side : bool) (num_lines : Z * Z) : cell * list dline * (Z * Z) :=
  let num_lines :=
    if side then (fst num_lines, (snd num_lines + 1)%Z)
    else ((fst num_lines + 1)%Z, snd num_lines) in
  let num := if side then snd num_lines else fst num_lines in
  match format_key with
  | None =>
      let '(l, lines) := pop0 lines in
      ((PInt num, snd l), lines, num_lines)
  | Some key =>
      if Ascii.eqb key "?" then
        let '(text, lines) := pop0 lines in
        let '(markers, lines) := pop0 lines in
        let text :=
          fold_left mark_span (rev (sub_info (full_line markers)))
            (full_line text) in
        ((PInt num, Py.drop 2 text), lines, num_lines)
      else
        let '(l, lines) := pop0 lines in
        let text := snd l in
        let text := if String.eqb text EmptyString then " " else text in
        ((PInt num, String Py.NUL (String key text) +++ String Py.SOH EmptyString),
         lines, num_lines)
  end.

(** [s = ''.join([line[0] for line in lines])] over the four lines loaded,
    the pad ['X'] standing for the lines past the end of the delta. *)
Definition s_of (lines : list dline) : string :=
  let tag (n : nat) := match nth_error lines n with
                       | Some l => fst l
                       | None => "X"%char
                       end in
  String (tag 0) (String (tag 1) (String (tag 2) (String (tag 3) EmptyString))).

Definition startswith (s p : string) : bool := String.prefix p s.

(** The two loops that catch up on the blank lines. *)
Definition blanks (num_blanks_to_yield : Z) : list half_row :=
  if (num_blanks_to_yield <? 0)%Z
  then repeat (None, Some blank, true) (Z.to_nat (- num_blanks_to_yield))
  else repeat (Some blank, None, true) (Z.to_nat num_blanks_to_yield).

Definition yield_ (x : half_row) (rest : option (list half_row))
  : option (list half_row) :=
  match rest with
  | Some r => Some (x :: r)
  | None => None
  end.

Definition yields (xs : list half_row) (rest : option (list half_row))
  : option (list half_row) :=
  match rest with
  | Some r => Some (xs ++ r)
  | None => None
  end.

(** [_line_iterator]: one round of [while True] per unit of fuel; [lines] is
    what is left of the delta.  [None]: the fuel ran out, or the round found
    no branch for [s] (Python then yields unbound or stale lines without
    consuming any). *)
Fixpoint _line_iterator (fuel : nat) (lines : list dline) (num_lines : Z * Z)
    (num_blanks_pending : Z) {struct fuel} : option (list half_row) :=
  match fuel with
  | O => None
  | S fuel' =>
      let s := s_of lines in
      if startswith s "X" then Some (blanks num_blanks_pending)
      else if startswith s "-?+?" then
        let '(from_line, lines, num_lines) :=
          _make_line lines (Some "?"%char) false num_lines in
        let '(to_line, lines, num_lines) :=
          _make_line lines (Some "?"%char) true num_lines in
        yield_ (Some from_line, Some to_line, true)
          (_line_iterator fuel' lines num_lines num_blanks_pending)
      else if startswith s "--++" then
        let '(from_line, lines, num_lines) :=
          _make_line lines (Some "-"%char) false num_lines in
        yield_ (Some from_line, None, true)
          (_line_iterator fuel' lines num_lines (num_blanks_pending - 1)%Z)
      else if startswith s "--?+" || startswith s "--+" || startswith s "- " then
        let '(from_line, lines, num_lines) :=
          _make_line lines (Some "-"%char) false num_lines in
        yields (blanks (num_blanks_pending - 1)%Z ++ [(Some from_line, None, true)])
          (_line_iterator fuel' lines num_lines 0%Z)
      else if startswith s "-+?" then
        let '(from_line, lines, num_lines) :=
          _make_line lines None false num_lines in
        let '(to_line, lines, num_lines) :=
          _make_line lines (Some "?"%char) true num_lines in
        yield_ (Some from_line, Some to_line, true)
          (_line_iterator fuel' lines num_lines num_blanks_pending)
      else if startswith s "-?+" then
        let '(from_line, lines, num_lines) :=
          _make_line lines (Some "?"%char) false num_lines in
        let '(to_line, lines, num_lines) :=
          _make_line lines None true num_lines in
        yield_ (Some from_line, Some to_line, true)
          (_line_iterator fuel' lines num_lines num_blanks_pending)
      else if startswith s "-" then
        let '(from_line, lines, num_lines) :=
          _make_line lines (Some "-"%char) false num_lines in
        yield_ (Some from_line, None, true)
          (_line_iterator fuel' lines num_lines (num_blanks_pending - 1)%Z)
      else if startswith s "+--" then
        let '(to_line, lines, num_lines) :=
          _make_line lines (Some "+"%char) true num_lines in
        yield_ (None, Some to_line, true)
          (_line_iterator fuel' lines num_lines (num_blanks_pending + 1)%Z)
      else if startswith s "+ " || startswith s "+-" then
        let '(to_line, lines, num_lines) :=
          _make_line lines (Some "+"%char) true num_lines in
        yields (blanks (num_blanks_pending + 1)%Z ++ [(None, Some to_line, true)])
          (_line_iterator fuel' lines num_lines 0%Z)
      else if startswith s "+" then
        let '(to_line, lines, num_lines) :=
          _make_line lines (Some "+"%char) true num_lines in
        yield_ (None, Some to_line, true)
          (_line_iterator fuel' lines num_lines (num_blanks_pending + 1)%Z)
      else if startswith s " " then
        let '(from_line, _, num_lines) := _make_line lines None false num_lines in
        let '(to_line, lines, num_lines) := _make_line lines None true num_lines in
        yield_ (Some from_line, Some to_line, false)
          (_line_iterator fuel' lines num_lines num_blanks_pending)
      else None
  end.

(** The queues [fromlines] and [tolines] of [_line_pair_iterator] hold
    [(line, found_diff)]. *)
Definition queue : Type := list (cell * bool).

(** While both queues are non-empty the inner [while] is skipped: a pair is
    popped and yielded.  Returns the rows yielded and the queues left. *)
Fixpoint drain (fromlines tolines : queue) {struct fromlines}
  : list mdiff_item * queue * queue :=
  match fromlines, tolines with
  | (from_line, fromDiff) :: fromlines', (to_line, to_diff) :: tolines' =>
      let '(out, f, t) := drain fromlines' tolines' in
      (Row from_line to_line (fromDiff || to_diff) :: out, f, t)
  | _, _ => ([], fromlines, tolines)
  end.

(** [_line_pair_iterator] over the values [line_iterator] yields: with a
    queue empty the next value is collected; at [StopIteration] it returns. *)
Fixpoint _line_pair_iterator (line_iterator : list half_row)
    (fromlines tolines : queue) {struct line_iterator} : list mdiff_item :=
  let '(out, fromlines, tolines) := drain fromlines tolines in
  out ++
  match line_iterator with
  | [] => []
  | (from_line, to_line, found_diff) :: rest =>
      let fromlines :=
        match from_line with
        | Some l => fromlines ++ [(l, found_diff)]
        | None => fromlines
        end in
      let tolines :=
        match to_line with
        | Some l => tolines ++ [(l, found_diff)]
        | None => tolines
        end in
      _line_pair_iterator rest fromlines tolines
  end.

(** [contextLines[i] = x] *)
Fixpoint list_set {X : Type} (l : list X) (i : nat) (x : X) : list X :=
  match l, i with
  | [], _ => []
  | _ :: l', O => x :: l'
  | y :: l', S i' => y :: list_set l' i' x
  end.

(** The loop [while(lines_to_write)] that yields the lines collected:
    [count] items of the circular queue from position [index]. *)
Definition read_context (contextLines : list mdiff_item) (context : nat)
    (index count : nat) : list mdiff_item :=
  map (fun t => nth ((index + t) mod context) contextLines Unset) (seq 0 count).

(** Where the context loop stands when it asks [line_pair_iterator] for the
    next value: storing lines until a difference is found, or yielding the
    context lines after a change. *)
Inductive context_state :=
| Storing (index : nat) (contextLines : list mdiff_item)
| Trailing (lines_to_write : nat).

(** The state after [lines_to_write] has been set: the loop
    [while(lines_to_write)] goes on, or the outer loop starts over. *)
Definition after_write (context lines_to_write : nat) : context_state :=
  if lines_to_write =? 0 then Storing 0 (repeat Unset context)
  else Trailing lines_to_write.

(** The context branch of [_mdiff], after [context += 1], over the values
    [line_pair_iterator] yields. *)
Fixpoint context_loop (context : nat) (line_pair_iterator : list mdiff_item)
    (st : context_state) {struct line_pair_iterator} : list mdiff_item :=
  match line_pair_iterator with
  | [] => []
  | x :: rest =>
      let found_diff := match x with
                        | Row _ _ flag => flag
                        | _ => false
                        end in
      match st with
      | Storing index contextLines =>
          let i := index mod context in
          let contextLines := list_set contextLines i x in
          let index := index + 1 in
          if found_diff then
            (if context <? index
             then Separator :: read_context contextLines context index context
             else read_context contextLines context 0 index)
            ++ context_loop context rest (after_write context (context - 1))
          else context_loop context rest (Storing index contextLines)
      | Trailing lines_to_write =>
          let lines_to_write :=
            if found_diff then context - 1 else lines_to_write - 1 in
          x :: context_loop context rest (after_write context lines_to_write)
      end
  end.

(** [_mdiff(fromlines, tolines, context, linejunk, charjunk)], run to its
    end with [room] levels of recursion for [Differ]; [context] is [None] or
    a number of lines.  [None]: an exception ends the generator. *)
Definition _mdiff (room : nat) (fromlines tolines : list string)
    (context : option nat)
    (linejunk : option (string -> bool)) (charjunk : option (ascii -> bool))
  : option (list mdiff_item) :=
  match ndiff room fromlines tolines linejunk charjunk with
  | None => None
  | Some diff_lines =>
      match _line_iterator (S (List.length diff_lines)) diff_lines
              (0%Z, 0%Z) 0%Z with
      | None => None
      | Some line_iterator =>
          let line_pair_iterator := _line_pair_iterator line_iterator [] [] in
          match context with
          | None => Some line_pair_iterator
          | Some context =>
              let context := context + 1 in
              Some (context_loop context line_pair_iterator
                      (Storing 0 (repeat Unset context)))
          end
      end
  end.

End Difflib.

(** ** [DiffHtmlFormatter] *)

Import Difflib.

(** An exception raised by the interpreter. *)
Inductive exn :=
| TypeError
| IndexError
| RuntimeError.

(** A value or an exception. *)
Inductive result (X : Type) :=
| Ok (x : X)
| Raise (e : exn).
Arguments Ok {X} x.
Arguments Raise {X} e.

(** A line of the highlighted stream, and a value [_wrap_code] yields:
    [(i, t)]. *)
Definition srcline : Type := Z * string.

(** [source[n]] on a list, with the negative subscripts of Python. *)
Definition py_subscript {X : Type} (source : list X) (n : Z) : result X :=
  let len := Z.of_nat (List.length source) in
  let n' := if (n <? 0)%Z then (len + n)%Z else n in
  if (n' <? 0)%Z then Raise IndexError
  else match nth_error source (Z.to_nat n') with
       | Some x => Ok x
       | None => Raise IndexError
       end.

(** [isinstance(no, int)] *)
Definition is_int (no : pyno) : bool :=
  match no with
  | PInt _ => true
  | PStr _ => false
  end.

(** [no <= len(source)]: between an [int] and a [str] it is a [TypeError]. *)
Definition le_len {X : Type} (no : pyno) (source : list X) : result bool :=
  match no with
  | PInt n => Ok (n <=? Z.of_nat (List.length source))%Z
  | PStr _ => Raise TypeError
  end.

(** [str(no)] *)
Definition str_of (no : pyno) : string :=
  match no with
  | PInt n => Py.str_of_int n
  | PStr s => s
  end.

(** [isinstance(no, int) and no <= len(source)] *)
Definition int_within {X : Type} (no : pyno) (source : list X) : bool :=
  match no with
  | PInt n => (n <=? Z.of_nat (List.length source))%Z
  | PStr _ => false
  end.

(** ['<span class="' + cls + '">'] *)
Definition span_open (cls : string) : string :=
  "<span class=" +++ String Py.DQ cls +++ String Py.DQ ">".

Definition span (cls t : string) : string :=
  span_open cls +++ t +++ "</span>".

(** [i, t = source[no - 1]; t = '<span class=cls>' + t + '</span>'] *)
Definition highlighted {X : Type} (source : list (X * string)) (no : pyno)
    (cls : string) : result (X * string) :=
  match no with
  | PInt n =>
      match py_subscript source (n - 1)%Z with
      | Ok (i, t) => Ok (i, span cls t)
      | Raise e => Raise e
      end
  | PStr _ => Raise TypeError
  end.

Section DiffHtmlFormatter.

(** The attributes [isLeft] and [diffs] of the formatter. *)
Variable isLeft : bool.
Variable diffs : list mdiff_item.

(** The body of the loop of [getDiffLineNos]: the value of [no], [None]
    when no branch assigns it. *)
Definition lineno_marker (left_no right_no : pyno) (change : bool)
  : option string :=
  if isLeft then
    if change then
      if is_int left_no && is_int right_no then
        Some (span_open "lineno_q lineno_leftchange"
              +++ str_of left_no +++ "</span>")
      else if is_int left_no && negb (is_int right_no) then
        Some (span_open "lineno_q lineno_leftdel"
              +++ str_of left_no +++ "</span>")
      else if negb (is_int left_no) && is_int right_no then
        Some (span_open "lineno_q lineno_leftadd" +++ "  </span>")
      else None
    else Some (span_open "lineno_q" +++ str_of left_no +++ "</span>")
  else
    if change then
      if is_int left_no && is_int right_no then
        Some (span_open "lineno_q lineno_rightchange"
              +++ str_of right_no +++ "</span>")
      else if is_int left_no && negb (is_int right_no) then
        Some (span_open "lineno_q lineno_rightdel" +++ "  </span>")
      else if negb (is_int left_no) && is_int right_no then
        Some (span_open "lineno_q lineno_rightadd"
              +++ str_of right_no +++ "</span>")
      else None
    else Some (span_open "lineno_q" +++ str_of right_no +++ "</span>").

(** [getDiffLineNos]: one marker per element of [diffs]; an element that
    is not a triple of two pairs and a flag cannot be unpacked by the
    [for] statement. *)
Fixpoint lineno_loop (diffs : list mdiff_item) (retlinenos : list (option string))
  : result (list (option string)) :=
  match diffs with
  | [] => Ok retlinenos
  | Row (left_no, left_line) (right_no, right_line) change :: rest =>
      lineno_loop rest (retlinenos ++ [lineno_marker left_no right_no change])
  | _ :: _ => Raise TypeError
  end.

Definition getDiffLineNos : result (list (option string)) :=
  lineno_loop diffs [].

(** The body of the [try] of [_wrap_code]: the pair [(i, t)] it reaches
    [yield i, t] with, or the exception it raises. *)
Definition wrap_pair (source : list srcline) (left_ right_ : cell)
    (change : bool) : result srcline :=
  let '(left_no, left_line) := left_ in
  let '(right_no, right_line) := right_ in
  if isLeft then
    if change then
      if is_int left_no && is_int right_no && int_within left_no source then
        highlighted source left_no "left_diff_change"
      else if is_int left_no && negb (is_int right_no)
              && int_within left_no source then
        highlighted source left_no "left_diff_del"
      else if negb (is_int left_no) && is_int right_no then
        Ok (1%Z, span "left_diff_add" left_line)
      else Raise RuntimeError
    else
      match le_len left_no source with
      | Raise e => Raise e
      | Ok true =>
          match left_no with
          | PInt n => py_subscript source (n - 1)%Z
          | PStr _ => Raise TypeError
          end
      | Ok false => Ok (1%Z, left_line)
      end
  else
    if change then
      if is_int left_no && is_int right_no && int_within right_no source then
        highlighted source right_no "right_diff_change"
      else if is_int left_no && negb (is_int right_no) then
        Ok (1%Z, span "right_diff_del" right_line)
      else if negb (is_int left_no) && is_int right_no
              && int_within right_no source then
        highlighted source right_no "right_diff_add"
      else Raise RuntimeError
    else
      match le_len right_no source with
      | Raise e => Raise e
      | Ok true =>
          match right_no with
          | PInt n => py_subscript source (n - 1)%Z
          | PStr _ => Raise TypeError
          end
      | Ok false => Ok (1%Z, right_line)
      end.

(** The loop of [_wrap_code]: the values yielded, and the exception that
    ends the generator if one escapes.  [try ... except: pass] drops the
    pair whose body raises; unpacking an element that is not a triple of
    pairs raises outside the [try]. *)
Fixpoint wrap_loop (source : list srcline) (diffs : list mdiff_item)
  : list srcline * option exn :=
  match diffs with
  | [] => ([(0%Z, String Py.LF "</pre>")], None)
  | Row left_ right_ change :: rest =>
      let '(out, e) := wrap_loop source rest in
      match wrap_pair source left_ right_ change with
      | Ok it => (it :: out, e)
      | Raise _ => (out, e)
      end
  | _ :: _ => ([], Some TypeError)
  end.

Definition _wrap_code (source : list srcline) : list srcline * option exn :=
  let '(out, e) := wrap_loop source diffs in
  ((0%Z, "<pre>") :: out, e).

(** [lncount] of [_wrap_tablelinenos]: the values [(t, line)] of the inner
    stream with a true [t]. *)
Definition lncount (inner : list srcline) : nat :=
  List.length (filter (fun it => negb (fst it =? 0)%Z) inner).

End DiffHtmlFormatter.

(** ** [CodeDiff] *)

Record CodeDiff := mkCodeDiff {
  filename : option string;
  fromfile : string;
  fromlines : list string;
  leftcode : string;
  tofile : string;
  tolines : list string;
  rightcode : string
}.

(** The files the constructor can open: the decoded content by path. *)
Definition filesystem : Type := string -> option string.

(** The lines of one side in [__init__]: read from the file, or
    [[n + "\n" for n in txt.split("\n")]]; [None] is [sys.exit(1)]. *)
Definition init_lines (fs : filesystem) (file : string) (txt : option string)
  : option (list string) :=
  match txt with
  | None =>
      match fs file with
      | Some content => Some (Py.readlines content)
      | None => None
      end
  | Some txt =>
      Some (map (fun n => n +++ String Py.LF EmptyString)
              (Py.split_char Py.LF txt))
  end.

Definition __init__ (fs : filesystem) (fromfile tofile : string)
    (fromtxt totxt : option string) (name : option string) : option CodeDiff :=
  match init_lines fs fromfile fromtxt with
  | None => None
  | Some fromlines =>
      let leftcode := Py.join fromlines in
      match init_lines fs tofile totxt with
      | None => None
      | Some tolines =>
          let rightcode := Py.join tolines in
          Some (mkCodeDiff name fromfile fromlines leftcode
                  tofile tolines rightcode)
      end
  end.

(** [getDiffDetails(fromdesc, todesc, context, numlines, tabSize)], called
    with [room] levels of recursion left for [difflib]: the object after
    the call (its [fromlines] and [tolines] are reassigned) and the list
    returned, [None] when [list(diffs)] ends with the [RecursionError] of
    [difflib]; [fromdesc] and [todesc] are not used. *)
Definition getDiffDetails (room : nat) (self : CodeDiff) (context : bool)
    (numlines : nat) (tabSize : Z) : CodeDiff * option (list mdiff_item) :=
  let fromlines := map (expand_tabs tabSize) (fromlines self) in
  let tolines := map (expand_tabs tabSize) (tolines self) in
  let self := mkCodeDiff (filename self) (fromfile self) fromlines
                (leftcode self) (tofile self) tolines (rightcode self) in
  let context_lines := if context then Some numlines else None in
  (self,
   _mdiff room fromlines tolines context_lines None (Some IS_CHARACTER_JUNK)).

(** The part of [format] up to the calls of the highlighter: the object
    after [getDiffDetails], the value of [self.diffs], and the tuples
    [(code, isLeft, filename)] of [fields] whose [code] is highlighted. *)
Definition format_fields (room : nat) (self : CodeDiff)
  : CodeDiff * option (list mdiff_item) * list (string * bool * string) :=
  let '(self, diffs) := getDiffDetails room self false 5 8 in
  (self, diffs,
   [(leftcode self, true, fromfile self);
    (rightcode self, false, tofile self)]).

(** [IS_LINE_JUNK]: the line is made of white space, then at most one
    [#], then white space, up to its end (a line feed is white space). *)
Fixpoint skip_space (s : string) : string :=
  match s with
  | String c s' => if Py.isspace c then skip_space s' else s
  | EmptyString => s
  end.

Fixpoint all_space (s : string) : bool :=
  match s with
  | EmptyString => true
  | String c s' => Py.isspace c && all_space s'
  end.

Definition IS_LINE_JUNK (line : string) : bool :=
  match skip_space line with
  | EmptyString => true
  | String c rest => Ascii.eqb c "#" && all_space rest
  end.

(** ** Vocabulary of the properties *)

(** [c in s] *)
Fixpoint has_char (c : ascii) (s : string) : bool :=
  match s with
  | EmptyString => false
  | String x s' => Ascii.eqb x c || has_char c s'
  end.

(** [s.endswith(c)] *)
Fixpoint ends_with (c : ascii) (s : string) : bool :=
  match s with
  | EmptyString => false
  | String x EmptyString => Ascii.eqb x c
  | String _ s' => ends_with c s'
  end.

(** The line without its tab characters. *)
Fixpoint strip_tabs (s : string) : string :=
  match s with
  | EmptyString => EmptyString
  | String x s' =>
      if Ascii.eqb x Py.TAB then strip_tabs s' else String x (strip_tabs s')
  end.

(** The three replacements around [expandtabs], before [rstrip]. *)
Definition expand_core (tabSize : Z) (pos : nat) (line : string) : string :=
  Py.replace_char Py.NUL Py.SP
    (Py.replace_char Py.SP Py.TAB
       (Py.expandtabs_from tabSize pos (Py.replace_char Py.SP Py.NUL line))).


(** The elements of [diffs] are all triples of two line tuples and a flag. *)
Definition rows_only (diffs : list mdiff_item) : bool :=
  forallb (fun x => match x with Row _ _ _ => true | _ => false end) diffs.

(** The line tuple of the side being rendered. *)
Definition this_side (isLeft : bool) (left_ right_ : cell) : cell :=
  if isLeft then left_ else right_.

(** The line number of this side points past the end of [source]. *)
Definition past_end (isLeft : bool) (source : list srcline)
    (left_ right_ : cell) : bool :=
  match fst (this_side isLeft left_ right_) with
  | PInt n => (Z.of_nat (List.length source) <? n)%Z
  | PStr _ => false
  end.

(** What one element of [diffs] adds to the stream of [_wrap_code]. *)
Definition yielded (isLeft : bool) (source : list srcline) (x : mdiff_item)
  : list srcline :=
  match x with
  | Row left_ right_ change =>
      match wrap_pair isLeft source left_ right_ change with
      | Ok it => [it]
      | Raise _ => []
      end
  | _ => []
  end.

(** The pairs that get no content line in a pane, with [len] the
    number of lines of the highlighted stream and [no] the line number of
    the pair on the side rendered:
    - a changed pair whose [no] is a number greater than [len];
    - a changed pair with no number on either side;
    - an unchanged pair whose [no] is not a number;
    - a pair whose [no] is a number below [1 - len] (the subscript
      [no - 1] is negative and out of range). *)
Definition dropped (isLeft : bool) (len : nat) (x : mdiff_item) : bool :=
  match x with
  | Row left_ right_ change =>
      let no := fst (if isLeft then left_ else right_) in
      let other := fst (if isLeft then right_ else left_) in
      match no with
      | PInt n =>
          (change && (Z.of_nat len <? n)%Z) || (n <? 1 - Z.of_nat len)%Z
      | PStr _ => if change then negb (is_int other) else true
      end
  | _ => false
  end.

(** The content lines of a stream of [_wrap_code]: its values without the
    opening and the closing markup. *)
Definition content_lines (out : list srcline) : nat := List.length out - 2.

Definition pre_open : srcline := (0%Z, "<pre>").
Definition pre_close : srcline := (0%Z, String Py.LF "</pre>").

(** [n + "\n"] *)
Definition add_lf (n : string) : string := n +++ String Py.LF EmptyString.

(** A file system with one file for each side. *)
Definition two_files (from_path from_content to_path to_content : string)
  : filesystem :=
  fun path =>
    if String.eqb path from_path then Some from_content
    else if String.eqb path to_path then Some to_content
    else None.

(** The alignment the specification describes: the one of [getDiffDetails]
    with context mode disabled, but computed with the line-junk filter
    [IS_LINE_JUNK] of [difflib]. *)
Definition line_junk_filtered_details (room : nat) (self : CodeDiff)
    (tabSize : Z) : option (list mdiff_item) :=
  _mdiff room (map (expand_tabs tabSize) (fromlines self))
    (map (expand_tabs tabSize) (tolines self))
    None (Some IS_LINE_JUNK) (Some IS_CHARACTER_JUNK).

(** A [CodeDiff] object with the given lines. *)
Definition of_lines (fromlines tolines : list string) : CodeDiff :=
  mkCodeDiff None "from" fromlines (Py.join fromlines)
    "to" tolines (Py.join tolines).

(** The text markup of [_make_line] around a whole line. *)
Definition marked (key : ascii) (text : string) : string :=
  String Py.NUL (String key text) +++ String Py.SOH EmptyString.

(** ** Invariants of the matcher *)

(** The match [(i, j, k)] lies in the window [a[alo:ahi]], [b[blo:bhi]]. *)
Definition within (alo ahi blo bhi : nat) (m : Match) : Prop :=
  let '(i, j, k) := m in
  alo <= i /\ i + k <= ahi /\ blo <= j /\ j + k <= bhi.

(** What [j2len] holds when row [i] of [find_longest_match] starts: lengths
    of matches that end in row [i - 1] and start inside the window. *)
Definition j2len_ok (alo blo bhi i : nat) (d : list (nat * nat)) : Prop :=
  Forall (fun jv => snd jv + alo <= i /\ snd jv + blo <= fst jv + 1
                    /\ fst jv < bhi) d.

(** A rectangle [a[alo:ahi]] by [b[blo:bhi]]: a window of the queue, or the
    extent of a matching block. *)
Definition box : Type := nat * nat * nat * nat.

Definition box_of_match (m : Match) : box :=
  let '(i, j, k) := m in (i, i + k, j, j + k).

(** [x] ends before [y] starts, in [a] and in [b]. *)
Definition before (x y : box) : Prop :=
  let '(alo1, ahi1, blo1, bhi1) := x in
  let '(alo2, ahi2, blo2, bhi2) := y in
  ahi1 <= alo2 /\ bhi1 <= blo2.

Definition apart (x y : box) : Prop := before x y \/ before y x.

(** A window inside the two sequences of lengths [la] and [lb]. *)
Definition window_ok (la lb : nat) (x : box) : Prop :=
  let '(alo, ahi, blo, bhi) := x in
  alo <= ahi /\ ahi <= la /\ blo <= bhi /\ bhi <= lb.

(** A block of positive size inside the two sequences. *)
Definition block_ok (la lb : nat) (m : Match) : Prop :=
  let '(i, j, k) := m in 0 < k /\ i + k <= la /\ j + k <= lb.

Definition mbefore (x y : Match) : Prop :=
  before (box_of_match x) (box_of_match y).

(** The termination measure of the loop of [get_matching_blocks]. *)
Definition queue_measure (queue : list box) : nat :=
  fold_right (fun x s => let '(alo, ahi, _, _) := x in 2 * (ahi - alo) + 1 + s)
    0 queue.

(** The blocks [l] follow one another from [(i, j)] and end at [(i', j')]. *)
Inductive Chain : nat -> nat -> list Match -> nat -> nat -> Prop :=
| Chain_nil i j : Chain i j [] i j
| Chain_cons i j ai bj size l i' j' :
    i <= ai -> j <= bj ->
    Chain (ai + size) (bj + size) l i' j' ->
    Chain i j ((ai, bj, size) :: l) i' j'.

(** The opcodes [ops] tile the two sequences from [(i, j)] to [(i', j')],
    each with the shape its tag stands for. *)
Inductive Tiles : nat -> nat -> list opcode -> nat -> nat -> Prop :=
| Tiles_nil i j : Tiles i j [] i j
| Tiles_cons tag alo ahi blo bhi ops i' j' :
    match tag with
    | Replace => alo < ahi /\ blo < bhi
    | Delete => alo < ahi /\ blo = bhi
    | Insert => alo = ahi /\ blo < bhi
    | Equal => alo < ahi /\ ahi - alo = bhi - blo /\ blo <= bhi
    end ->
    Tiles ahi bhi ops i' j' ->
    Tiles alo blo ((tag, alo, ahi, blo, bhi) :: ops) i' j'.

(** The invariant of the loop of [get_matching_blocks]: the windows of the
    queue and the blocks found so far are pairwise apart. *)
Definition loop_inv (la lb : nat) (queue : list box) (blocks : list Match) : Prop :=
  Forall (window_ok la lb) queue
  /\ Forall (block_ok la lb) blocks
  /\ ForallOrdPairs apart (queue ++ map box_of_match blocks).


(** ** The shape of a delta *)

(** The line belongs to the first sequence (tags [-] and blank) or to the
    second (tags [+] and blank). *)
Definition is_from_line (l : dline) : bool :=
  Ascii.eqb (fst l) "-" || Ascii.eqb (fst l) " ".

Definition is_to_line (l : dline) : bool :=
  Ascii.eqb (fst l) "+" || Ascii.eqb (fst l) " ".

Definition count_from (d : list dline) : nat :=
  List.length (filter is_from_line d).

Definition count_to (d : list dline) : nat :=
  List.length (filter is_to_line d).

(** A delta of [Differ]: common lines, deleted lines, added lines, and the
    groups [_qformat] writes for a pair of similar lines, where a [?] line
    follows the [-] line, the [+] line, or both. *)
Inductive Blocks : list dline -> Prop :=
| Blocks_nil : Blocks []
| Blocks_eq t r : Blocks r -> Blocks ((" "%char, t) :: r)
| Blocks_del t r : Blocks r -> Blocks (("-"%char, t) :: r)
| Blocks_add t r : Blocks r -> Blocks (("+"%char, t) :: r)
| Blocks_both ta ma tb mb r :
    Blocks r ->
    Blocks (("-"%char, ta) :: ("?"%char, ma) :: ("+"%char, tb)
              :: ("?"%char, mb) :: r)
| Blocks_first ta ma tb r :
    Blocks r ->
    Blocks (("-"%char, ta) :: ("?"%char, ma) :: ("+"%char, tb) :: r)
| Blocks_second ta tb mb r :
    Blocks r ->
    Blocks (("-"%char, ta) :: ("+"%char, tb) :: ("?"%char, mb) :: r).

(** A delta for [na] lines of the first and [nb] lines of the second
    sequence. *)
Definition delta_for (na nb : nat) (d : list dline) : Prop :=
  Blocks d /\ count_from d = na /\ count_to d = nb.

(** The indices the search of [_fancy_replace] holds lie in its ranges. *)
Definition search_ok (alo ahi blo bhi : nat) (st : search) : Prop :=
  match s_best st with
  | Some (_, i, j) => alo <= i < ahi /\ blo <= j < bhi
  | None => True
  end
  /\ match s_eq st with
     | Some (i, j) => alo <= i < ahi /\ blo <= j < bhi
     | None => True
     end.

(** ** Vocabulary of the pairing of lines *)

(** The line tuple carries a line number. *)
Definition is_real (c : cell) : bool := is_int (fst c).

Definition is_real_entry (e : cell * bool) : bool := is_real (fst e).

(** What the values of [_line_iterator] add to the queues [fromlines] and
    [tolines] of [_line_pair_iterator]. *)
Definition from_queue (hr : list half_row) : queue :=
  flat_map (fun x : half_row =>
              match x with
              | (Some l, _, d) => [(l, d)]
              | (None, _, _) => []
              end) hr.

Definition to_queue (hr : list half_row) : queue :=
  flat_map (fun x : half_row =>
              match x with
              | (_, Some l, d) => [(l, d)]
              | (_, None, _) => []
              end) hr.

(** The pairs popped from two queues, head with head. *)
Fixpoint zipq (fromlines tolines : queue) : list mdiff_item :=
  match fromlines, tolines with
  | (from_line, fromDiff) :: fromlines', (to_line, to_diff) :: tolines' =>
      Row from_line to_line (fromDiff || to_diff) :: zipq fromlines' tolines'
  | _, _ => []
  end.

(** The line numbers of the entries of a queue, in order. *)
Definition numbers (q : queue) : list Z :=
  flat_map (fun e : cell * bool =>
              match fst (fst e) with
              | PInt n => [n]
              | PStr _ => []
              end) q.

(** [start, start + 1, ...], [n] numbers. *)
Fixpoint Zseq (start : Z) (n : nat) : list Z :=
  match n with
  | O => []
  | S n' => start :: Zseq (start + 1)%Z n'
  end.

(** A pair with a line number on at least one side. *)
Definition has_number (x : mdiff_item) : bool :=
  match x with
  | Row from_line to_line _ => is_real from_line || is_real to_line
  | _ => false
  end.

(** A pair marked unchanged has a line number on both sides. *)
Definition unchanged_numbered (x : mdiff_item) : bool :=
  match x with
  | Row from_line to_line false => is_real from_line && is_real to_line
  | _ => true
  end.

(** A line of a queue is flagged as a difference or has a line number. *)
Definition flagged_or_real (e : cell * bool) : bool :=
  snd e || is_real (fst e).

(** The left and the right line numbers of a sequence, in order. *)
Definition left_numbers (diffs : list mdiff_item) : list Z :=
  flat_map (fun x => match x with
                     | Row (PInt n, _) _ _ => [n]
                     | _ => []
                     end) diffs.

Definition right_numbers (diffs : list mdiff_item) : list Z :=
  flat_map (fun x => match x with
                     | Row _ (PInt n, _) _ => [n]
                     | _ => []
                     end) diffs.

(** The queues between two rounds of [_line_iterator]: at most one holds
    lines, all with a line number, and [num_blanks_pending] tells how many
    more the queue of the to-side holds. *)
Definition Surplus (pending : Z) (fq tq : queue) : Prop :=
  forallb is_real_entry fq = true /\ forallb is_real_entry tq = true
  /\ (Z.of_nat (List.length tq) - Z.of_nat (List.length fq) = pending)%Z
  /\ (fq = [] \/ tq = []).

(** What is asked of the values [hr] that [_line_iterator] yields from the
    state [(lines, num_lines, num_blanks_pending)]. *)
Definition iterator_ok (lines : list dline) (num_lines : Z * Z) (pending : Z)
    (hr : list half_row) : Prop :=
  numbers (from_queue hr) = Zseq (fst num_lines + 1) (count_from lines)
  /\ numbers (to_queue hr) = Zseq (snd num_lines + 1) (count_to lines)
  /\ forall fq tq,
      Surplus pending fq tq ->
      List.length fq + List.length (from_queue hr)
      = List.length tq + List.length (to_queue hr)
      /\ forallb has_number (zipq (fq ++ from_queue hr) (tq ++ to_queue hr))
         = true.

(** What a round of [_line_iterator] that yields the values [c] and moves
    [num_blanks_pending] from [pending] to [pending'] does to the queues:
    the pairs popped have a line with a number on one side throughout, the
    lines left in a queue have numbers, and the counter follows the
    queues. *)
Definition chunk_premise (pending pending' : Z) (c : list half_row) : Prop :=
  forall fq tq,
    Surplus pending fq tq ->
    (forallb is_real_entry (fq ++ from_queue c) = true
     \/ forallb is_real_entry (tq ++ to_queue c) = true)
    /\ forallb is_real_entry
         (skipn (List.length (tq ++ to_queue c)) (fq ++ from_queue c)) = true
    /\ forallb is_real_entry
         (skipn (List.length (fq ++ from_queue c)) (tq ++ to_queue c)) = true
    /\ (pending' = pending + Z.of_nat (List.length (to_queue c))
                   - Z.of_nat (List.length (from_queue c)))%Z.


(** [num_lines[side] += 1] and [num_lines[side]]. *)
Definition bump (side : bool) (num_lines : Z * Z) : Z * Z :=
  if side then (fst num_lines, (snd num_lines + 1)%Z)
  else ((fst num_lines + 1)%Z, snd num_lines).

Definition num_of (side : bool) (num_lines : Z * Z) : Z :=
  if side then snd num_lines else fst num_lines.

(** [line[0]] of the line at index [n] of the lines loaded, with the pad. *)
Definition tag_at (lines : list dline) (n : nat) : ascii :=
  match nth_error lines n with
  | Some l => fst l
  | None => "X"%char
  end.

(** What a round does: it yields a chunk [c] and goes on from
    [(lines', nl', pending')]. *)
Definition round_ok (fuel : nat) (lines : list dline) (nl : Z * Z) (pending : Z)
    (c : list half_row) (lines' : list dline) (nl' : Z * Z) (pending' : Z)
  : Prop :=
  _line_iterator (S fuel) lines nl pending
  = yields c (_line_iterator fuel lines' nl' pending')
  /\ Blocks lines'
  /\ List.length lines' < List.length lines
  /\ chunk_premise pending pending' c
  /\ numbers (from_queue c) ++ Zseq (fst nl' + 1) (count_from lines')
     = Zseq (fst nl + 1) (count_from lines)
  /\ numbers (to_queue c) ++ Zseq (snd nl' + 1) (count_to lines')
     = Zseq (snd nl + 1) (count_to lines).


(** What the context loop yields besides the pairs it is given. *)
Definition separator_or_numbered (x : mdiff_item) : bool :=
  match x with
  | Separator => true
  | _ => has_number x
  end.

(** The slots of [contextLines] written since the queue was reset hold
    pairs with a line number. *)
Definition buffer_ok (context index : nat) (contextLines : list mdiff_item)
  : Prop :=
  List.length contextLines = context
  /\ forall r, r < context -> r < index ->
               has_number (nth r contextLines Unset) = true.

Definition context_state_ok (context : nat) (st : context_state) : Prop :=
  match st with
  | Storing index contextLines => buffer_ok context index contextLines
  | Trailing _ => True
  end.

(** ** [DiffHtmlFormatter.wrap] and [_wrap_tablelinenos] *)

Section TableLinenos.

(** The attributes of the formatter: [cssclass] and [noclasses] come from
    the options of [HtmlFormatter]. *)
Variable cssclass : string.
Variable noclasses : bool.
Variable isLeft : bool.
Variable diffs : list mdiff_item.

(** [wrap(source, outfile)]; [outfile] is not used. *)
Definition wrap (source : list srcline) : list srcline * option exn :=
  _wrap_code isLeft diffs source.

(** ['%s' % (i,)] *)
Definition marker_text (i : option string) : string :=
  match i with
  | Some s => s
  | None => "None"
  end.

(** ['<table class="%stable">' % self.cssclass] *)
Definition table_tag : string :=
  "<table class=" +++ String Py.DQ (cssclass +++ "table")
  +++ String Py.DQ ">".

(** The first value yielded, around the text [ls] of the line numbers. *)
Definition linenos_cell (ls : string) : string :=
  if noclasses then
    table_tag
    +++ "<tr><td><div class=" +++ String Py.DQ "linenodiv"
    +++ String Py.DQ " style="
    +++ String Py.DQ "background-color: #f0f0f0; padding-right: 10px"
    +++ String Py.DQ "><pre style=" +++ String Py.DQ "line-height: 125%"
    +++ String Py.DQ ">"
    +++ ls +++ "</pre></div></td><td class=" +++ String Py.DQ "code"
    +++ String Py.DQ ">"
  else
    table_tag
    +++ "<tr><td class=" +++ String Py.DQ "linenos"
    +++ String Py.DQ "><div class=" +++ String Py.DQ "linenodiv"
    +++ String Py.DQ "><pre>"
    +++ ls +++ "</pre></div></td><td class=" +++ String Py.DQ "code"
    +++ String Py.DQ ">".

(** [_wrap_tablelinenos(inner)]: the generator first runs [inner] to its
    end, writing every line to [dummyoutfile]; an exception of [inner] or of
    [getDiffLineNos] leaves it before it has yielded a value.  The counters
    [lncount], [mw] and the attributes read into [fl], [sp], [st], [la],
    [aln] have no part in the values yielded. *)
Definition _wrap_tablelinenos (inner : list srcline * option exn)
  : list srcline * option exn :=
  match snd inner with
  | Some e => ([], Some e)
  | None =>
      let dummyoutfile := Py.join (map snd (fst inner)) in
      match getDiffLineNos isLeft diffs with
      | Raise e => ([], Some e)
      | Ok linenos =>
          let lines := map marker_text linenos in
          let ls := Py.join lines in
          ([(0%Z, linenos_cell ls);
            (0%Z, dummyoutfile);
            (0%Z, "</td></tr></table>")], None)
      end
  end.

End TableLinenos.

(** ** Vocabulary of the further properties *)

(** A line feed, if any, is the last character of [s]. *)
Fixpoint lf_only_last (s : string) : bool :=
  match s with
  | EmptyString => true
  | String c EmptyString => true
  | String c s' => negb (Ascii.eqb c Py.LF) && lf_only_last s'
  end.

(** The marker of a pair that carries a line number on a side. *)
Definition is_some {X : Type} (o : option X) : bool :=
  match o with
  | Some _ => true
  | None => false
  end.
(** * Properties *)

(** ** Tab expansion *)

Example expand_tabs_a_tab_b :
  expand_tabs 8 (String "a" (String Py.TAB "b"))
  = "a" +++ Py.repeat_char Py.TAB 7 +++ "b".
Proof. reflexivity. Qed.

Lemma replace_char_app old new s t :
  Py.replace_char old new (s +++ t)
  = Py.replace_char old new s +++ Py.replace_char old new t.
Proof. induction s as [|c s IH]; simpl; [reflexivity | now rewrite IH]. Qed.

Lemma replace_char_repeat old new c n :
  Py.replace_char old new (Py.repeat_char c n)
  = Py.repeat_char (if Ascii.eqb c old then new else c) n.
Proof. induction n as [|n IH]; simpl; [reflexivity | now rewrite IH]. Qed.

Lemma strip_tabs_app s t : strip_tabs (s +++ t) = strip_tabs s +++ strip_tabs t.
Proof.
  induction s as [|c s IH]; simpl; [reflexivity|].
  destruct (Ascii.eqb c Py.TAB); simpl; now rewrite IH.
Qed.

Lemma strip_tabs_repeat_tab n : strip_tabs (Py.repeat_char Py.TAB n) = EmptyString.
Proof. induction n as [|n IH]; simpl; [reflexivity | exact IH]. Qed.

Lemma strip_tabs_repeat_lf n :
  strip_tabs (Py.repeat_char Py.LF n) = Py.repeat_char Py.LF n.
Proof. induction n as [|n IH]; simpl; [reflexivity | now rewrite IH]. Qed.

Lemma expand_tabs_core tabSize line :
  expand_tabs tabSize line = Py.rstrip_char Py.LF (expand_core tabSize 0 line).
Proof. reflexivity. Qed.

Ltac ascii_cases c :=
  repeat match goal with
    | |- context [Ascii.eqb c ?k] =>
        let E := fresh "E" in
        destruct (Ascii.eqb_spec c k) as [E|E]; [try subst c|]
    end.

(** Every character other than a tab goes through unchanged, in place. *)
Lemma strip_tabs_expand_core tabSize line :
  has_char Py.NUL line = false ->
  forall pos, strip_tabs (expand_core tabSize pos line) = strip_tabs line.
Proof.
  unfold expand_core.
  induction line as [|c line IH]; intros H pos; [reflexivity|].
  simpl in H. apply orb_false_iff in H. destruct H as [Hc H].
  simpl Py.replace_char at 3.
  destruct (Ascii.eqb_spec c Py.SP) as [->|Hsp].
  - simpl. now rewrite IH.
  - destruct (Ascii.eqb_spec c Py.TAB) as [->|Htab].
    + simpl. destruct (0 <? tabSize)%Z.
      * rewrite !replace_char_app, !replace_char_repeat. simpl.
        rewrite strip_tabs_app, strip_tabs_repeat_tab. simpl. now apply IH.
      * now apply IH.
    + cbn [Py.expandtabs_from].
      destruct (Ascii.eqb_spec c Py.TAB) as [?|_]; [contradiction|].
      cbn [Py.replace_char strip_tabs].
      destruct (Ascii.eqb_spec c Py.SP) as [?|_]; [contradiction|].
      rewrite Hc.
      destruct (Ascii.eqb_spec c Py.TAB) as [?|_]; [contradiction|].
      now rewrite IH.
Qed.

(** A line without tabs is not changed by the replacements. *)
Lemma expand_core_no_tab tabSize line :
  has_char Py.NUL line = false -> has_char Py.TAB line = false ->
  forall pos, expand_core tabSize pos line = line.
Proof.
  unfold expand_core.
  induction line as [|c line IH]; intros H T pos; [reflexivity|].
  simpl in H, T. apply orb_false_iff in H, T.
  destruct H as [Hc H], T as [Tc T].
  simpl Py.replace_char at 3.
  destruct (Ascii.eqb_spec c Py.SP) as [->|Hsp].
  - simpl. now rewrite IH.
  - cbn [Py.expandtabs_from]. rewrite Tc.
    cbn [Py.replace_char].
    destruct (Ascii.eqb_spec c Py.SP) as [?|_]; [contradiction|].
    rewrite Hc. now rewrite IH.
Qed.

Lemma rstrip_char_decomp c s :
  exists k, s = Py.rstrip_char c s +++ Py.repeat_char c k.
Proof.
  induction s as [|x s [k IH]]; [exists 0; reflexivity|].
  simpl. destruct (Py.rstrip_char c s) as [|y r] eqn:E.
  - destruct (Ascii.eqb_spec x c) as [->|Hx].
    + exists (S k). simpl. now rewrite IH at 1.
    + exists k. simpl. now rewrite IH at 1.
  - exists k. simpl. now rewrite IH at 1.
Qed.

Lemma rstrip_char_id c s : ends_with c s = false -> Py.rstrip_char c s = s.
Proof.
  induction s as [|x s IH]; [reflexivity|].
  simpl. destruct s as [|y s'].
  - intros ->. reflexivity.
  - intros H. rewrite (IH H). reflexivity.
Qed.

(** C2, as amended.  At tab width 8 the line "a<TAB>b" becomes "a", seven
    TAB characters, "b": the padding of an expanded tab is written as tab
    characters, not as spaces.  A line without tab, NUL and trailing line
    feed is returned unchanged.  On a line without NUL, deleting the tab
    characters from the result gives the input without its tab characters
    and without some trailing line feeds: every other character, and so
    every space of the input, is kept once and in place. *)
Theorem expand_tabs_spec :
  expand_tabs 8 (String "a" (String Py.TAB "b"))
  = "a" +++ Py.repeat_char Py.TAB 7 +++ "b"
  /\ (forall tabSize line,
        has_char Py.TAB line = false ->
        has_char Py.NUL line = false ->
        ends_with Py.LF line = false ->
        expand_tabs tabSize line = line)
  /\ (forall tabSize line,
        has_char Py.NUL line = false ->
        exists k,
          strip_tabs line
          = strip_tabs (expand_tabs tabSize line) +++ Py.repeat_char Py.LF k).
Proof.
  split; [reflexivity|]. split.
  - intros tabSize line T N E.
    rewrite expand_tabs_core, expand_core_no_tab by assumption.
    now apply rstrip_char_id.
  - intros tabSize line N.
    rewrite expand_tabs_core.
    destruct (rstrip_char_decomp Py.LF (expand_core tabSize 0 line)) as [k Hk].
    exists k.
    rewrite <- (strip_tabs_expand_core tabSize line N 0).
    rewrite Hk at 1.
    now rewrite strip_tabs_app, strip_tabs_repeat_lf.
Qed.

Lemma expand_tabs_spec_witness :
  expand_tabs 4 "x  y" = "x  y"
  /\ exists k,
       strip_tabs (String "x" (String " " (String Py.TAB (String Py.LF EmptyString))))
       = strip_tabs
           (expand_tabs 4
              (String "x" (String " " (String Py.TAB (String Py.LF EmptyString)))))
         +++ Py.repeat_char Py.LF k.
Proof.
  split.
  - apply (proj1 (proj2 expand_tabs_spec)); reflexivity.
  - apply (proj2 (proj2 expand_tabs_spec)); reflexivity.
Defined.

(** C2 as stated fails: "a<TAB>b" does not expand to "a", seven spaces, "b",
    and a line free of tabs and of a trailing line feed is changed when it
    holds a NUL character. *)
Lemma expand_tabs_claim_fails :
  expand_tabs 8 (String "a" (String Py.TAB "b")) <> "a       b"
  /\ has_char Py.TAB (String Py.NUL EmptyString) = false
  /\ ends_with Py.LF (String Py.NUL EmptyString) = false
  /\ expand_tabs 8 (String Py.NUL EmptyString) <> String Py.NUL EmptyString.
Proof.
  repeat split; try reflexivity; vm_compute; discriminate.
Qed.

(** ** The formatter *)

Lemma wrap_loop_rows isLeft source diffs :
  rows_only diffs = true ->
  wrap_loop isLeft source diffs
  = (flat_map (yielded isLeft source) diffs ++ [pre_close], None).
Proof.
  induction diffs as [|x diffs IH]; intros H; [reflexivity|].
  simpl in H. apply andb_true_iff in H. destruct H as [Hx H].
  destruct x as [l r chg| |]; try discriminate.
  simpl. rewrite (IH H).
  destruct (wrap_pair isLeft source l r chg); reflexivity.
Qed.

Lemma wrap_code_rows isLeft source diffs :
  rows_only diffs = true ->
  _wrap_code isLeft diffs source
  = (pre_open :: flat_map (yielded isLeft source) diffs ++ [pre_close], None).
Proof.
  intros H. unfold _wrap_code. now rewrite wrap_loop_rows.
Qed.

Lemma rows_only_app d1 d2 :
  rows_only (d1 ++ d2) = rows_only d1 && rows_only d2.
Proof. apply forallb_app. Qed.

(** The body of the [try] on a pair whose line number is past the end. *)
Lemma wrap_pair_past_end isLeft source left_ right_ change :
  past_end isLeft source left_ right_ = true ->
  wrap_pair isLeft source left_ right_ change
  = if change then Raise RuntimeError
    else Ok (1%Z, snd (this_side isLeft left_ right_)).
Proof.
  destruct left_ as [ln lt], right_ as [rn rt].
  unfold past_end, this_side, wrap_pair.
  destruct isLeft; simpl.
  - destruct ln as [n|s]; [|discriminate]. intros H.
    apply Z.ltb_lt in H.
    assert (E : (n <=? Z.of_nat (List.length source))%Z = false)
      by (apply Z.leb_gt; exact H).
    destruct change; simpl; rewrite E; simpl.
    + rewrite !andb_false_r. reflexivity.
    + reflexivity.
  - destruct rn as [n|s]; [|discriminate]. intros H.
    apply Z.ltb_lt in H.
    assert (E : (n <=? Z.of_nat (List.length source))%Z = false)
      by (apply Z.leb_gt; exact H).
    destruct change; simpl; rewrite E; simpl.
    + rewrite !andb_false_r. destruct ln; reflexivity.
    + reflexivity.
Qed.

Lemma flat_map_yielded_app isLeft source d1 d2 :
  flat_map (yielded isLeft source) (d1 ++ d2)
  = flat_map (yielded isLeft source) d1 ++ flat_map (yielded isLeft source) d2.
Proof. apply flat_map_app. Qed.

(** C3, as amended.  A pair whose line number on the side being rendered is
    past the end of the highlighted stream never fails the render: when the
    pair is unchanged, [_wrap_code] yields its raw line text of this side,
    as [(1, text)], at the place of the pair; when the pair is changed, the
    pair is skipped and the stream is the one of the sequence without it. *)
Theorem wrap_code_past_end isLeft source pre post left_ right_ change :
  rows_only pre = true -> rows_only post = true ->
  past_end isLeft source left_ right_ = true ->
  _wrap_code isLeft (pre ++ Row left_ right_ change :: post) source
  = (pre_open
       :: flat_map (yielded isLeft source) pre
       ++ (if change then []
           else [(1%Z, snd (this_side isLeft left_ right_))])
       ++ flat_map (yielded isLeft source) post ++ [pre_close],
     None)
  /\ (change = true ->
      _wrap_code isLeft (pre ++ Row left_ right_ change :: post) source
      = _wrap_code isLeft (pre ++ post) source).
Proof.
  intros Hpre Hpost Hpast.
  assert (Hy : yielded isLeft source (Row left_ right_ change)
               = if change then []
                 else [(1%Z, snd (this_side isLeft left_ right_))]).
  { unfold yielded. rewrite wrap_pair_past_end by assumption.
    destruct change; reflexivity. }
  assert (H1 : rows_only (pre ++ Row left_ right_ change :: post) = true).
  { rewrite rows_only_app, Hpre. simpl. exact Hpost. }
  assert (H2 : rows_only (pre ++ post) = true).
  { now rewrite rows_only_app, Hpre, Hpost. }
  split.
  - rewrite wrap_code_rows by assumption.
    rewrite flat_map_yielded_app. cbn [flat_map]. rewrite Hy.
    now rewrite <- !app_assoc.
  - intros ->. rewrite !wrap_code_rows by assumption.
    rewrite !flat_map_yielded_app. cbn [flat_map]. rewrite Hy. reflexivity.
Qed.

Lemma wrap_code_past_end_witness :
  _wrap_code true
    ([Row (PInt 1, "a") (PInt 1, "a") false]
       ++ Row (PInt 2, "b") (PInt 2, "b") false :: []) [(1%Z, "<b>a</b>")]
  = (pre_open
       :: flat_map (yielded true [(1%Z, "<b>a</b>")])
            [Row (PInt 1, "a") (PInt 1, "a") false]
       ++ [(1%Z, "b")] ++ [] ++ [pre_close], None).
Proof.
  apply (wrap_code_past_end true [(1%Z, "<b>a</b>")]
           [Row (PInt 1, "a") (PInt 1, "a") false] []
           (PInt 2, "b") (PInt 2, "b") false); reflexivity.
Defined.

(** C3 as stated fails: a changed pair whose left line number is past the
    end of the stream is dropped; its raw text is not emitted. *)
Lemma wrap_code_changed_past_end_dropped :
  past_end true [(1%Z, "a")] (PInt 2, "x") (PInt 2, "y") = true
  /\ _wrap_code true [Row (PInt 2, "x") (PInt 2, "y") true] [(1%Z, "a")]
     = ([pre_open; pre_close], None)
  /\ ~ In (1%Z, "x")
        (fst (_wrap_code true [Row (PInt 2, "x") (PInt 2, "y") true]
                [(1%Z, "a")])).
Proof.
  repeat split. vm_compute. intros [H|[H|[]]]; discriminate.
Qed.

(** C4.  When the body of the [try] raises for one pair, [_wrap_code]
    yields what it yields for the sequence without that pair: the pairs
    before and after are rendered, no exception leaves the generator, and
    the stream starts with the opening and ends with the closing markup. *)
Theorem wrap_code_skips_failing_pair isLeft source pre post left_ right_ change e :
  rows_only pre = true -> rows_only post = true ->
  wrap_pair isLeft source left_ right_ change = Raise e ->
  _wrap_code isLeft (pre ++ Row left_ right_ change :: post) source
  = _wrap_code isLeft (pre ++ post) source
  /\ _wrap_code isLeft (pre ++ Row left_ right_ change :: post) source
     = (pre_open
          :: (flat_map (yielded isLeft source) pre
              ++ flat_map (yielded isLeft source) post)
          ++ [pre_close],
        None).
Proof.
  intros Hpre Hpost Hraise.
  assert (Hy : yielded isLeft source (Row left_ right_ change) = [])
    by (unfold yielded; now rewrite Hraise).
  assert (H1 : rows_only (pre ++ Row left_ right_ change :: post) = true).
  { rewrite rows_only_app, Hpre. simpl. exact Hpost. }
  assert (H2 : rows_only (pre ++ post) = true).
  { now rewrite rows_only_app, Hpre, Hpost. }
  rewrite !wrap_code_rows by assumption.
  rewrite !flat_map_yielded_app. cbn [flat_map]. rewrite Hy.
  split; reflexivity.
Qed.

Lemma wrap_code_skips_failing_pair_witness :
  _wrap_code false
    ([Row (PInt 1, "a") (PInt 1, "a") false]
       ++ Row (PStr EmptyString, "x") (PStr EmptyString, "y") true
       :: [Row (PInt 2, "b") (PInt 2, "b") false])
    [(1%Z, "A"); (1%Z, "B")]
  = _wrap_code false
      ([Row (PInt 1, "a") (PInt 1, "a") false]
         ++ [Row (PInt 2, "b") (PInt 2, "b") false])
      [(1%Z, "A"); (1%Z, "B")].
Proof.
  apply (wrap_code_skips_failing_pair false [(1%Z, "A"); (1%Z, "B")]
           [Row (PInt 1, "a") (PInt 1, "a") false]
           [Row (PInt 2, "b") (PInt 2, "b") false]
           (PStr EmptyString, "x") (PStr EmptyString, "y") true RuntimeError); reflexivity.
Defined.

Lemma lineno_loop_rows isLeft diffs :
  rows_only diffs = true ->
  forall acc, exists markers,
    lineno_loop isLeft diffs acc = Ok markers
    /\ List.length markers = List.length acc + List.length diffs.
Proof.
  induction diffs as [|x diffs IH]; intros H acc.
  - exists acc. split; [reflexivity | simpl; lia].
  - simpl in H. apply andb_true_iff in H. destruct H as [Hx H].
    destruct x as [[ln lt] [rn rt] chg| |]; try discriminate.
    destruct (IH H (acc ++ [lineno_marker isLeft ln rn chg])) as [m [E L]].
    exists m. split; [exact E|].
    rewrite L, length_app. simpl. lia.
Qed.

(** ** The constructor and the frame of [getDiffDetails] *)

Lemma split_char_nonempty sep s : Py.split_char sep s <> [].
Proof.
  destruct s as [|c s]; simpl; [discriminate|].
  destruct (Ascii.eqb c sep); [discriminate|].
  destruct (Py.split_char sep s); discriminate.
Qed.

Lemma readlines_nil s : Py.readlines s = [] -> s = EmptyString.
Proof.
  destruct s as [|c s]; [reflexivity|]. simpl.
  destruct (Ascii.eqb c Py.LF); [discriminate|].
  destruct (Py.readlines s); discriminate.
Qed.

(** Reading the lines of a file and joining them gives the content back. *)
Lemma join_readlines s : Py.join (Py.readlines s) = s.
Proof.
  induction s as [|c s IH]; [reflexivity|]. simpl.
  destruct (Ascii.eqb_spec c Py.LF) as [->|Hc].
  - simpl. now rewrite IH.
  - destruct (Py.readlines s) as [|l ls] eqn:E.
    + apply readlines_nil in E. subst s. reflexivity.
    + simpl in *. now rewrite IH.
Qed.

(** The lines built from a text blob join to the blob and one line feed. *)
Lemma join_split_lines txt :
  Py.join (map add_lf (Py.split_char Py.LF txt)) = add_lf txt.
Proof.
  unfold add_lf.
  induction txt as [|c s IH]; [reflexivity|]. simpl.
  destruct (Ascii.eqb_spec c Py.LF) as [->|Hc].
  - simpl. now rewrite IH.
  - destruct (Py.split_char Py.LF s) as [|p ps] eqn:E.
    + now apply split_char_nonempty in E.
    + simpl in *. now rewrite IH.
Qed.


Lemma init_lines_join fs file txt ls :
  init_lines fs file txt = Some ls ->
  match txt with
  | None => fs file = Some (Py.join ls)
  | Some t => Py.join ls = add_lf t
  end.
Proof.
  unfold init_lines. destruct txt as [t|].
  - intros [= <-]. apply join_split_lines.
  - destruct (fs file) as [c|]; [|discriminate].
    intros [= <-]. now rewrite join_readlines.
Qed.

(** C9.  [getDiffDetails] reassigns [fromlines] and [tolines] only: after
    it [leftcode] and [rightcode] are what the constructor stored, and they
    are the code [format] hands to the highlighter for the two panes.  For a
    side read from a file the stored code is the content of the file; for a
    side given as a text blob it is the blob and a line feed. *)
Theorem format_highlights_original
    fs fromfile_ tofile_ fromtxt totxt name self room context numlines tabSize :
  __init__ fs fromfile_ tofile_ fromtxt totxt name = Some self ->
  leftcode (fst (getDiffDetails room self context numlines tabSize)) = leftcode self
  /\ rightcode (fst (getDiffDetails room self context numlines tabSize))
     = rightcode self
  /\ fromlines (fst (getDiffDetails room self context numlines tabSize))
     = map (expand_tabs tabSize) (fromlines self)
  /\ tolines (fst (getDiffDetails room self context numlines tabSize))
     = map (expand_tabs tabSize) (tolines self)
  /\ snd (format_fields room self)
     = [(leftcode self, true, fromfile_); (rightcode self, false, tofile_)]
  /\ match fromtxt with
     | None => fs fromfile_ = Some (leftcode self)
     | Some t => leftcode self = add_lf t
     end
  /\ match totxt with
     | None => fs tofile_ = Some (rightcode self)
     | Some t => rightcode self = add_lf t
     end.
Proof.
  unfold __init__.
  destruct (init_lines fs fromfile_ fromtxt) as [fl|] eqn:Ef; [|discriminate].
  destruct (init_lines fs tofile_ totxt) as [tl|] eqn:Et; [|discriminate].
  intros [= <-]. simpl.
  repeat split; try reflexivity.
  - exact (init_lines_join _ _ _ _ Ef).
  - exact (init_lines_join _ _ _ _ Et).
Qed.

Lemma format_highlights_original_witness :
  exists self,
    __init__ (two_files "a.py" (String "x" (String Py.TAB (String "y" (String Py.LF EmptyString))))
                "b.py" "z")
      "a.py" "b.py" None None (Some "b.py") = Some self
    /\ leftcode (fst (getDiffDetails 400 self false 5 8)) = leftcode self
    /\ leftcode self = String "x" (String Py.TAB (String "y" (String Py.LF EmptyString)))
    /\ fromlines (fst (getDiffDetails 400 self false 5 8))
       = ["x" +++ Py.repeat_char Py.TAB 7 +++ "y"].
Proof.
  eexists. split; [reflexivity|].
  pose proof (format_highlights_original
                (two_files "a.py" (String "x" (String Py.TAB (String "y" (String Py.LF EmptyString))))
                   "b.py" "z")
                "a.py" "b.py" None None (Some "b.py") _ 400 false 5 8%Z eq_refl)
    as [H1 [H2 [H3 H4]]].
  split; [exact H1|]. split; [reflexivity|]. exact H3.
Defined.



(** ** [getDiffDetails] on concrete inputs *)

(** C8.  Diffing no line against the lines "a" and "b" gives two changed
    pairs with the placeholder on the left and the line numbers 1 and 2 on
    the right; diffing "a" and "b" against no line gives the mirror image. *)
Theorem pure_insertion_and_deletion room :
  snd (getDiffDetails room (of_lines [] ["a"; "b"]) false 5 8)
  = Some [Row blank (PInt 1, marked "+" "a") true;
          Row blank (PInt 2, marked "+" "b") true]
  /\ snd (getDiffDetails room (of_lines ["a"; "b"] []) false 5 8)
     = Some [Row (PInt 1, marked "-" "a") blank true;
             Row (PInt 2, marked "-" "b") blank true]
  /\ fst blank = PStr EmptyString.
Proof. repeat split; vm_compute; reflexivity. Qed.

(** C5 as stated fails.  The lines "a" and an empty line against the lines
    "a" and "b" give two pairs; with a highlighted stream of one line (the
    highlighter strips the trailing empty lines of its input) the left pane
    gets two line-number markers and one content line. *)
Lemma columns_differ_when_pair_skipped :
  exists diffs markers,
    snd (getDiffDetails 400 (of_lines ["a"; EmptyString] ["a"; "b"]) false 5 8)
    = Some diffs
    /\ rows_only diffs = true
    /\ getDiffLineNos true diffs = Ok markers
    /\ List.length markers = 2
    /\ content_lines (fst (_wrap_code true diffs [(1%Z, "a")])) = 1
    /\ lncount (fst (_wrap_code true diffs [(1%Z, "a")])) = 1.
Proof.
  do 2 eexists.
  split; [vm_compute; reflexivity|].
  repeat split.
Qed.

(** C6 as stated fails: in context mode, seven common lines before a changed
    one make [getDiffDetails] return the separator [(None, None, None)],
    which has no line number on either side. *)
Lemma context_mode_yields_separator :
  exists rest,
    snd (getDiffDetails 400
           (of_lines ["1"; "2"; "3"; "4"; "5"; "6"; "7"; "x"]
              ["1"; "2"; "3"; "4"; "5"; "6"; "7"; "y"]) true 5 8)
    = Some (Separator :: rest)
    /\ has_number Separator = false.
Proof. eexists. split; [vm_compute|]; reflexivity. Qed.

(** C7 as stated fails.  For the lines "x", " ", "p" against "p", " ", "y"
    the code aligns the two inputs on the line made of one space, a line
    that [IS_LINE_JUNK] classes as junk; the comparison with the line-junk
    filter aligns them on the lines "p" instead. *)
Lemma blank_line_decides_alignment :
  IS_LINE_JUNK " " = true
  /\ snd (getDiffDetails 400 (of_lines ["x"; " "; "p"] ["p"; " "; "y"]) false 5 8)
     = Some [Row (PInt 1, marked "-" "x") (PInt 1, marked "+" "p") true;
             Row (PInt 2, " ") (PInt 2, " ") false;
             Row (PInt 3, marked "-" "p") (PInt 3, marked "+" "y") true]
  /\ line_junk_filtered_details 400 (of_lines ["x"; " "; "p"] ["p"; " "; "y"]) 8
     = Some [Row (PInt 1, marked "-" "x") blank true;
             Row (PInt 2, marked "-" " ") blank true;
             Row (PInt 3, "p") (PInt 1, "p") false;
             Row blank (PInt 2, marked "+" " ") true;
             Row blank (PInt 3, marked "+" "y") true]
  /\ snd (getDiffDetails 400 (of_lines ["x"; " "; "p"] ["p"; " "; "y"]) false 5 8)
     <> line_junk_filtered_details 400 (of_lines ["x"; " "; "p"] ["p"; " "; "y"]) 8.
Proof.
  split; [reflexivity|].
  split; [vm_compute; reflexivity|].
  split; [vm_compute; reflexivity|].
  vm_compute. discriminate.
Qed.

(** ** The junk of the two matchers *)

Section Keys.

Context {A : Type}.
Variable eqb : A -> A -> bool.
Hypothesis eqb_spec : forall x y, reflect (x = y) (eqb x y).

Lemma dict_set_keys {V} (d : list (A * V)) k v :
  map fst (dict_set eqb d k v)
  = match dict_get eqb d k with
    | Some _ => map fst d
    | None => map fst d ++ [k]
    end.
Proof.
  induction d as [|[k' v'] d IH]; [reflexivity|].
  simpl. destruct (eqb k' k); [reflexivity|].
  simpl. rewrite IH. now destruct (dict_get eqb d k).
Qed.

Lemma dict_get_some_key {V} (d : list (A * V)) k v :
  dict_get eqb d k = Some v -> In k (map fst d).
Proof.
  induction d as [|[k' v'] d IH]; [discriminate|].
  simpl. destruct (eqb_spec k' k) as [->|_].
  - now left.
  - intros H. right. now apply IH.
Qed.

Lemma b2j_add_keys d i e k :
  In k (map fst (b2j_add eqb d (i, e))) <-> In k (map fst d) \/ k = e.
Proof.
  unfold b2j_add. destruct (dict_get eqb d e) as [idx|] eqn:E.
  - rewrite dict_set_keys, E. split; [now left|].
    intros [H| ->]; [exact H|]. eapply dict_get_some_key; eassumption.
  - rewrite map_app, in_app_iff. simpl. intuition.
Qed.

Lemma b2j_fold_keys (l : list (nat * A)) d k :
  In k (map fst (fold_left (b2j_add eqb) l d))
  <-> In k (map fst d) \/ In k (map snd l).
Proof.
  revert d. induction l as [|[i e] l IH]; intros d; cbn [fold_left map snd].
  - simpl. intuition.
  - rewrite IH, b2j_add_keys. simpl. intuition.
Qed.

Lemma enumerate_snd (b : list A) : map snd (enumerate b) = b.
Proof.
  unfold enumerate. generalize 0.
  induction b as [|x b IH]; intros n; [reflexivity|].
  simpl. now rewrite IH.
Qed.

Lemma in_set_In s x : in_set eqb s x = true <-> In x s.
Proof.
  unfold in_set. rewrite existsb_exists. split.
  - intros [y [Hy E]]. destruct (eqb_spec x y) as [->|]; [exact Hy | discriminate].
  - intros H. exists x. split; [exact H|]. now destruct (eqb_spec x x).
Qed.

(** The junk set of a matcher with a junk predicate: the elements of [b]
    that the predicate holds for. *)
Lemma isbjunk_spec (isj : A -> bool) (b : list A) x :
  isbjunk eqb (Some isj) b x = true <-> In x b /\ isj x = true.
Proof.
  unfold isbjunk, bjunk, __chain_b. cbn [fst snd].
  rewrite in_set_In, in_map_iff. split.
  - intros [[k v] [E H]]. simpl in E. subst k.
    apply filter_In in H. destruct H as [H J]. simpl in J.
    split; [|exact J].
    assert (K : In x (map fst (fold_left (b2j_add eqb) (enumerate b) [])))
      by (apply in_map_iff; now exists (x, v)).
    apply b2j_fold_keys in K. rewrite enumerate_snd in K.
    destruct K as [[]|K]; exact K.
  - intros [H J].
    assert (K : In x (map fst (fold_left (b2j_add eqb) (enumerate b) []))).
    { apply b2j_fold_keys. right. now rewrite enumerate_snd. }
    apply in_map_iff in K. destruct K as [[k v] [E K]]. simpl in E. subst k.
    exists (x, v). split; [reflexivity|].
    apply filter_In. now split.
Qed.

End Keys.

(** C7, as amended.  [getDiffDetails] runs [_mdiff] with no line-junk
    filter: for the matcher of the lines no line is junk, so a line of white
    space takes part in the matching like any other line.  Only the matcher
    of the characters inside a pair of lines has junk: the blanks and tabs
    of the second line. *)
Theorem line_matching_has_no_line_junk :
  (forall room self context numlines tabSize,
      snd (getDiffDetails room self context numlines tabSize)
      = _mdiff room (map (expand_tabs tabSize) (fromlines self))
          (map (expand_tabs tabSize) (tolines self))
          (if context then Some numlines else None)
          None (Some IS_CHARACTER_JUNK))
  /\ (forall (lines_b : list string) (line : string),
        isbjunk String.eqb None lines_b line = false)
  /\ (forall (bline : list ascii) (ch : ascii),
        isbjunk Ascii.eqb (Some IS_CHARACTER_JUNK) bline ch = true
        <-> In ch bline /\ (ch = " "%char \/ ch = Py.TAB)).
Proof.
  split; [reflexivity|]. split; [reflexivity|].
  intros bline ch. rewrite (isbjunk_spec Ascii.eqb Ascii.eqb_spec).
  unfold IS_CHARACTER_JUNK. rewrite orb_true_iff.
  split; intros [H [J|J]]; (split; [exact H|]).
  - left. now destruct (Ascii.eqb_spec ch " ").
  - right. now destruct (Ascii.eqb_spec ch Py.TAB).
  - left. subst. reflexivity.
  - right. subst. reflexivity.
Qed.

(** ** [SequenceMatcher]: the longest match stays inside its window *)

Section Matcher.

Context {A : Type}.
Variable eqb : A -> A -> bool.
Variable dflt : A.
Variable isjunk : option (A -> bool).
Variables a b : list A.

Local Abbreviation flm_outer := (flm_outer eqb dflt isjunk a b).
Local Abbreviation extend_down := (extend_down eqb dflt isjunk a b).
Local Abbreviation extend_up := (extend_up eqb dflt isjunk a b).
Local Abbreviation find_longest_match := (find_longest_match eqb dflt isjunk a b).

Lemma idict_get_In d k v : idict_get d k = Some v -> In (k, v) d.
Proof.
  induction d as [|[k' v'] d IH]; [discriminate|].
  simpl. destruct (Nat.eqb_spec k' k) as [->|_].
  - intros [= ->]. now left.
  - intros H. right. now apply IH.
Qed.

Lemma flm_inner_ok alo ahi blo bhi i j2len :
  alo <= i -> i < ahi ->
  j2len_ok alo blo bhi i j2len ->
  forall js newj2len best,
    j2len_ok alo blo bhi (S i) newj2len ->
    within alo ahi blo bhi best ->
    j2len_ok alo blo bhi (S i) (fst (flm_inner j2len i blo bhi js newj2len best))
    /\ within alo ahi blo bhi
         (snd (flm_inner j2len i blo bhi js newj2len best)).
Proof.
  intros Hlo Hhi HJ.
  induction js as [|j js IH]; intros newj2len best HN HB; [now split|].
  simpl. destruct (Nat.ltb_spec j blo) as [Hj|Hj]; [now apply IH|].
  destruct (Nat.leb_spec bhi j) as [Hj'|Hj']; [now split|].
  set (prev := match j with
               | O => 0
               | S j1 => match idict_get j2len j1 with
                         | Some v => v
                         | None => 0
                         end
               end).
  assert (Hprev : prev + alo <= i /\ prev + blo <= j).
  { subst prev. destruct j as [|j1]; [lia|].
    destruct (idict_get j2len j1) as [v|] eqn:E; [|lia].
    apply idict_get_In in E.
    unfold j2len_ok in HJ. rewrite Forall_forall in HJ.
    specialize (HJ _ E). simpl in HJ. lia. }
  destruct best as [[besti bestj] bestsize].
  apply IH.
  - constructor; [simpl; lia | exact HN].
  - destruct (Nat.ltb_spec bestsize (prev + 1)); [|exact HB].
    unfold within. lia.
Qed.

Lemma flm_outer_ok alo ahi blo bhi n :
  forall s j2len best,
    alo <= s -> s + n <= ahi ->
    j2len_ok alo blo bhi s j2len ->
    within alo ahi blo bhi best ->
    within alo ahi blo bhi (flm_outer (seq s n) blo bhi j2len best).
Proof.
  induction n as [|n IH]; intros s j2len best Hs Hn HJ HB; [exact HB|].
  simpl.
  destruct (flm_inner_ok alo ahi blo bhi s j2len Hs ltac:(lia) HJ
              (match dict_get eqb (b2j eqb isjunk b) (a_ dflt a s) with
               | Some js => js
               | None => []
               end) [] best (Forall_nil _) HB) as [H1 H2].
  destruct (Difflib.flm_inner j2len s blo bhi _ [] best) as [newj2len best'].
  apply IH; try lia; assumption.
Qed.

Lemma extend_down_ok junk alo ahi blo bhi besti :
  forall bestj bestsize,
    within alo ahi blo bhi (besti, bestj, bestsize) ->
    within alo ahi blo bhi (extend_down junk alo blo besti bestj bestsize).
Proof.
  induction besti as [|besti IH]; intros bestj bestsize H; [exact H|].
  cbn [Difflib.extend_down].
  destruct (Nat.ltb_spec alo (S besti)) as [H1|H1]; [|exact H].
  destruct (Nat.ltb_spec blo bestj) as [H2|H2]; [|exact H].
  match goal with |- context [if ?c then _ else _] => destruct c end;
    [|exact H].
  apply IH. unfold within in *. lia.
Qed.

Lemma extend_up_ok junk alo ahi blo bhi gap :
  forall besti bestj bestsize,
    within alo ahi blo bhi (besti, bestj, bestsize) ->
    within alo ahi blo bhi (extend_up junk ahi bhi besti bestj bestsize gap).
Proof.
  induction gap as [|gap IH]; intros besti bestj bestsize H; [exact H|].
  cbn [Difflib.extend_up].
  destruct (Nat.ltb_spec (besti + bestsize) ahi) as [H1|H1]; [|exact H].
  destruct (Nat.ltb_spec (bestj + bestsize) bhi) as [H2|H2]; [|exact H].
  match goal with |- context [if ?c then _ else _] => destruct c end;
    [|exact H].
  apply IH. unfold within in *. lia.
Qed.

(** The match of [find_longest_match] lies in the window it was asked for. *)
Lemma find_longest_match_within alo ahi blo bhi :
  alo <= ahi -> blo <= bhi ->
  within alo ahi blo bhi (find_longest_match alo ahi blo bhi).
Proof.
  intros Ha Hb. unfold Difflib.find_longest_match.
  pose proof (flm_outer_ok alo ahi blo bhi (ahi - alo) alo [] (alo, blo, 0)
                (le_n _) ltac:(lia) (Forall_nil _)
                ltac:(unfold within; lia)) as H0.
  destruct (flm_outer (seq alo (ahi - alo)) blo bhi [] (alo, blo, 0))
    as [[i0 j0] k0].
  pose proof (extend_down_ok false alo ahi blo bhi i0 j0 k0 H0) as H1.
  destruct (extend_down false alo blo i0 j0 k0) as [[i1 j1] k1].
  pose proof (extend_up_ok false alo ahi blo bhi (ahi - (i1 + k1)) i1 j1 k1 H1)
    as H2.
  destruct (extend_up false ahi bhi i1 j1 k1 (ahi - (i1 + k1)))
    as [[i2 j2] k2].
  pose proof (extend_down_ok true alo ahi blo bhi i2 j2 k2 H2) as H3.
  destruct (extend_down true alo blo i2 j2 k2) as [[i3 j3] k3].
  exact (extend_up_ok true alo ahi blo bhi (ahi - (i3 + k3)) i3 j3 k3 H3).
Qed.

(** ** [get_matching_blocks]: the loop ends and its blocks are apart *)

Lemma FOP_snoc {X} (R : X -> X -> Prop) l x :
  ForallOrdPairs R l -> Forall (fun y => R y x) l ->
  ForallOrdPairs R (l ++ [x]).
Proof.
  induction 1 as [|y l Hy Hl IH]; intros H; simpl.
  - repeat constructor.
  - inversion H; subst. constructor; [|now apply IH].
    apply Forall_app. split; [exact Hy | now constructor].
Qed.

Lemma apart_sym x y : apart x y -> apart y x.
Proof. unfold apart. tauto. Qed.

(** What is apart from a window is apart from every window inside it. *)
Lemma apart_inside (r s x : box) :
  apart r x ->
  (let '(alo, ahi, blo, bhi) := r in
   let '(alo', ahi', blo', bhi') := s in
   alo <= alo' /\ alo' <= ahi' /\ ahi' <= ahi
   /\ blo <= blo' /\ blo' <= bhi' /\ bhi' <= bhi) ->
  apart s x.
Proof.
  destruct r as [[[alo ahi] blo] bhi], s as [[[alo' ahi'] blo'] bhi'],
    x as [[[xalo xahi] xblo] xbhi].
  unfold apart, before. lia.
Qed.

Lemma matching_loop_ok la lb fuel :
  forall queue blocks,
    queue_measure queue <= fuel ->
    loop_inv la lb queue blocks ->
    exists out,
      matching_loop eqb dflt isjunk a b fuel queue blocks = Some out
      /\ Forall (block_ok la lb) out
      /\ ForallOrdPairs apart (map box_of_match out).
Proof.
  induction fuel as [|fuel IH]; intros queue blocks Hm (HW & HB & HP).
  - destruct queue as [|[[[alo ahi] blo] bhi] queue].
    + exists blocks. now repeat split.
    + simpl in Hm. lia.
  - destruct queue as [|[[[alo ahi] blo] bhi] queue].
    + exists blocks. now repeat split.
    + cbn [matching_loop].
      inversion HW as [|? ? Hw HWq]; subst. cbn [window_ok] in Hw.
      pose proof (find_longest_match_within alo ahi blo bhi
                    ltac:(lia) ltac:(lia)) as Hin.
      destruct (find_longest_match alo ahi blo bhi) as [[i j] k].
      cbn [within] in Hin.
      cbn [app] in HP. inversion HP as [|? ? HR HPq]; subst.
      simpl in Hm.
      destruct (Nat.eqb_spec k 0) as [->|Hk].
      * apply IH; [lia|]. now repeat split.
      * set (R1 := (alo, i, blo, j) : box).
        set (R2 := (i + k, ahi, j + k, bhi) : box).
        set (B := (i, j, k) : Match).
        assert (HR1 : forall x, apart (alo, ahi, blo, bhi) x -> apart R1 x).
        { intros x Hx. eapply apart_inside; [exact Hx|]. simpl. lia. }
        assert (HR2 : forall x, apart (alo, ahi, blo, bhi) x -> apart R2 x).
        { intros x Hx. eapply apart_inside; [exact Hx|]. simpl. lia. }
        assert (HRB : forall x, apart (alo, ahi, blo, bhi) x ->
                                apart (box_of_match B) x).
        { intros x Hx. eapply apart_inside; [exact Hx|]. simpl. lia. }
        assert (Full : ForallOrdPairs apart
                         (R2 :: R1 :: queue ++ map box_of_match (blocks ++ [B]))).
        { rewrite map_app, app_assoc. cbn [map].
          constructor; [|constructor].
          - constructor; [right; simpl; lia|].
            apply Forall_app. split.
            + eapply Forall_impl; [|exact HR]. exact HR2.
            + constructor; [right; simpl; lia | constructor].
          - apply Forall_app. split.
            + eapply Forall_impl; [|exact HR]. exact HR1.
            + constructor; [left; simpl; lia | constructor].
          - apply FOP_snoc; [exact HPq|].
            eapply Forall_impl; [|exact HR].
            intros x Hx. apply apart_sym. now apply HRB. }
        inversion Full as [|? ? F2 Full1]; subst.
        inversion Full1 as [|? ? F1 Full0]; subst.
        inversion F2 as [|? ? F21 F2']; subst.
        apply IH.
        -- destruct ((alo <? i) && (blo <? j)), ((i + k <? ahi) && (j + k <? bhi));
             simpl; lia.
        -- unfold loop_inv.
           assert (W1 : window_ok la lb R1) by (simpl; lia).
           assert (W2 : window_ok la lb R2) by (simpl; lia).
           assert (BO : Forall (block_ok la lb) (blocks ++ [B])).
           { apply Forall_app. split; [exact HB|].
             constructor; [simpl; lia | constructor]. }
           destruct ((alo <? i) && (blo <? j)), ((i + k <? ahi) && (j + k <? bhi));
             (split; [|split; [exact BO|]]); cbn [app];
             repeat match goal with
               | |- Forall _ (_ :: _) => constructor
               | |- ForallOrdPairs _ (_ :: _) => constructor
               end; assumption.
Qed.

(** ** The sorted blocks follow one another *)

Lemma insert_sorted_Forall (P : Match -> Prop) x l :
  P x -> Forall P l -> Forall P (insert_sorted x l).
Proof.
  intros Hx. induction 1 as [|y l Hy Hl IH]; simpl.
  - now repeat constructor.
  - destruct (Match_ltb y x); repeat (constructor; try assumption).
Qed.

Lemma sort_Forall (P : Match -> Prop) l : Forall P l -> Forall P (sort l).
Proof.
  induction 1 as [|x l Hx Hl IH]; simpl; [constructor|].
  now apply insert_sorted_Forall.
Qed.

Lemma Match_ltb_fst x y :
  (Match_ltb x y = true -> fst (fst x) <= fst (fst y))
  /\ (Match_ltb x y = false -> fst (fst y) <= fst (fst x)).
Proof.
  destruct x as [[i1 j1] k1], y as [[i2 j2] k2]. simpl.
  destruct (Nat.ltb_spec i1 i2), (Nat.eqb_spec i1 i2); simpl; split;
    intros; try lia; try discriminate.
Qed.

Lemma insert_sorted_chain la lb x l :
  block_ok la lb x -> Forall (block_ok la lb) l ->
  Forall (fun y => apart (box_of_match x) (box_of_match y)) l ->
  StronglySorted mbefore l ->
  StronglySorted mbefore (insert_sorted x l).
Proof.
  intros Hx HB HA HS.
  induction HS as [|y l HS IH Hy]; simpl.
  - repeat constructor.
  - inversion HB as [|? ? Hby HB']; subst.
    inversion HA as [|? ? Hay HA']; subst.
    destruct x as [[i1 j1] k1], y as [[i2 j2] k2].
    destruct (Match_ltb (i2, j2, k2) (i1, j1, k1)) eqn:E.
    + apply (proj1 (Match_ltb_fst _ _)) in E. simpl in E.
      assert (Hyx : mbefore (i2, j2, k2) (i1, j1, k1)).
      { unfold mbefore, apart, before in *. simpl in *. lia. }
      constructor; [now apply IH|].
      apply insert_sorted_Forall; assumption.
    + apply (proj2 (Match_ltb_fst _ _)) in E. simpl in E.
      assert (Hxy : mbefore (i1, j1, k1) (i2, j2, k2)).
      { unfold mbefore, apart, before in *. simpl in *. lia. }
      constructor; [now constructor|].
      constructor; [exact Hxy|].
      eapply Forall_impl; [|exact Hy].
      intros [[i3 j3] k3] H3.
      unfold mbefore, before in *. simpl in *. lia.
Qed.

Lemma sort_chain la lb l :
  Forall (block_ok la lb) l ->
  ForallOrdPairs apart (map box_of_match l) ->
  StronglySorted mbefore (sort l).
Proof.
  induction l as [|x l IH]; intros HB HP; simpl; [constructor|].
  inversion HB as [|? ? Hx HB']; subst.
  cbn [map] in HP. inversion HP as [|? ? HA HP']; subst.
  apply (insert_sorted_chain la lb); try assumption.
  - now apply sort_Forall.
  - apply sort_Forall. now rewrite Forall_map in HA.
  - now apply IH.
Qed.

(** ** [get_matching_blocks] and [get_opcodes] cover both sequences *)

Lemma Chain_snoc i j l p q ai bj size :
  Chain i j l p q -> p <= ai -> q <= bj ->
  Chain i j (l ++ [(ai, bj, size)]) (ai + size) (bj + size).
Proof.
  induction 1 as [i j|i j ai' bj' size' l p q Hi Hj HC IH]; intros Hp Hq; simpl.
  - constructor; [assumption..|constructor].
  - constructor; [assumption..|now apply IH].
Qed.

Lemma collapse_fold la lb i0 j0 rest :
  forall i1 j1 k1 na p q,
    StronglySorted mbefore rest ->
    Chain i0 j0 na p q -> p <= i1 -> q <= j1 ->
    i1 + k1 <= la -> j1 + k1 <= lb ->
    Forall (block_ok la lb) rest ->
    Forall (fun y => mbefore (i1, j1, k1) y) rest ->
    exists i2 j2 k2 na' p' q',
      fold_left (collapse_step) rest ((i1, j1, k1), na) = ((i2, j2, k2), na')
      /\ Chain i0 j0 na' p' q' /\ p' <= i2 /\ q' <= j2
      /\ i2 + k2 <= la /\ j2 + k2 <= lb.
Proof.
  induction rest as [|[[i2 j2] k2] rest IH];
    intros i1 j1 k1 na p q HS HC Hp Hq Hla Hlb HB HA.
  - exists i1, j1, k1, na, p, q. now repeat split.
  - inversion HS as [|? ? HS' Hy]; subst.
    inversion HB as [|? ? Hb HB']; subst.
    inversion HA as [|? ? Ha HA']; subst.
    cbn [fold_left collapse_step].
    unfold mbefore, before in Ha. simpl in Ha, Hb.
    destruct ((i1 + k1 =? i2) && (j1 + k1 =? j2)) eqn:E.
    + apply andb_true_iff in E. destruct E as [E1 E2].
      apply Nat.eqb_eq in E1, E2.
      apply (IH i1 j1 (k1 + k2) na p q); try assumption; try lia.
      eapply Forall_impl; [|exact Hy].
      intros [[i3 j3] k3]. unfold mbefore, before. simpl. lia.
    + destruct (Nat.eqb_spec k1 0) as [->|Hk].
      * apply (IH i2 j2 k2 na p q); try assumption; lia.
      * apply (IH i2 j2 k2 (na ++ [(i1, j1, k1)]) (i1 + k1) (j1 + k1));
          try assumption; try lia.
        now apply Chain_snoc with (p := p) (q := q).
Qed.

Lemma collapse_chain la lb blocks :
  la = List.length a -> lb = List.length b ->
  StronglySorted mbefore blocks ->
  Forall (block_ok la lb) blocks ->
  Chain 0 0 (collapse a b blocks) la lb.
Proof.
  intros -> -> HS HB. unfold collapse.
  destruct (collapse_fold (List.length a) (List.length b) 0 0 blocks
              0 0 0 [] 0 0 HS (Chain_nil 0 0) (le_n _) (le_n _)
              ltac:(lia) ltac:(lia) HB)
    as (i2 & j2 & k2 & na' & p' & q' & E & HC & Hp & Hq & Hla & Hlb).
  { eapply Forall_impl; [|exact HB].
    intros [[i3 j3] k3] _. unfold mbefore, before. simpl. lia. }
  rewrite E.
  replace (List.length a) with (List.length a + 0) at 2 by lia.
  replace (List.length b) with (List.length b + 0) at 2 by lia.
  destruct (Nat.eqb_spec k2 0) as [->|Hk].
  - apply Chain_snoc with (p := p') (q := q'); [exact HC | lia | lia].
  - apply Chain_snoc with (p := i2 + k2) (q := j2 + k2); [|lia|lia].
    now apply Chain_snoc with (p := p') (q := q').
Qed.

Lemma Tiles_snoc i0 j0 ans tag alo ahi blo bhi :
  Tiles i0 j0 ans alo blo ->
  match tag with
  | Replace => alo < ahi /\ blo < bhi
  | Delete => alo < ahi /\ blo = bhi
  | Insert => alo = ahi /\ blo < bhi
  | Equal => alo < ahi /\ ahi - alo = bhi - blo /\ blo <= bhi
  end ->
  Tiles i0 j0 (ans ++ [(tag, alo, ahi, blo, bhi)]) ahi bhi.
Proof.
  intros HT Hs. remember alo as x eqn:Ex. remember blo as y eqn:Ey.
  revert Ex Ey.
  induction HT as [i j|tag' alo' ahi' blo' bhi' ops i' j' Hs' HT IH];
    intros -> ->; simpl.
  - constructor; [exact Hs | constructor].
  - constructor; [exact Hs' | now apply IH].
Qed.

Lemma opcodes_fold blocks :
  forall i j i' j' i0 j0 ans,
    Chain i j blocks i' j' ->
    Tiles i0 j0 ans i j ->
    Tiles i0 j0 (snd (fold_left opcodes_step blocks (i, j, ans))) i' j'.
Proof.
  induction blocks as [|[[ai bj] size] blocks IH];
    intros i j i' j' i0 j0 ans HC HT.
  - inversion HC; subst. exact HT.
  - inversion HC as [|? ? ? ? ? ? ? ? Hi Hj HC']; subst.
    cbn [fold_left opcodes_step].
    apply IH with (i' := i') (j' := j'); [exact HC'|].
    assert (Gap : Tiles i0 j0
                    (if (i <? ai) && (j <? bj)
                     then ans ++ [(Replace, i, ai, j, bj)]
                     else if i <? ai then ans ++ [(Delete, i, ai, j, bj)]
                     else if j <? bj then ans ++ [(Insert, i, ai, j, bj)]
                     else ans) ai bj).
    { destruct (Nat.ltb_spec i ai), (Nat.ltb_spec j bj); cbn [andb].
      - apply Tiles_snoc; [exact HT | lia].
      - apply Tiles_snoc; [exact HT | lia].
      - apply Tiles_snoc; [exact HT | lia].
      - replace ai with i by lia. replace bj with j by lia. exact HT. }
    destruct (Nat.eqb_spec size 0) as [->|Hs].
    + now rewrite !Nat.add_0_r.
    + apply Tiles_snoc; [exact Gap | lia].
Qed.

Lemma get_matching_blocks_chain :
  exists blocks,
    get_matching_blocks eqb dflt isjunk a b = Some blocks
    /\ Chain 0 0 blocks (List.length a) (List.length b).
Proof.
  unfold get_matching_blocks.
  destruct (matching_loop_ok (List.length a) (List.length b)
              (2 * List.length a + 1) [(0, List.length a, 0, List.length b)] [])
    as (out & E & HB & HP).
  - simpl. lia.
  - repeat split.
    + constructor; [simpl; lia | constructor].
    + constructor.
    + repeat constructor.
  - rewrite E. eexists. split; [reflexivity|].
    apply collapse_chain; try reflexivity.
    + now apply (sort_chain (List.length a) (List.length b)).
    + now apply sort_Forall.
Qed.

(** [get_opcodes] returns, and its opcodes tile [a] and [b] in order. *)
Lemma get_opcodes_tiles :
  exists ops,
    get_opcodes eqb dflt isjunk a b = Some ops
    /\ Tiles 0 0 ops (List.length a) (List.length b).
Proof.
  unfold get_opcodes.
  destruct get_matching_blocks_chain as (blocks & E & HC).
  rewrite E. eexists. split; [reflexivity|].
  apply opcodes_fold with (i := 0) (j := 0); [exact HC | constructor].
Qed.

Lemma ratio_returns : exists r, ratio eqb dflt isjunk a b = Some r.
Proof.
  unfold ratio.
  destruct get_matching_blocks_chain as (blocks & E & _).
  rewrite E. eexists. reflexivity.
Qed.

End Matcher.

(** ** [Differ]: the delta covers both sequences *)

Lemma Blocks_app x y : Blocks x -> Blocks y -> Blocks (x ++ y).
Proof.
  induction 1; intros Hy; simpl; try (constructor; auto); exact Hy.
Qed.

Lemma count_from_app x y : count_from (x ++ y) = count_from x + count_from y.
Proof. unfold count_from. now rewrite filter_app, length_app. Qed.

Lemma count_to_app x y : count_to (x ++ y) = count_to x + count_to y.
Proof. unfold count_to. now rewrite filter_app, length_app. Qed.

Lemma delta_for_app na nb x ma mb y :
  delta_for na nb x -> delta_for ma mb y ->
  delta_for (na + ma) (nb + mb) (x ++ y).
Proof.
  intros (B1 & F1 & T1) (B2 & F2 & T2). repeat split.
  - now apply Blocks_app.
  - rewrite count_from_app. lia.
  - rewrite count_to_app. lia.
Qed.

Lemma delta_for_nil : delta_for 0 0 [].
Proof. repeat split. constructor. Qed.

Lemma dump_del x lo hi : delta_for (hi - lo) 0 (_dump "-" x lo hi).
Proof.
  unfold _dump. generalize (hi - lo) as n. intros n. revert lo.
  induction n as [|n IH]; intros lo; [apply delta_for_nil|].
  destruct (IH (S lo)) as (B & F & T).
  repeat split; simpl.
  - now constructor.
  - unfold count_from in *. simpl. now rewrite F.
  - exact T.
Qed.

Lemma dump_add x lo hi : delta_for 0 (hi - lo) (_dump "+" x lo hi).
Proof.
  unfold _dump. generalize (hi - lo) as n. intros n. revert lo.
  induction n as [|n IH]; intros lo; [apply delta_for_nil|].
  destruct (IH (S lo)) as (B & F & T).
  repeat split; simpl.
  - now constructor.
  - exact F.
  - unfold count_to in *. simpl. now rewrite T.
Qed.

Lemma dump_eq x lo hi : delta_for (hi - lo) (hi - lo) (_dump " " x lo hi).
Proof.
  unfold _dump. generalize (hi - lo) as n. intros n. revert lo.
  induction n as [|n IH]; intros lo; [apply delta_for_nil|].
  destruct (IH (S lo)) as (B & F & T).
  repeat split; simpl.
  - now constructor.
  - unfold count_from in *. simpl. now rewrite F.
  - unfold count_to in *. simpl. now rewrite T.
Qed.

Lemma qformat_delta aline bline atags btags :
  delta_for 1 1 (_qformat aline bline atags btags).
Proof.
  unfold _qformat.
  destruct (String.eqb (Py.rstrip (_keep_original_ws aline atags)) EmptyString),
    (String.eqb (Py.rstrip (_keep_original_ws bline btags)) EmptyString);
    (split; [|split; reflexivity]); simpl.
  - apply Blocks_del, Blocks_add, Blocks_nil.
  - apply Blocks_second, Blocks_nil.
  - apply Blocks_first, Blocks_nil.
  - apply Blocks_both, Blocks_nil.
Qed.

Section DifferProofs.

Variable linejunk : option (string -> bool).
Variable charjunk : option (ascii -> bool).

Lemma plain_replace_delta a alo ahi b blo bhi :
  alo < ahi -> blo < bhi ->
  exists out,
    _plain_replace a alo ahi b blo bhi = Some out
    /\ delta_for (ahi - alo) (bhi - blo) out.
Proof.
  intros Ha Hb. unfold _plain_replace.
  destruct (Nat.ltb_spec alo ahi); [|lia].
  destruct (Nat.ltb_spec blo bhi); [|lia]. simpl.
  destruct (bhi - blo <? ahi - alo); eexists; (split; [reflexivity|]).
  - replace (ahi - alo) with (0 + (ahi - alo)) at 1 by lia.
    replace (bhi - blo) with ((bhi - blo) + 0) at 1 by lia.
    apply delta_for_app; [apply dump_add | apply dump_del].
  - replace (ahi - alo) with ((ahi - alo) + 0) at 1 by lia.
    replace (bhi - blo) with (0 + (bhi - blo)) at 1 by lia.
    apply delta_for_app; [apply dump_del | apply dump_add].
Qed.

Lemma search_step_ok a b alo ahi blo bhi j i st :
  alo <= i < ahi -> blo <= j < bhi ->
  search_ok alo ahi blo bhi st ->
  exists st',
    search_step charjunk a b j (Some st) i = Some st'
    /\ search_ok alo ahi blo bhi st'.
Proof.
  intros Hi Hj [H1 H2]. unfold search_step.
  destruct (String.eqb (nth i a EmptyString) (nth j b EmptyString)).
  - destruct (s_eq st) as [e|] eqn:E.
    + exists st. split; [reflexivity|]. split; [exact H1 | now rewrite E].
    + eexists. split; [reflexivity|]. split; simpl; [exact H1 | lia].
  - match goal with |- context [if ?c then _ else _] => destruct c end.
    + unfold char_ratio.
      destruct (ratio_returns Ascii.eqb Py.NUL charjunk
                  (list_ascii_of_string (nth i a EmptyString))
                  (list_ascii_of_string (nth j b EmptyString))) as [r E].
      rewrite E.
      destruct (Qgtb r (best_ratio st)).
      * eexists. split; [reflexivity|]. split; simpl; [lia | exact H2].
      * exists st. now repeat split.
    + exists st. now repeat split.
Qed.

Lemma search_row_ok a b alo ahi blo bhi j n :
  blo <= j < bhi ->
  forall s st,
    alo <= s -> s + n <= ahi ->
    search_ok alo ahi blo bhi st ->
    exists st',
      fold_left (search_step charjunk a b j) (seq s n) (Some st) = Some st'
      /\ search_ok alo ahi blo bhi st'.
Proof.
  intros Hj. induction n as [|n IH]; intros s st Hs Hn Hok.
  - exists st. now split.
  - cbn [seq fold_left].
    destruct (search_step_ok a b alo ahi blo bhi j s st ltac:(lia) Hj Hok)
      as (st1 & E & Hok1).
    rewrite E. apply IH; try lia. exact Hok1.
Qed.

Lemma search_pairs_ok a alo ahi b blo bhi :
  alo <= ahi -> blo <= bhi ->
  exists st,
    search_pairs charjunk a alo ahi b blo bhi = Some st
    /\ search_ok alo ahi blo bhi st.
Proof.
  intros Hle Hle'. unfold search_pairs.
  assert (G : forall n s st,
             blo <= s -> s + n <= bhi -> search_ok alo ahi blo bhi st ->
             exists st',
               fold_left
                 (fun st j =>
                    fold_left (search_step charjunk a b j)
                      (seq alo (ahi - alo)) st)
                 (seq s n) (Some st) = Some st'
               /\ search_ok alo ahi blo bhi st').
  { induction n as [|n IH]; intros s st Hs Hn Hok.
    - exists st. now split.
    - cbn [seq fold_left].
      destruct (search_row_ok a b alo ahi blo bhi s (ahi - alo)
                  ltac:(lia) alo st (le_n _) ltac:(lia) Hok)
        as (st1 & E & Hok1).
      rewrite E. apply IH; try lia. exact Hok1. }
  apply G; try lia. split; exact I.
Qed.

Lemma char_opcodes_returns ai bj : exists ops, char_opcodes charjunk ai bj = Some ops.
Proof.
  unfold char_opcodes.
  destruct (get_opcodes_tiles Ascii.eqb Py.NUL charjunk
              (list_ascii_of_string ai) (list_ascii_of_string bj))
    as (ops & E & _).
  now exists ops.
Qed.

Lemma fancy_helper_delta a b fuel :
  (forall alo ahi blo bhi,
      alo < ahi -> blo < bhi -> Nat.min (ahi - alo) (bhi - blo) <= fuel ->
      exists out,
        _fancy_replace charjunk fuel a alo ahi b blo bhi = Some out
        /\ delta_for (ahi - alo) (bhi - blo) out) ->
  forall alo ahi blo bhi,
    alo <= ahi -> blo <= bhi -> Nat.min (ahi - alo) (bhi - blo) <= fuel ->
    exists out,
      fancy_helper_of (_fancy_replace charjunk fuel) a alo ahi b blo bhi
      = Some out
      /\ delta_for (ahi - alo) (bhi - blo) out.
Proof.
  intros IH alo ahi blo bhi Ha Hb Hf. unfold fancy_helper_of.
  destruct (Nat.ltb_spec alo ahi), (Nat.ltb_spec blo bhi).
  - now apply IH.
  - eexists. split; [reflexivity|].
    replace (bhi - blo) with 0 by lia. apply dump_del.
  - eexists. split; [reflexivity|].
    replace (ahi - alo) with 0 by lia. apply dump_add.
  - eexists. split; [reflexivity|].
    replace (ahi - alo) with 0 by lia. replace (bhi - blo) with 0 by lia.
    apply delta_for_nil.
Qed.

(** [_fancy_replace] returns a delta for its two ranges when the stack has
    room for as many levels as the shorter range has lines. *)
Lemma fancy_replace_delta a b fuel :
  forall alo ahi blo bhi,
    alo < ahi -> blo < bhi -> Nat.min (ahi - alo) (bhi - blo) <= fuel ->
    exists out,
      _fancy_replace charjunk fuel a alo ahi b blo bhi = Some out
      /\ delta_for (ahi - alo) (bhi - blo) out.
Proof.
  induction fuel as [|fuel IH]; intros alo ahi blo bhi Ha Hb Hf; [lia|].
  cbn [_fancy_replace].
  destruct (search_pairs_ok a alo ahi b blo bhi ltac:(lia) ltac:(lia))
    as (st & E & Hbest & Heq).
  rewrite E.
  assert (Synch : forall best_i best_j identical,
             alo <= best_i < ahi -> blo <= best_j < bhi ->
             exists out,
               match fancy_helper_of (_fancy_replace charjunk fuel)
                       a alo best_i b blo best_j with
               | None => None
               | Some before =>
                   match
                     (if identical : bool
                      then Some [(" "%char, nth best_i a EmptyString)]
                      else
                        match char_opcodes charjunk (nth best_i a EmptyString)
                                (nth best_j b EmptyString) with
                        | None => None
                        | Some ops =>
                            let '(atags, btags) :=
                              fold_left tags_step ops
                                (EmptyString, EmptyString) in
                            Some (_qformat (nth best_i a EmptyString)
                                    (nth best_j b EmptyString) atags btags)
                        end)
                   with
                   | None => None
                   | Some mid =>
                       match fancy_helper_of (_fancy_replace charjunk fuel)
                               a (best_i + 1) ahi b (best_j + 1) bhi with
                       | None => None
                       | Some after => Some (before ++ mid ++ after)
                       end
                   end
               end = Some out
               /\ delta_for (ahi - alo) (bhi - blo) out).
  { intros best_i best_j identical Hi Hj.
    destruct (fancy_helper_delta a b fuel IH alo best_i blo best_j
                ltac:(lia) ltac:(lia) ltac:(lia)) as (before & E1 & D1).
    destruct (fancy_helper_delta a b fuel IH (best_i + 1) ahi (best_j + 1) bhi
                ltac:(lia) ltac:(lia) ltac:(lia)) as (after & E3 & D3).
    rewrite E1, E3.
    assert (Mid : exists mid,
               (if identical
                then Some [(" "%char, nth best_i a EmptyString)]
                else
                  match char_opcodes charjunk (nth best_i a EmptyString)
                          (nth best_j b EmptyString) with
                  | None => None
                  | Some ops =>
                      let '(atags, btags) :=
                        fold_left tags_step ops (EmptyString, EmptyString) in
                      Some (_qformat (nth best_i a EmptyString)
                              (nth best_j b EmptyString) atags btags)
                  end) = Some mid
               /\ delta_for 1 1 mid).
    { destruct identical.
      - eexists. split; [reflexivity|].
        repeat split. repeat constructor.
      - destruct (char_opcodes_returns (nth best_i a EmptyString)
                    (nth best_j b EmptyString)) as [ops Eo].
        rewrite Eo.
        destruct (fold_left tags_step ops (EmptyString, EmptyString))
          as [atags btags].
        eexists. split; [reflexivity|]. apply qformat_delta. }
    destruct Mid as (mid & E2 & D2). rewrite E2.
    eexists. split; [reflexivity|].
    replace (ahi - alo) with ((best_i - alo) + (1 + (ahi - (best_i + 1))))
      by lia.
    replace (bhi - blo) with ((best_j - blo) + (1 + (bhi - (best_j + 1))))
      by lia.
    apply delta_for_app; [exact D1|]. apply delta_for_app; assumption. }
  destruct (Qltb (best_ratio st) cutoff) eqn:Q.
  - destruct (s_eq st) as [[eqi eqj]|].
    + exact (Synch eqi eqj true (proj1 Heq) (proj2 Heq)).
    + now apply plain_replace_delta.
  - unfold best_ratio in Q.
    destruct (s_best st) as [[[r best_i] best_j]|] eqn:Eb.
    + exact (Synch best_i best_j false (proj1 Hbest) (proj2 Hbest)).
    + vm_compute in Q. discriminate.
Qed.

Lemma fancy_helper_mono a b f f' :
  (forall alo ahi blo bhi out,
      f a alo ahi b blo bhi = Some out -> f' a alo ahi b blo bhi = Some out) ->
  forall alo ahi blo bhi out,
    fancy_helper_of f a alo ahi b blo bhi = Some out ->
    fancy_helper_of f' a alo ahi b blo bhi = Some out.
Proof.
  intros H alo ahi blo bhi out. unfold fancy_helper_of.
  destruct (alo <? ahi), (blo <? bhi); auto.
Qed.

(** What [_fancy_replace] returns with some room it returns with more. *)
Lemma fancy_replace_mono a b fuel :
  forall fuel' alo ahi blo bhi out,
    fuel <= fuel' ->
    _fancy_replace charjunk fuel a alo ahi b blo bhi = Some out ->
    _fancy_replace charjunk fuel' a alo ahi b blo bhi = Some out.
Proof.
  induction fuel as [|fuel IH]; intros fuel' alo ahi blo bhi out Hf H;
    [discriminate|].
  destruct fuel' as [|fuel']; [lia|].
  cbn [_fancy_replace] in *.
  destruct (search_pairs charjunk a alo ahi b blo bhi) as [st|]; [|discriminate].
  assert (M : forall alo ahi blo bhi out,
             fancy_helper_of (_fancy_replace charjunk fuel) a alo ahi b blo bhi
             = Some out ->
             fancy_helper_of (_fancy_replace charjunk fuel') a alo ahi b blo bhi
             = Some out).
  { apply fancy_helper_mono. intros. eapply IH; [|eassumption]. lia. }
  assert (Done : forall x : option (list dline), x = Some out -> x = Some out)
    by auto.
  destruct (Qltb (best_ratio st) cutoff);
    [destruct (s_eq st) as [[eqi eqj]|]; [|exact H]
    |destruct (s_best st) as [[[r best_i] best_j]|]; [|discriminate]];
    repeat match type of H with
      | context [fancy_helper_of ?f ?x ?lo ?hi ?y ?lo' ?hi'] =>
          let E := fresh "E" in
          destruct (fancy_helper_of f x lo hi y lo' hi') eqn:E;
          [rewrite (M _ _ _ _ _ E) | discriminate H]
      | context [char_opcodes ?c ?x ?y] =>
          destruct (char_opcodes c x y); [|discriminate H]
      | context [fold_left tags_step ?ops ?init] =>
          destruct (fold_left tags_step ops init)
      end;
    exact H.
Qed.

(** Whatever the room, what [_fancy_replace] returns is a delta for its
    two ranges. *)
Lemma fancy_replace_returned a b fuel alo ahi blo bhi out :
  alo < ahi -> blo < bhi ->
  _fancy_replace charjunk fuel a alo ahi b blo bhi = Some out ->
  delta_for (ahi - alo) (bhi - blo) out.
Proof.
  intros Ha Hb H.
  destruct (fancy_replace_delta a b (Nat.max fuel (ahi - alo)) alo ahi blo bhi
              Ha Hb ltac:(lia)) as (out' & E & D).
  apply fancy_replace_mono with (fuel' := Nat.max fuel (ahi - alo)) in H;
    [|lia].
  rewrite H in E. injection E as <-. exact D.
Qed.

Lemma compare_fold_none room a b ops :
  fold_left (compare_step room charjunk a b) ops None = None.
Proof. induction ops as [|op ops IH]; [reflexivity | exact IH]. Qed.

(** With room for the shorter sequence the loop of [compare] returns. *)
Lemma compare_fold_delta room a b i j ops i' j' :
  Tiles i j ops i' j' ->
  Nat.min (i' - i) (j' - j) <= room ->
  forall out0,
    exists out,
      fold_left (compare_step room charjunk a b) ops (Some out0)
      = Some (out0 ++ out)
      /\ delta_for (i' - i) (j' - j) out /\ i <= i' /\ j <= j'.
Proof.
  induction 1 as [i j|tag alo ahi blo bhi ops i' j' Hs HT IH]; intros Hr out0.
  - exists []. rewrite app_nil_r, !Nat.sub_diag.
    repeat split; try lia. constructor.
  - cbn [fold_left compare_step].
    assert (Hends : ahi <= i' /\ bhi <= j').
    { clear - HT. induction HT as [|tag alo ahi blo bhi ops i' j' Hs HT IH];
        [lia|]. destruct tag; lia. }
    assert (G : exists g,
               match tag with
               | Replace => _fancy_replace charjunk room a alo ahi b blo bhi
               | Delete => Some (_dump "-" a alo ahi)
               | Insert => Some (_dump "+" b blo bhi)
               | Equal => Some (_dump " " a alo ahi)
               end = Some g
               /\ delta_for (ahi - alo) (bhi - blo) g
               /\ alo <= ahi /\ blo <= bhi).
    { destruct tag.
      - destruct (fancy_replace_delta a b room alo ahi blo bhi
                    ltac:(lia) ltac:(lia) ltac:(lia)) as (g & E & D).
        exists g. repeat split; try assumption; try apply D; lia.
      - eexists. split; [reflexivity|]. split; [|lia].
        replace (bhi - blo) with 0 by lia. apply dump_del.
      - eexists. split; [reflexivity|]. split; [|lia].
        replace (ahi - alo) with 0 by lia. apply dump_add.
      - eexists. split; [reflexivity|]. split; [|lia].
        replace (bhi - blo) with (ahi - alo) by lia. apply dump_eq. }
    destruct G as (g & E & D & Ha & Hb). rewrite E.
    destruct (IH ltac:(lia) (out0 ++ g)) as (out & E' & D' & Hi & Hj).
    exists (g ++ out). rewrite app_assoc. split; [exact E'|].
    split; [|lia].
    replace (i' - alo) with ((ahi - alo) + (i' - ahi)) by lia.
    replace (j' - blo) with ((bhi - blo) + (j' - bhi)) by lia.
    now apply delta_for_app.
Qed.

(** Whatever the room, what the loop of [compare] returns is a delta. *)
Lemma compare_fold_returned room a b i j ops i' j' :
  Tiles i j ops i' j' ->
  forall out0 res,
    fold_left (compare_step room charjunk a b) ops (Some out0) = Some res ->
    exists out,
      res = out0 ++ out
      /\ delta_for (i' - i) (j' - j) out /\ i <= i' /\ j <= j'.
Proof.
  induction 1 as [i j|tag alo ahi blo bhi ops i' j' Hs HT IH];
    intros out0 res H.
  - injection H as <-. exists []. rewrite app_nil_r, !Nat.sub_diag.
    repeat split; try lia. constructor.
  - cbn [fold_left compare_step] in H.
    destruct (match tag with
              | Replace => _fancy_replace charjunk room a alo ahi b blo bhi
              | Delete => Some (_dump "-" a alo ahi)
              | Insert => Some (_dump "+" b blo bhi)
              | Equal => Some (_dump " " a alo ahi)
              end) as [g|] eqn:E;
      [|now rewrite compare_fold_none in H].
    assert (D : delta_for (ahi - alo) (bhi - blo) g /\ alo <= ahi /\ blo <= bhi).
    { destruct tag.
      - split; [|lia].
        apply (fancy_replace_returned a b room); [lia | lia | exact E].
      - injection E as <-. split; [|lia].
        replace (bhi - blo) with 0 by lia. apply dump_del.
      - injection E as <-. split; [|lia].
        replace (ahi - alo) with 0 by lia. apply dump_add.
      - injection E as <-. split; [|lia].
        replace (bhi - blo) with (ahi - alo) by lia. apply dump_eq. }
    destruct D as (D & Ha & Hb).
    destruct (IH _ _ H) as (out & -> & D' & Hi & Hj).
    exists (g ++ out). rewrite app_assoc. split; [reflexivity|].
    split; [|lia].
    replace (i' - alo) with ((ahi - alo) + (i' - ahi)) by lia.
    replace (j' - blo) with ((bhi - blo) + (j' - bhi)) by lia.
    now apply delta_for_app.
Qed.

(** [Differ.compare] returns a delta for all the lines of [a] and [b] when
    the stack has room for the shorter of the two. *)
Lemma compare_delta room a b :
  Nat.min (List.length a) (List.length b) <= room ->
  exists out,
    compare room linejunk charjunk a b = Some out
    /\ delta_for (List.length a) (List.length b) out.
Proof.
  intros Hr. unfold compare.
  destruct (get_opcodes_tiles String.eqb EmptyString linejunk a b)
    as (ops & E & HT).
  rewrite E.
  destruct (compare_fold_delta room a b 0 0 ops _ _ HT ltac:(lia) [])
    as (out & E' & D & _).
  exists out. split; [exact E'|]. now rewrite !Nat.sub_0_r in D.
Qed.

(** Whatever the room, what [Differ.compare] returns is a delta for all the
    lines of [a] and [b]. *)
Lemma compare_returned room a b out :
  compare room linejunk charjunk a b = Some out ->
  delta_for (List.length a) (List.length b) out.
Proof.
  unfold compare.
  destruct (get_opcodes_tiles String.eqb EmptyString linejunk a b)
    as (ops & E & HT).
  rewrite E. intros H.
  destruct (compare_fold_returned room a b 0 0 ops _ _ HT [] out H)
    as (out' & -> & D & _).
  now rewrite !Nat.sub_0_r in D.
Qed.

End DifferProofs.

(** ** [_mdiff]: pairing the lines *)

Lemma zipq_app A B X Y :
  zipq (A ++ X) (B ++ Y)
  = zipq A B
    ++ zipq (skipn (List.length B) A ++ X) (skipn (List.length A) B ++ Y).
Proof.
  revert B. induction A as [|[fl fd] A IH]; intros B.
  - simpl. now rewrite skipn_nil.
  - destruct B as [|[tl td] B].
    + reflexivity.
    + simpl. now rewrite IH.
Qed.

Lemma zipq_real_from A B :
  forallb is_real_entry A = true -> forallb has_number (zipq A B) = true.
Proof.
  revert B. induction A as [|[fl fd] A IH]; intros B H; [reflexivity|].
  destruct B as [|[tl td] B]; [reflexivity|].
  simpl in *. apply andb_true_iff in H. destruct H as [H1 H2].
  unfold is_real_entry in H1. simpl in H1. rewrite H1. simpl. now apply IH.
Qed.

Lemma zipq_real_to A B :
  forallb is_real_entry B = true -> forallb has_number (zipq A B) = true.
Proof.
  revert B. induction A as [|[fl fd] A IH]; intros B H; [reflexivity|].
  destruct B as [|[tl td] B]; [reflexivity|].
  simpl in *. apply andb_true_iff in H. destruct H as [H1 H2].
  unfold is_real_entry in H1. simpl in H1. rewrite H1, orb_true_r.
  simpl. now apply IH.
Qed.

Lemma forallb_skipn {X} (f : X -> bool) n l :
  forallb f l = true -> forallb f (skipn n l) = true.
Proof.
  revert l. induction n as [|n IH]; intros l H; [exact H|].
  destruct l as [|x l]; [reflexivity|].
  simpl in *. apply andb_true_iff in H. now apply IH.
Qed.

Lemma from_queue_app x y : from_queue (x ++ y) = from_queue x ++ from_queue y.
Proof. apply flat_map_app. Qed.

Lemma to_queue_app x y : to_queue (x ++ y) = to_queue x ++ to_queue y.
Proof. apply flat_map_app. Qed.

Lemma numbers_app x y : numbers (x ++ y) = numbers x ++ numbers y.
Proof. apply flat_map_app. Qed.

(** A chunk [c] of values before the values [hr'] of the rest of the run. *)
Lemma iterator_ok_chunk lines lines' nl nl' pending pending' c hr' :
  iterator_ok lines' nl' pending' hr' ->
  numbers (from_queue c) ++ Zseq (fst nl' + 1) (count_from lines')
  = Zseq (fst nl + 1) (count_from lines) ->
  numbers (to_queue c) ++ Zseq (snd nl' + 1) (count_to lines')
  = Zseq (snd nl + 1) (count_to lines) ->
  chunk_premise pending pending' c ->
  iterator_ok lines nl pending (c ++ hr').
Proof.
  intros (N1 & N2 & H) E1 E2 HC. split; [|split].
  - now rewrite from_queue_app, numbers_app, N1.
  - now rewrite to_queue_app, numbers_app, N2.
  - intros fq tq HS.
    destruct (HC fq tq HS) as (Hreal & Hf & Ht & Hp).
    rewrite from_queue_app, to_queue_app.
    set (A := fq ++ from_queue c) in *. set (B := tq ++ to_queue c) in *.
    assert (HS' : Surplus pending'
                    (skipn (List.length B) A) (skipn (List.length A) B)).
    { repeat split; try assumption.
      - rewrite !length_skipn. subst A B. rewrite !length_app in *.
        destruct HS as (_ & _ & HS & _). lia.
      - destruct (Nat.le_gt_cases (List.length A) (List.length B)).
        + left. now apply skipn_all2.
        + right. apply skipn_all2. lia. }
    destruct (H _ _ HS') as [L Z].
    rewrite !app_assoc. fold A B. split.
    + rewrite !length_skipn in L.
      assert (List.length A = List.length fq + List.length (from_queue c))
        by (subst A; now rewrite length_app).
      assert (List.length B = List.length tq + List.length (to_queue c))
        by (subst B; now rewrite length_app).
      rewrite !length_app. lia.
    + rewrite zipq_app, forallb_app, Z, andb_true_r.
      destruct Hreal; [now apply zipq_real_from | now apply zipq_real_to].
Qed.

Lemma Surplus_nonpos pending fq tq :
  Surplus pending fq tq -> (pending <= 0)%Z ->
  tq = [] /\ List.length fq = Z.to_nat (- pending).
Proof.
  intros (_ & _ & L & [-> | ->]) H; simpl in *.
  - destruct tq; simpl in *; [split; [reflexivity | lia] | lia].
  - split; [reflexivity | lia].
Qed.

Lemma Surplus_nonneg pending fq tq :
  Surplus pending fq tq -> (0 <= pending)%Z ->
  fq = [] /\ List.length tq = Z.to_nat pending.
Proof.
  intros (_ & _ & L & [-> | ->]) H; simpl in *.
  - split; [reflexivity | lia].
  - destruct fq; simpl in *; [split; [reflexivity | lia] | lia].
Qed.

Lemma blanks_from_queue n :
  from_queue (blanks n)
  = if (n <? 0)%Z then [] else repeat (blank, true) (Z.to_nat n).
Proof.
  unfold blanks. destruct (n <? 0)%Z.
  - induction (Z.to_nat (- n)) as [|k IH]; [reflexivity | exact IH].
  - induction (Z.to_nat n) as [|k IH]; [reflexivity | simpl; now rewrite IH].
Qed.

Lemma blanks_to_queue n :
  to_queue (blanks n)
  = if (n <? 0)%Z then repeat (blank, true) (Z.to_nat (- n)) else [].
Proof.
  unfold blanks. destruct (n <? 0)%Z.
  - induction (Z.to_nat (- n)) as [|k IH]; [reflexivity | simpl; now rewrite IH].
  - induction (Z.to_nat n) as [|k IH]; [reflexivity | exact IH].
Qed.

Lemma numbers_blanks k : numbers (repeat (blank, true) k) = [].
Proof. induction k as [|k IH]; [reflexivity | exact IH]. Qed.

Lemma skipn_same_length {X Y} (A : list X) (B : list Y) :
  List.length A = List.length B -> skipn (List.length B) A = [].
Proof. intros H. apply skipn_all2. lia. Qed.

Lemma forallb_snoc {X} (f : X -> bool) l x :
  forallb f (l ++ [x]) = forallb f l && f x.
Proof. rewrite forallb_app. simpl. now rewrite andb_true_r. Qed.

Lemma chunk_both pending f t d :
  is_real f = true -> is_real t = true ->
  chunk_premise pending pending [(Some f, Some t, d)].
Proof.
  intros Hf Ht fq tq (Rf & Rt & L & E). simpl.
  assert (RA : forallb is_real_entry (fq ++ [(f, d)]) = true)
    by (rewrite forallb_snoc, Rf; exact Hf).
  assert (RB : forallb is_real_entry (tq ++ [(t, d)]) = true)
    by (rewrite forallb_snoc, Rt; exact Ht).
  repeat split.
  - now left.
  - now apply forallb_skipn.
  - now apply forallb_skipn.
  - lia.
Qed.

Lemma chunk_from pending f :
  is_real f = true ->
  chunk_premise pending (pending - 1) [(Some f, None, true)].
Proof.
  intros Hf fq tq (Rf & Rt & L & E). simpl. rewrite app_nil_r.
  assert (RA : forallb is_real_entry (fq ++ [(f, true)]) = true)
    by (rewrite forallb_snoc, Rf; exact Hf).
  repeat split.
  - now left.
  - now apply forallb_skipn.
  - now apply forallb_skipn.
  - lia.
Qed.

Lemma chunk_to pending t :
  is_real t = true ->
  chunk_premise pending (pending + 1) [(None, Some t, true)].
Proof.
  intros Ht fq tq (Rf & Rt & L & E). simpl. rewrite app_nil_r.
  assert (RB : forallb is_real_entry (tq ++ [(t, true)]) = true)
    by (rewrite forallb_snoc, Rt; exact Ht).
  repeat split.
  - now right.
  - now apply forallb_skipn.
  - now apply forallb_skipn.
  - lia.
Qed.

Lemma chunk_from_catch_up pending f :
  is_real f = true ->
  chunk_premise pending 0 (blanks (pending - 1) ++ [(Some f, None, true)]).
Proof.
  intros Hf fq tq HS.
  rewrite from_queue_app, to_queue_app, blanks_from_queue, blanks_to_queue.
  cbn [from_queue to_queue flat_map app]. rewrite !app_nil_r.
  destruct HS as (Rf & Rt & L & E).
  destruct (Z.ltb_spec (pending - 1) 0) as [Hp|Hp].
  - destruct (Surplus_nonpos pending fq tq ltac:(repeat split; assumption)
                ltac:(lia)) as [-> Lf].
    cbn [app]; rewrite ?app_nil_r.
    assert (Len : List.length (fq ++ [(f, true)])
                  = List.length (repeat (blank, true) (Z.to_nat (- (pending - 1))))).
    { rewrite length_app, repeat_length. simpl. lia. }
    repeat split.
    + left. rewrite forallb_snoc, Rf. exact Hf.
    + now rewrite skipn_same_length.
    + now rewrite skipn_same_length.
    + rewrite repeat_length. simpl. lia.
  - destruct (Surplus_nonneg pending fq tq ltac:(repeat split; assumption)
                ltac:(lia)) as [-> Lt].
    cbn [app]; rewrite ?app_nil_r.
    assert (Len : List.length
                    (repeat (blank, true) (Z.to_nat (pending - 1)) ++ [(f, true)])
                  = List.length tq).
    { rewrite length_app, repeat_length. simpl. lia. }
    repeat split.
    + now right.
    + now rewrite skipn_same_length.
    + now rewrite skipn_same_length.
    + rewrite length_app, repeat_length. simpl. lia.
Qed.

Lemma chunk_to_catch_up pending t :
  is_real t = true ->
  chunk_premise pending 0 (blanks (pending + 1) ++ [(None, Some t, true)]).
Proof.
  intros Ht fq tq HS.
  rewrite from_queue_app, to_queue_app, blanks_from_queue, blanks_to_queue.
  cbn [from_queue to_queue flat_map app]. rewrite !app_nil_r.
  destruct HS as (Rf & Rt & L & E).
  destruct (Z.ltb_spec (pending + 1) 0) as [Hp|Hp].
  - destruct (Surplus_nonpos pending fq tq ltac:(repeat split; assumption)
                ltac:(lia)) as [-> Lf].
    cbn [app]; rewrite ?app_nil_r.
    assert (Len : List.length fq
                  = List.length
                      (repeat (blank, true) (Z.to_nat (- (pending + 1)))
                         ++ [(t, true)])).
    { rewrite length_app, repeat_length. simpl. lia. }
    repeat split.
    + now left.
    + now rewrite skipn_same_length.
    + now rewrite skipn_same_length.
    + rewrite length_app, repeat_length. simpl. lia.
  - destruct (Z.eq_dec pending (-1)) as [->|Hne].
    + destruct (Surplus_nonpos (-1) fq tq ltac:(repeat split; assumption)
                  ltac:(lia)) as [-> Lf].
      cbn [app Z.add Z.to_nat repeat]; rewrite ?app_nil_r.
      assert (Len : List.length fq = List.length [(t, true)])
        by (simpl in *; lia).
      repeat split.
      * now left.
      * now rewrite skipn_same_length.
      * now rewrite skipn_same_length.
    + destruct (Surplus_nonneg pending fq tq ltac:(repeat split; assumption)
                  ltac:(lia)) as [-> Lt].
      cbn [app]; rewrite ?app_nil_r.
      assert (Len : List.length (repeat (blank, true) (Z.to_nat (pending + 1)))
                    = List.length (tq ++ [(t, true)])).
      { rewrite length_app, repeat_length. simpl. lia. }
      repeat split.
      * right. rewrite forallb_snoc, Rt. exact Ht.
      * now rewrite skipn_same_length.
      * now rewrite skipn_same_length.
      * rewrite repeat_length. simpl. lia.
Qed.

Lemma chunk_end pending : chunk_premise pending 0 (blanks pending).
Proof.
  intros fq tq HS.
  rewrite blanks_from_queue, blanks_to_queue.
  destruct HS as (Rf & Rt & L & E).
  destruct (Z.ltb_spec pending 0) as [Hp|Hp].
  - destruct (Surplus_nonpos pending fq tq ltac:(repeat split; assumption)
                ltac:(lia)) as [-> Lf].
    cbn [app]; rewrite ?app_nil_r.
    assert (Len : List.length fq
                  = List.length (repeat (blank, true) (Z.to_nat (- pending)))).
    { rewrite repeat_length. lia. }
    repeat split.
    + now left.
    + now rewrite skipn_same_length.
    + now rewrite skipn_same_length.
    + rewrite repeat_length. simpl. lia.
  - destruct (Surplus_nonneg pending fq tq ltac:(repeat split; assumption)
                ltac:(lia)) as [-> Lt].
    cbn [app]; rewrite ?app_nil_r.
    assert (Len : List.length (repeat (blank, true) (Z.to_nat pending))
                  = List.length tq).
    { rewrite repeat_length. lia. }
    repeat split.
    + now right.
    + now rewrite skipn_same_length.
    + now rewrite skipn_same_length.
    + rewrite repeat_length. simpl. lia.
Qed.

(** ** One round of [_line_iterator] *)

Lemma make_line_none l rest side nl :
  _make_line (l :: rest) None side nl
  = ((PInt (num_of side (bump side nl)), snd l), rest, bump side nl).
Proof. destruct side; reflexivity. Qed.

Lemma make_line_del l rest side nl :
  _make_line (l :: rest) (Some "-"%char) side nl
  = ((PInt (num_of side (bump side nl)),
      marked "-" (if String.eqb (snd l) EmptyString then " " else snd l)),
     rest, bump side nl).
Proof. destruct side; reflexivity. Qed.

Lemma make_line_add l rest side nl :
  _make_line (l :: rest) (Some "+"%char) side nl
  = ((PInt (num_of side (bump side nl)),
      marked "+" (if String.eqb (snd l) EmptyString then " " else snd l)),
     rest, bump side nl).
Proof. destruct side; reflexivity. Qed.

Lemma make_line_quest l m rest side nl :
  _make_line (l :: m :: rest) (Some "?"%char) side nl
  = ((PInt (num_of side (bump side nl)),
      Py.drop 2
        (fold_left mark_span (rev (sub_info (full_line m))) (full_line l))),
     rest, bump side nl).
Proof. destruct side; reflexivity. Qed.

Lemma s_of_cons l rest :
  s_of (l :: rest)
  = String (fst l)
      (String (tag_at rest 0)
         (String (tag_at rest 1) (String (tag_at rest 2) EmptyString))).
Proof. reflexivity. Qed.

(** A delta never starts with a [?] line, and no [?] line follows a first
    [+] line. *)
Lemma Blocks_head rest :
  Blocks rest ->
  tag_at rest 0 <> "?"%char
  /\ (tag_at rest 0 = "+"%char -> tag_at rest 1 <> "?"%char).
Proof.
  intros H. inversion H as [|t r Hr|t r Hr|t r Hr| | |]; subst;
    (split; [discriminate|]); try discriminate.
  intros _. inversion Hr; subst; discriminate.
Qed.

Lemma numbers_blanks_from n : numbers (from_queue (blanks n)) = [].
Proof.
  rewrite blanks_from_queue. destruct (n <? 0)%Z; [reflexivity|].
  apply numbers_blanks.
Qed.

Lemma numbers_blanks_to n : numbers (to_queue (blanks n)) = [].
Proof.
  rewrite blanks_to_queue. destruct (n <? 0)%Z; [|reflexivity].
  apply numbers_blanks.
Qed.

Lemma yield_yields x r : yield_ x r = yields [x] r.
Proof. destruct r; reflexivity. Qed.

Ltac round_done :=
  unfold round_ok;
  split; [reflexivity|];
  split; [assumption|];
  split; [simpl; lia|];
  split; [first [ apply chunk_both; reflexivity
                | apply chunk_from; reflexivity
                | apply chunk_to; reflexivity
                | apply chunk_from_catch_up; reflexivity
                | apply chunk_to_catch_up; reflexivity ]|];
  rewrite ?from_queue_app, ?to_queue_app, ?numbers_app,
    ?numbers_blanks_from, ?numbers_blanks_to;
  split; reflexivity.

Lemma tag_at_0 l rest : tag_at (l :: rest) 0 = fst l.
Proof. reflexivity. Qed.

Lemma tag_at_S l rest n : tag_at (l :: rest) (S n) = tag_at rest n.
Proof. reflexivity. Qed.

(** The tests of a round on the characters of [s], one by one. *)
Ltac dec_tests :=
  repeat match goal with
    | |- context [ascii_dec ?x ?y] =>
        let E := fresh "E" in
        destruct (ascii_dec x y) as [E|E];
        [ try discriminate E; try congruence
        | try (exfalso; apply E; reflexivity); try congruence ]
    end.

Ltac round_start :=
  unfold round_ok; cbn [_line_iterator]; rewrite s_of_cons;
  rewrite ?tag_at_S, ?tag_at_0;
  cbn [fst startswith prefix orb]; dec_tests; cbn [orb].

Ltac round_finish :=
  do 4 eexists;
  rewrite ?make_line_quest, ?make_line_none, ?make_line_del, ?make_line_add;
  cbn iota beta;
  rewrite ?make_line_quest, ?make_line_none, ?make_line_del, ?make_line_add;
  cbn iota beta;
  rewrite ?yield_yields;
  round_done.

Lemma round_eq fuel t rest nl pending :
  Blocks rest ->
  exists c lines' nl' pending',
    round_ok fuel ((" "%char, t) :: rest) nl pending c lines' nl' pending'.
Proof.
  intros HB. do 4 eexists.
  unfold round_ok. cbn [_line_iterator]. rewrite s_of_cons.
  cbn [fst startswith prefix]. cbn.
  rewrite yield_yields.
  round_done.
Qed.

Lemma round_both fuel ta ma tb mb rest nl pending :
  Blocks rest ->
  exists c lines' nl' pending',
    round_ok fuel
      (("-"%char, ta) :: ("?"%char, ma) :: ("+"%char, tb) :: ("?"%char, mb) :: rest)
      nl pending c lines' nl' pending'.
Proof.
  intros HB. do 4 eexists.
  unfold round_ok. cbn [_line_iterator]. rewrite s_of_cons.
  cbn [fst startswith prefix tag_at nth_error]. cbn [ascii_dec].
  rewrite !make_line_quest. cbn iota beta.
  rewrite yield_yields.
  round_done.
Qed.


Lemma round_first fuel ta ma tb rest nl pending :
  Blocks rest ->
  exists c lines' nl' pending',
    round_ok fuel
      (("-"%char, ta) :: ("?"%char, ma) :: ("+"%char, tb) :: rest)
      nl pending c lines' nl' pending'.
Proof.
  intros HB. destruct (Blocks_head rest HB) as [H0 _].
  round_start; round_finish.
Qed.

Lemma round_second fuel ta tb mb rest nl pending :
  Blocks rest ->
  exists c lines' nl' pending',
    round_ok fuel
      (("-"%char, ta) :: ("+"%char, tb) :: ("?"%char, mb) :: rest)
      nl pending c lines' nl' pending'.
Proof.
  intros HB. round_start; round_finish.
Qed.

Lemma round_del fuel t rest nl pending :
  Blocks rest ->
  exists c lines' nl' pending',
    round_ok fuel (("-"%char, t) :: rest) nl pending c lines' nl' pending'.
Proof.
  intros HB. destruct (Blocks_head rest HB) as [H0 H1].
  round_start; try solve [exfalso; apply H1; congruence]; round_finish.
Qed.

Lemma round_add fuel t rest nl pending :
  Blocks rest ->
  exists c lines' nl' pending',
    round_ok fuel (("+"%char, t) :: rest) nl pending c lines' nl' pending'.
Proof.
  intros HB. round_start; round_finish.
Qed.

Lemma round_exists fuel lines nl pending :
  Blocks lines -> lines <> [] ->
  exists c lines' nl' pending',
    round_ok fuel lines nl pending c lines' nl' pending'.
Proof.
  intros HB Hne. inversion HB; subst.
  - contradiction.
  - now apply round_eq.
  - now apply round_del.
  - now apply round_add.
  - now apply round_both.
  - now apply round_first.
  - now apply round_second.
Qed.

Lemma iterator_ok_end nl : iterator_ok [] nl 0 [].
Proof.
  split; [reflexivity|]. split; [reflexivity|].
  intros fq tq (_ & _ & L & E). simpl. rewrite !app_nil_r.
  assert (fq = [] /\ tq = []) as [-> ->].
  { destruct E as [-> | ->]; simpl in L.
    - destruct tq; [now split | simpl in L; lia].
    - destruct fq; [now split | simpl in L; lia]. }
  now split.
Qed.

(** On a delta [_line_iterator] returns: every line is numbered on its
    side, in order, and the lines it yields pair up. *)
Lemma line_iterator_ok fuel :
  forall lines nl pending,
    Blocks lines -> List.length lines < fuel ->
    exists hr,
      _line_iterator fuel lines nl pending = Some hr
      /\ iterator_ok lines nl pending hr.
Proof.
  induction fuel as [|fuel IH]; intros lines nl pending HB Hf; [lia|].
  destruct lines as [|l lines].
  - exists (blanks pending). split; [reflexivity|].
    rewrite <- (app_nil_r (blanks pending)).
    apply iterator_ok_chunk with (lines' := []) (nl' := nl) (pending' := 0%Z).
    + apply iterator_ok_end.
    + now rewrite numbers_blanks_from.
    + now rewrite numbers_blanks_to.
    + apply chunk_end.
  - destruct (round_exists fuel (l :: lines) nl pending HB ltac:(discriminate))
      as (c & lines' & nl' & pending' & E & HB' & Hl & HC & N1 & N2).
    destruct (IH lines' nl' pending' HB' ltac:(simpl in *; lia))
      as (hr' & E' & Hok).
    exists (c ++ hr'). split.
    + rewrite E, E'. reflexivity.
    + now apply iterator_ok_chunk with (lines' := lines') (nl' := nl')
                                       (pending' := pending').
Qed.

(** ** [_line_pair_iterator] and the context loop *)

Lemma drain_zipq fq tq :
  drain fq tq
  = (zipq fq tq, skipn (List.length tq) fq, skipn (List.length fq) tq).
Proof.
  revert tq. induction fq as [|[fl fd] fq IH]; intros tq.
  - simpl. now rewrite skipn_nil.
  - destruct tq as [|[tl td] tq]; [reflexivity|].
    simpl. now rewrite IH.
Qed.

(** [_line_pair_iterator] pairs the lines of the two queues in order. *)
Lemma line_pair_iterator_zipq hr :
  forall fq tq,
    _line_pair_iterator hr fq tq
    = zipq (fq ++ from_queue hr) (tq ++ to_queue hr).
Proof.
  induction hr as [|[[f t] d] hr IH]; intros fq tq.
  - cbn [_line_pair_iterator]. rewrite drain_zipq. simpl.
    now rewrite !app_nil_r.
  - cbn [_line_pair_iterator]. rewrite drain_zipq, IH.
    change (from_queue ((f, t, d) :: hr))
      with (match f with Some l => [(l, d)] | None => [] end ++ from_queue hr).
    change (to_queue ((f, t, d) :: hr))
      with (match t with Some l => [(l, d)] | None => [] end ++ to_queue hr).
    rewrite (zipq_app fq tq). f_equal.
    destruct f, t; now rewrite <- ?app_assoc, ?app_nil_r.
Qed.

Lemma zipq_rows_only F T : rows_only (zipq F T) = true.
Proof.
  revert T. induction F as [|[fl fd] F IH]; intros T; [reflexivity|].
  destruct T as [|[tl td] T]; [reflexivity|]. simpl. apply IH.
Qed.

Lemma zipq_left_numbers F T :
  List.length F = List.length T -> left_numbers (zipq F T) = numbers F.
Proof.
  revert T. induction F as [|[[fn ft] fd] F IH]; intros T H.
  - reflexivity.
  - destruct T as [|[tl td] T]; [discriminate|].
    injection H as H. cbn [zipq left_numbers numbers flat_map].
    f_equal. now apply IH.
Qed.

Lemma zipq_right_numbers F T :
  List.length F = List.length T -> right_numbers (zipq F T) = numbers T.
Proof.
  revert T. induction F as [|[fl fd] F IH]; intros T H.
  - destruct T; [reflexivity | discriminate].
  - destruct T as [|[[tn tt] td] T]; [discriminate|].
    injection H as H. cbn [zipq right_numbers numbers flat_map].
    f_equal. now apply IH.
Qed.

(** The pairs [_mdiff] makes of a delta, without context: all the lines
    of both sides, paired. *)
Lemma pairs_of_delta d la lb :
  delta_for la lb d ->
  exists hr,
    _line_iterator (S (List.length d)) d (0%Z, 0%Z) 0%Z = Some hr
    /\ rows_only (_line_pair_iterator hr [] []) = true
    /\ forallb has_number (_line_pair_iterator hr [] []) = true
    /\ left_numbers (_line_pair_iterator hr [] []) = Zseq 1 la
    /\ right_numbers (_line_pair_iterator hr [] []) = Zseq 1 lb.
Proof.
  intros (HB & Ca & Cb).
  destruct (line_iterator_ok (S (List.length d)) d (0%Z, 0%Z) 0%Z HB
              ltac:(lia)) as (hr & E' & N1 & N2 & H).
  exists hr. split; [exact E'|].
  destruct (H [] []) as [L Z]; [repeat split; auto|].
  simpl in L, Z.
  rewrite line_pair_iterator_zipq. simpl.
  repeat split.
  - apply zipq_rows_only.
  - exact Z.
  - rewrite zipq_left_numbers, N1, Ca by exact L. reflexivity.
  - rewrite zipq_right_numbers, N2, Cb by exact L. reflexivity.
Qed.

(** [_mdiff] returns when the stack has room for the shorter sequence. *)
Lemma mdiff_returns room a b context linejunk charjunk :
  Nat.min (List.length a) (List.length b) <= room ->
  exists rows, _mdiff room a b context linejunk charjunk = Some rows.
Proof.
  intros Hr. unfold _mdiff, ndiff.
  destruct (compare_delta linejunk charjunk room a b Hr) as (d & E & D).
  rewrite E.
  destruct (pairs_of_delta d _ _ D) as (hr & E' & _).
  rewrite E'. destruct context; eexists; reflexivity.
Qed.

(** What [_mdiff] returns without context. *)
Lemma mdiff_no_context room a b linejunk charjunk rows :
  _mdiff room a b None linejunk charjunk = Some rows ->
  rows_only rows = true
  /\ forallb has_number rows = true
  /\ left_numbers rows = Zseq 1 (List.length a)
  /\ right_numbers rows = Zseq 1 (List.length b).
Proof.
  unfold _mdiff, ndiff.
  destruct (compare room linejunk charjunk a b) as [d|] eqn:E; [|discriminate].
  apply compare_returned in E.
  destruct (pairs_of_delta d _ _ E) as (hr & E' & H).
  rewrite E'. intros [= <-]. exact H.
Qed.

Lemma list_set_length {X} (l : list X) i x :
  List.length (list_set l i x) = List.length l.
Proof.
  revert i. induction l as [|y l IH]; intros i; [reflexivity|].
  destruct i; simpl; [reflexivity | now rewrite IH].
Qed.

Lemma list_set_nth {X} (l : list X) i x r d :
  i < List.length l ->
  nth r (list_set l i x) d = if r =? i then x else nth r l d.
Proof.
  revert i r. induction l as [|y l IH]; intros i r H; [simpl in H; lia|].
  destruct i, r; simpl; try reflexivity.
  apply IH. simpl in H. lia.
Qed.

Lemma read_context_ok context index cl start count :
  0 < context ->
  buffer_ok context index cl ->
  (forall t, t < count -> (start + t) mod context < index) ->
  forallb separator_or_numbered (read_context cl context start count) = true.
Proof.
  intros Hc [Hl Hb] Ht. unfold read_context.
  apply forallb_forall. intros x Hx. apply in_map_iff in Hx.
  destruct Hx as (t & <- & Hin). apply in_seq in Hin.
  assert (Hn : has_number (nth ((start + t) mod context) cl Unset) = true).
  { apply Hb; [apply Nat.mod_upper_bound; lia | apply Ht; lia]. }
  destruct (nth ((start + t) mod context) cl Unset); try discriminate.
  exact Hn.
Qed.

Lemma after_write_ok context ltw :
  context_state_ok context (after_write context ltw).
Proof.
  unfold after_write. destruct (ltw =? 0); [|exact I].
  split; [apply repeat_length | intros; lia].
Qed.

(** The context loop yields separators and pairs it was given. *)
Lemma context_loop_ok context rows :
  0 < context ->
  forallb has_number rows = true ->
  forall st,
    context_state_ok context st ->
    forallb separator_or_numbered (context_loop context rows st) = true.
Proof.
  intros Hc. induction rows as [|x rows IH]; intros HP st Hst; [reflexivity|].
  simpl in HP. apply andb_true_iff in HP. destruct HP as [Hx HP].
  cbn [context_loop].
  destruct st as [index cl|ltw].
  - destruct Hst as [Hl Hb].
    assert (Hi : index mod context < context)
      by (apply Nat.mod_upper_bound; lia).
    assert (Hbuf : buffer_ok context (index + 1)
                     (list_set cl (index mod context) x)).
    { split; [now rewrite list_set_length|].
      intros r Hr Hr'. rewrite list_set_nth by lia.
      destruct (Nat.eqb_spec r (index mod context)) as [->|Hne]; [exact Hx|].
      apply Hb; [exact Hr|].
      destruct (Nat.lt_ge_cases index context) as [Hlt|Hge]; [|lia].
      rewrite Nat.mod_small in Hne by exact Hlt. lia. }
    destruct (match x with Row _ _ flag => flag | _ => false end).
    + rewrite forallb_app. apply andb_true_iff. split.
      * destruct (Nat.ltb_spec context (index + 1)).
        -- cbn [forallb separator_or_numbered]. 
           apply read_context_ok with (index := index + 1); try assumption.
           intros t _.
           pose proof (Nat.mod_upper_bound (index + 1 + t) context ltac:(lia)). lia.
        -- apply read_context_ok with (index := index + 1); try assumption.
           intros t Ht. simpl. rewrite Nat.mod_small; lia.
      * apply IH; [exact HP | apply after_write_ok].
    + apply IH; [exact HP | exact Hbuf].
  - cbn [forallb]. apply andb_true_iff. split.
    + destruct x; try discriminate. exact Hx.
    + apply IH; [exact HP | apply after_write_ok].
Qed.

(** What [_mdiff] returns with context: separators and pairs with a line
    number. *)
Lemma mdiff_context room a b numlines linejunk charjunk rows :
  _mdiff room a b (Some numlines) linejunk charjunk = Some rows ->
  forallb separator_or_numbered rows = true.
Proof.
  unfold _mdiff, ndiff.
  destruct (compare room linejunk charjunk a b) as [d|] eqn:E; [|discriminate].
  apply compare_returned in E.
  destruct (pairs_of_delta d _ _ E) as (hr & E' & _ & H & _).
  rewrite E'. intros [= <-].
  apply context_loop_ok; [lia | exact H|].
  split; [apply repeat_length | intros; lia].
Qed.

Lemma Zseq_length start n : List.length (Zseq start n) = n.
Proof.
  revert start. induction n as [|n IH]; intros start; [reflexivity|].
  simpl. now rewrite IH.
Qed.

(** ** [CodeDiff.getDiffDetails] *)

(** [getDiffDetails] returns when the stack has room for the shorter of
    the two files. *)
Lemma getDiffDetails_returns room self context numlines tabSize :
  Nat.min (List.length (fromlines self)) (List.length (tolines self)) <= room ->
  exists diffs,
    snd (getDiffDetails room self context numlines tabSize) = Some diffs.
Proof.
  intros Hr. unfold getDiffDetails. cbn [snd].
  apply mdiff_returns. now rewrite !length_map.
Qed.

(** C6, as amended.  With context mode disabled every element of the list
    [getDiffDetails] returns is a pair with a line number on at least one
    side; with context mode enabled every element is such a pair or the
    separator [(None, None, None)].  The list is returned whenever the
    stack has room for the shorter of the two files. *)
Theorem getDiffDetails_line_numbers room self context numlines tabSize :
  (Nat.min (List.length (fromlines self)) (List.length (tolines self)) <= room ->
   exists diffs,
     snd (getDiffDetails room self context numlines tabSize) = Some diffs)
  /\ (forall diffs,
        snd (getDiffDetails room self context numlines tabSize) = Some diffs ->
        forallb (if context then separator_or_numbered else has_number) diffs
        = true).
Proof.
  split; [apply getDiffDetails_returns|].
  unfold getDiffDetails. cbn [snd]. intros diffs H. destruct context.
  - eapply mdiff_context; eassumption.
  - eapply mdiff_no_context; eassumption.
Qed.

(** ** Further properties of [expand_tabs] *)

Lemma append_empty_r s : s +++ EmptyString = s.
Proof. induction s as [|c s IH]; simpl; [reflexivity | now rewrite IH]. Qed.

Lemma append_assoc_r s t u : (s +++ t) +++ u = s +++ t +++ u.
Proof. induction s as [|c s IH]; simpl; [reflexivity | now rewrite IH]. Qed.

Lemma length_append s t :
  String.length (s +++ t) = String.length s + String.length t.
Proof. induction s as [|c s IH]; simpl; [reflexivity | now rewrite IH]. Qed.

Lemma length_repeat_char c n : String.length (Py.repeat_char c n) = n.
Proof. induction n as [|n IH]; simpl; [reflexivity | now rewrite IH]. Qed.

Lemma length_replace_char old new s :
  String.length (Py.replace_char old new s) = String.length s.
Proof. induction s as [|c s IH]; simpl; [reflexivity | now rewrite IH]. Qed.

Lemma has_char_app c s t : has_char c (s +++ t) = has_char c s || has_char c t.
Proof.
  induction s as [|x s IH]; simpl; [reflexivity|].
  now rewrite IH, orb_assoc.
Qed.

Lemma has_char_repeat c x n :
  Ascii.eqb x c = false -> has_char c (Py.repeat_char x n) = false.
Proof. intros H. induction n as [|n IH]; simpl; [reflexivity | now rewrite H, IH]. Qed.

Lemma has_char_replace_old old new s :
  Ascii.eqb new old = false ->
  has_char old (Py.replace_char old new s) = false.
Proof.
  intros H. induction s as [|x s IH]; simpl; [reflexivity|].
  rewrite IH, orb_false_r.
  destruct (Ascii.eqb_spec x old) as [->|Hne]; [exact H|].
  now apply Ascii.eqb_neq.
Qed.

Lemma has_char_replace_other c old new s :
  Ascii.eqb old c = false -> Ascii.eqb new c = false ->
  has_char c (Py.replace_char old new s) = has_char c s.
Proof.
  intros Ho Hn. induction s as [|x s IH]; simpl; [reflexivity|].
  rewrite IH. f_equal.
  destruct (Ascii.eqb_spec x old) as [->|Hne]; [now rewrite Hn, Ho | reflexivity].
Qed.

Lemma has_char_rstrip_char c d s :
  has_char c s = false -> has_char c (Py.rstrip_char d s) = false.
Proof.
  induction s as [|x s IH]; simpl; [reflexivity|].
  intros H. apply orb_false_iff in H. destruct H as [Hx Hs].
  specialize (IH Hs).
  destruct (Py.rstrip_char d s) as [|y r].
  - destruct (Ascii.eqb x d); simpl; [reflexivity | now rewrite Hx].
  - cbn [has_char] in *. now rewrite Hx, IH.
Qed.

Lemma ends_with_rstrip_char c s : ends_with c (Py.rstrip_char c s) = false.
Proof.
  induction s as [|x s IH]; simpl; [reflexivity|].
  destruct (Py.rstrip_char c s) as [|y r].
  - destruct (Ascii.eqb x c) eqn:E; simpl; [reflexivity | exact E].
  - exact IH.
Qed.

Lemma has_char_ends_with c s : has_char c s = false -> ends_with c s = false.
Proof.
  induction s as [|x s IH]; simpl; [reflexivity|].
  intros H. apply orb_false_iff in H. destruct H as [Hx Hs].
  destruct s; [exact Hx | now apply IH].
Qed.

Lemma has_char_expandtabs_from c tabsize s :
  Ascii.eqb Py.SP c = false ->
  forall pos,
    has_char c s = false ->
    has_char c (Py.expandtabs_from tabsize pos s) = false.
Proof.
  intros Hsp. induction s as [|x s IH]; intros pos H; [reflexivity|].
  simpl in H. apply orb_false_iff in H. destruct H as [Hx Hs].
  cbn [Py.expandtabs_from].
  destruct (Ascii.eqb x Py.TAB).
  - destruct (0 <? tabsize)%Z; [|now apply IH].
    rewrite has_char_app, has_char_repeat by exact Hsp. now apply IH.
  - cbn [has_char]. rewrite Hx. now apply IH.
Qed.

(** X4.  The line [expand_tabs] returns never ends with a line feed and
    holds no NUL character, whatever the line and the tab size. *)
Theorem expand_tabs_no_final_lf_no_nul tabSize line :
  ends_with Py.LF (expand_tabs tabSize line) = false
  /\ has_char Py.NUL (expand_tabs tabSize line) = false.
Proof.
  unfold expand_tabs. split.
  - apply ends_with_rstrip_char.
  - apply has_char_rstrip_char. now apply has_char_replace_old.
Qed.

Lemma expand_core_nonpositive tabSize line :
  (tabSize <= 0)%Z ->
  forall pos,
    expand_core tabSize pos line
    = Py.replace_char Py.NUL Py.SP (strip_tabs line).
Proof.
  intros Hts. unfold expand_core.
  induction line as [|c line IH]; intros pos; [reflexivity|].
  cbn [Py.replace_char strip_tabs].
  destruct (Ascii.eqb_spec c Py.SP) as [->|Hsp].
  - cbn. f_equal. apply IH.
  - destruct (Ascii.eqb_spec c Py.TAB) as [->|Htab].
    + cbn [Py.expandtabs_from]. cbn [Ascii.eqb Py.TAB Bool.eqb].
      cbn. destruct (0 <? tabSize)%Z eqn:E; [lia|]. apply IH.
    + cbn [Py.expandtabs_from Py.replace_char].
      apply Ascii.eqb_neq in Htab. rewrite Htab.
      cbn [Py.replace_char]. apply Ascii.eqb_neq in Hsp. rewrite Hsp.
      f_equal. apply IH.
Qed.

(** X5.  With a tab size of zero or less the tab characters are removed:
    the result is the line without its tabs, its NUL characters turned
    into spaces, and the line feeds at its end stripped. *)
Theorem expand_tabs_nonpositive_tab_size tabSize line :
  (tabSize <= 0)%Z ->
  expand_tabs tabSize line
  = Py.rstrip_char Py.LF (Py.replace_char Py.NUL Py.SP (strip_tabs line)).
Proof.
  intros H. rewrite expand_tabs_core. f_equal.
  now apply expand_core_nonpositive.
Qed.

Lemma expand_tabs_nonpositive_tab_size_witness :
  expand_tabs 0 (String "a" (String Py.TAB (String "b" (String Py.LF EmptyString))))
  = Py.rstrip_char Py.LF
      (Py.replace_char Py.NUL Py.SP
         (strip_tabs (String "a" (String Py.TAB (String "b" (String Py.LF EmptyString)))))).
Proof. apply expand_tabs_nonpositive_tab_size. lia. Defined.

Lemma expandtabs_from_final_tab tabsize p :
  (0 < tabsize)%Z ->
  has_char Py.LF p = false -> has_char Py.CR p = false ->
  forall pos,
    Py.expandtabs_from tabsize pos (p +++ String Py.TAB EmptyString)
    = Py.expandtabs_from tabsize pos p
      +++ Py.repeat_char Py.SP
            (Z.to_nat
               (tabsize
                - Z.of_nat (pos + String.length (Py.expandtabs_from tabsize pos p))
                  mod tabsize)).
Proof.
  intros Hts. induction p as [|c p IH]; intros Hlf Hcr pos.
  - cbn. pose proof Hts as Hts'. apply Z.ltb_lt in Hts'.
    rewrite Hts', Nat.add_0_r, append_empty_r. reflexivity.
  - simpl in Hlf, Hcr.
    apply orb_false_iff in Hlf. destruct Hlf as [Hc1 Hlf].
    apply orb_false_iff in Hcr. destruct Hcr as [Hc2 Hcr].
    cbn [String.append Py.expandtabs_from].
    destruct (Ascii.eqb c Py.TAB).
    + pose proof Hts as Hts'. apply Z.ltb_lt in Hts'. rewrite Hts'.
      rewrite IH by assumption.
      rewrite append_assoc_r, length_append, length_repeat_char.
      now rewrite Nat.add_assoc.
    + rewrite Hc1, Hc2. cbn [orb String.append String.length].
      rewrite IH by assumption.
      now rewrite Nat.add_succ_r.
Qed.

Lemma expand_core_final_tab tabSize p :
  (0 < tabSize)%Z ->
  has_char Py.LF p = false -> has_char Py.CR p = false ->
  expand_core tabSize 0 (p +++ String Py.TAB EmptyString)
  = expand_core tabSize 0 p
    +++ Py.repeat_char Py.TAB
          (Z.to_nat
             (tabSize
              - Z.of_nat (String.length (expand_core tabSize 0 p)) mod tabSize)).
Proof.
  intros Hts Hlf Hcr. unfold expand_core.
  rewrite replace_char_app. cbn [Py.replace_char].
  change (Ascii.eqb Py.TAB Py.SP) with false. cbn iota.
  rewrite expandtabs_from_final_tab; try assumption.
  - rewrite !replace_char_app, !replace_char_repeat.
    rewrite !length_replace_char. reflexivity.
  - now rewrite has_char_replace_other.
  - now rewrite has_char_replace_other.
Qed.

Lemma has_char_expand_core_lf tabSize pos line :
  has_char Py.LF line = false ->
  has_char Py.LF (expand_core tabSize pos line) = false.
Proof.
  intros H. unfold expand_core.
  rewrite !has_char_replace_other by reflexivity.
  apply has_char_expandtabs_from; [reflexivity|].
  now rewrite has_char_replace_other.
Qed.

(** X6.  A tab moves to the next tab stop.  With a positive tab size, on
    a line with no line feed and no carriage return, a tab character at the
    end is replaced by one to [tabSize] tab characters, which bring the
    length of the line to a multiple of [tabSize]. *)
Theorem expand_tabs_tab_stop tabSize p :
  (0 < tabSize)%Z ->
  has_char Py.LF p = false -> has_char Py.CR p = false ->
  exists k,
    1 <= k <= Z.to_nat tabSize
    /\ expand_tabs tabSize (p +++ String Py.TAB EmptyString)
       = expand_tabs tabSize p +++ Py.repeat_char Py.TAB k
    /\ (Z.of_nat (String.length (expand_tabs tabSize p) + k) mod tabSize = 0)%Z.
Proof.
  intros Hts Hlf Hcr.
  pose proof (has_char_expand_core_lf tabSize 0 p Hlf) as Hp.
  assert (Ep : expand_tabs tabSize p = expand_core tabSize 0 p).
  { rewrite expand_tabs_core. apply rstrip_char_id.
    now apply has_char_ends_with. }
  set (x := Z.of_nat (String.length (expand_core tabSize 0 p))).
  assert (Hm : (0 <= x mod tabSize < tabSize)%Z) by (apply Z.mod_pos_bound; lia).
  exists (Z.to_nat (tabSize - x mod tabSize)).
  split; [lia|]. split.
  - rewrite Ep, expand_tabs_core, expand_core_final_tab by assumption.
    apply rstrip_char_id. apply has_char_ends_with.
    rewrite has_char_app, Hp. apply has_char_repeat. reflexivity.
  - rewrite Ep, Nat2Z.inj_add, Z2Nat.id by lia. fold x.
    replace (x + (tabSize - x mod tabSize))%Z
      with ((x / tabSize + 1) * tabSize)%Z.
    + apply Z.mod_mul. lia.
    + pose proof (Z.div_mod x tabSize ltac:(lia)). lia.
Qed.

Lemma expand_tabs_tab_stop_witness :
  exists k,
    1 <= k <= Z.to_nat 4
    /\ expand_tabs 4 ("ab c" +++ String Py.TAB EmptyString)
       = expand_tabs 4 "ab c" +++ Py.repeat_char Py.TAB k
    /\ (Z.of_nat (String.length (expand_tabs 4 "ab c") + k) mod 4 = 0)%Z.
Proof. apply expand_tabs_tab_stop; [lia | reflexivity | reflexivity]. Defined.

(** ** Further properties of [CodeDiff.__init__] *)

(** X7.  The constructor exits ([sys.exit(1)]) exactly when a side has no
    text given and its file cannot be read; a side whose text is given
    never reads its file. *)
Theorem init_exits_iff_unreadable fs fromfile_ tofile_ fromtxt totxt name :
  __init__ fs fromfile_ tofile_ fromtxt totxt name = None
  <-> (fromtxt = None /\ fs fromfile_ = None)
      \/ (totxt = None /\ fs tofile_ = None).
Proof.
  unfold __init__, init_lines.
  destruct fromtxt as [ft|], totxt as [tt|];
    destruct (fs fromfile_), (fs tofile_); split; intros H;
    try discriminate; try (now left); try (now right);
    destruct H as [[H1 H2]|[H1 H2]]; congruence.
Qed.

Lemma lf_only_last_cons c s :
  Ascii.eqb c Py.LF = false -> lf_only_last (String c s) = lf_only_last s.
Proof. intros H. destruct s; simpl; [reflexivity | now rewrite H]. Qed.

Lemma lf_only_last_repeat c n s :
  Ascii.eqb c Py.LF = false ->
  lf_only_last (Py.repeat_char c n +++ s) = lf_only_last s.
Proof.
  intros H. induction n as [|n IH]; [reflexivity|].
  cbn [Py.repeat_char String.append]. now rewrite lf_only_last_cons.
Qed.

Lemma readlines_lf_only_last s :
  Forall (fun l => lf_only_last l = true) (Py.readlines s).
Proof.
  induction s as [|c s IH]; cbn [Py.readlines]; [constructor|].
  destruct (Ascii.eqb c Py.LF) eqn:E.
  - constructor; [reflexivity | exact IH].
  - destruct (Py.readlines s) as [|l ls].
    + constructor; [reflexivity | constructor].
    + inversion IH; subst. constructor; [|assumption].
      now rewrite lf_only_last_cons.
Qed.

Lemma split_char_free c s :
  Forall (fun l => has_char c l = false) (Py.split_char c s).
Proof.
  induction s as [|x s IH]; cbn [Py.split_char].
  - constructor; [reflexivity | constructor].
  - destruct (Ascii.eqb x c) eqn:E.
    + constructor; [reflexivity | exact IH].
    + destruct (Py.split_char c s) as [|p ps].
      * constructor; [simpl; now rewrite E | constructor].
      * inversion IH; subst. constructor; [|assumption].
        simpl. now rewrite E.
Qed.

Lemma lf_only_last_add_lf s :
  has_char Py.LF s = false -> lf_only_last (add_lf s) = true.
Proof.
  unfold add_lf. induction s as [|c s IH]; [reflexivity|].
  simpl. intros H. apply orb_false_iff in H. destruct H as [Hc Hs].
  change (lf_only_last (String c (s +++ String Py.LF EmptyString)) = true).
  rewrite lf_only_last_cons by exact Hc. now apply IH.
Qed.

Lemma init_lines_lf_only_last fs file txt ls :
  init_lines fs file txt = Some ls ->
  Forall (fun l => lf_only_last l = true) ls.
Proof.
  unfold init_lines. destruct txt as [t|].
  - intros H. injection H as <-.
    apply Forall_map. eapply Forall_impl; [|apply split_char_free].
    intros l Hl. now apply lf_only_last_add_lf.
  - destruct (fs file); [|discriminate]. intros H. injection H as <-.
    apply readlines_lf_only_last.
Qed.

Lemma expand_core_lf_only_last tabSize line :
  lf_only_last line = true ->
  forall pos, lf_only_last (expand_core tabSize pos line) = true.
Proof.
  unfold expand_core.
  induction line as [|c line IH]; intros H pos; [reflexivity|].
  cbn [Py.replace_char].
  destruct (Ascii.eqb_spec c Py.SP) as [->|Hsp].
  - cbn. rewrite lf_only_last_cons in H by reflexivity.
    change (lf_only_last (String " " (expand_core tabSize (S pos) line)) = true).
    rewrite lf_only_last_cons by reflexivity. now apply IH.
  - destruct (Ascii.eqb_spec c Py.TAB) as [->|Htab].
    + rewrite lf_only_last_cons in H by reflexivity.
      cbn [Py.expandtabs_from]. change (Ascii.eqb Py.TAB Py.TAB) with true.
      cbn iota. destruct (0 <? tabSize)%Z; [|now apply IH].
      rewrite !replace_char_app, !replace_char_repeat.
      cbn. rewrite lf_only_last_repeat by reflexivity. now apply IH.
    + cbn [Py.expandtabs_from Py.replace_char].
      apply Ascii.eqb_neq in Htab. rewrite Htab.
      apply Ascii.eqb_neq in Hsp.
      cbn [Py.replace_char]. rewrite Hsp.
      destruct (Ascii.eqb_spec c Py.LF) as [->|Hlf].
      * destruct line; [reflexivity | discriminate H].
      * apply Ascii.eqb_neq in Hlf.
        rewrite lf_only_last_cons in H by exact Hlf.
        rewrite lf_only_last_cons.
        -- now apply IH.
        -- destruct (Ascii.eqb c Py.NUL); [reflexivity | exact Hlf].
Qed.

Lemma rstrip_lf_only_last s :
  lf_only_last s = true -> has_char Py.LF (Py.rstrip_char Py.LF s) = false.
Proof.
  induction s as [|c s IH]; [reflexivity|].
  intros H. destruct (Ascii.eqb_spec c Py.LF) as [->|Hlf].
  - destruct s; [reflexivity | discriminate H].
  - apply Ascii.eqb_neq in Hlf. rewrite lf_only_last_cons in H by exact Hlf.
    specialize (IH H). cbn [Py.rstrip_char].
    destruct (Py.rstrip_char Py.LF s) as [|y r].
    + rewrite Hlf. simpl. now rewrite Hlf.
    + cbn [has_char] in *. now rewrite Hlf, IH.
Qed.

(** X8.  The lines that are aligned hold no line feed.  After
    [getDiffDetails] on an object the constructor has built, from files or
    from text, no line of [fromlines] and [tolines] contains a line feed,
    and there are as many lines as before. *)
Theorem alignment_lines_have_no_line_feed
    fs fromfile_ tofile_ fromtxt totxt name self room context numlines tabSize :
  __init__ fs fromfile_ tofile_ fromtxt totxt name = Some self ->
  let self' := fst (getDiffDetails room self context numlines tabSize) in
  Forall (fun l => has_char Py.LF l = false) (fromlines self')
  /\ Forall (fun l => has_char Py.LF l = false) (tolines self')
  /\ List.length (fromlines self') = List.length (fromlines self)
  /\ List.length (tolines self') = List.length (tolines self).
Proof.
  unfold __init__. intros H.
  destruct (init_lines fs fromfile_ fromtxt) as [fl|] eqn:Ef; [|discriminate].
  destruct (init_lines fs tofile_ totxt) as [tl|] eqn:Et; [|discriminate].
  injection H as <-. cbn.
  assert (K : forall ls, Forall (fun l => lf_only_last l = true) ls ->
                         Forall (fun l => has_char Py.LF l = false)
                           (map (expand_tabs tabSize) ls)).
  { intros ls Hls. apply Forall_map. eapply Forall_impl; [|exact Hls].
    intros l Hl. cbv beta in *. rewrite expand_tabs_core.
    apply rstrip_lf_only_last. now apply expand_core_lf_only_last. }
  repeat split.
  - apply K. eapply init_lines_lf_only_last; eassumption.
  - apply K. eapply init_lines_lf_only_last; eassumption.
  - apply length_map.
  - apply length_map.
Qed.

Lemma alignment_lines_have_no_line_feed_witness :
  exists self,
    __init__ (two_files "f" (String "a" (String Py.LF "b")) "t" EmptyString)
      "f" "t" None (Some (String "c" (String Py.LF "d"))) None = Some self
    /\ Forall (fun l => has_char Py.LF l = false)
         (fromlines (fst (getDiffDetails 400 self false 5 8)))
    /\ Forall (fun l => has_char Py.LF l = false)
         (tolines (fst (getDiffDetails 400 self false 5 8))).
Proof.
  eexists. split; [reflexivity|].
  split;
    eapply (alignment_lines_have_no_line_feed
              (two_files "f" (String "a" (String Py.LF "b")) "t" EmptyString)
              "f" "t" None (Some (String "c" (String Py.LF "d"))) None);
    reflexivity.
Defined.

(** ** The formatter on a sequence with a separator *)

Lemma lineno_loop_not_rows isLeft diffs :
  rows_only diffs = false ->
  forall acc, lineno_loop isLeft diffs acc = Raise TypeError.
Proof.
  induction diffs as [|x diffs IH]; intros H acc; [discriminate|].
  destruct x as [[ln lt] [rn rt] change| |]; try reflexivity.
  cbn [lineno_loop]. apply IH. exact H.
Qed.

Lemma wrap_loop_not_rows isLeft source diffs :
  rows_only diffs = false ->
  snd (wrap_loop isLeft source diffs) = Some TypeError.
Proof.
  induction diffs as [|x diffs IH]; intros H; [discriminate|].
  destruct x as [l r change| |]; try reflexivity.
  cbn [wrap_loop]. specialize (IH H).
  destruct (wrap_loop isLeft source diffs) as [out e].
  destruct (wrap_pair isLeft source l r change); exact IH.
Qed.

Lemma wrap_loop_separator isLeft source pre post :
  rows_only pre = true ->
  wrap_loop isLeft source (pre ++ Separator :: post)
  = (flat_map (yielded isLeft source) pre, Some TypeError).
Proof.
  induction pre as [|x pre IH]; intros H; [reflexivity|].
  destruct x as [l r change| |]; try discriminate.
  cbn [app wrap_loop flat_map yielded]. rewrite (IH H).
  destruct (wrap_pair isLeft source l r change); reflexivity.
Qed.

(** X9.  A separator stops the rendering.  When the sequence holds a
    context separator after some pairs, [getDiffLineNos] raises a
    [TypeError], and [_wrap_code] yields the opening markup and the content
    of the pairs before the separator, then raises a [TypeError]: the pairs
    after the separator are not rendered and the closing markup is not
    yielded. *)
Theorem separator_stops_rendering isLeft source pre post :
  rows_only pre = true ->
  getDiffLineNos isLeft (pre ++ Separator :: post) = Raise TypeError
  /\ _wrap_code isLeft (pre ++ Separator :: post) source
     = (pre_open :: flat_map (yielded isLeft source) pre, Some TypeError).
Proof.
  intros H. split.
  - apply lineno_loop_not_rows.
    rewrite rows_only_app. cbn. apply andb_false_r.
  - unfold _wrap_code. now rewrite wrap_loop_separator.
Qed.

Lemma separator_stops_rendering_witness :
  getDiffLineNos true ([Row (PInt 1, "a") (PInt 1, "a") false]
                         ++ Separator :: [Row (PInt 9, "b") (PInt 9, "c") true])
  = Raise TypeError
  /\ _wrap_code true ([Row (PInt 1, "a") (PInt 1, "a") false]
                        ++ Separator :: [Row (PInt 9, "b") (PInt 9, "c") true])
       [(1%Z, "A")]
     = (pre_open
          :: flat_map (yielded true [(1%Z, "A")])
               [Row (PInt 1, "a") (PInt 1, "a") false],
        Some TypeError).
Proof. apply separator_stops_rendering. reflexivity. Defined.

(** ** [_wrap_tablelinenos] *)

Lemma join_app x y : Py.join (x ++ y) = Py.join x +++ Py.join y.
Proof.
  induction x as [|s x IH]; [reflexivity|].
  cbn [app Py.join fold_right]. fold (Py.join (x ++ y)). fold (Py.join x).
  now rewrite IH, append_assoc_r.
Qed.

(** X10.  The table of a pane is all or nothing.  On a sequence of pairs
    [_wrap_tablelinenos] over [wrap] yields three values: the cell of the
    line numbers with one marker per pair, the code cell with the content
    lines between the opening and the closing markup, and the end of the
    table.  On a sequence with an element that is not a pair it raises a
    [TypeError] and yields nothing. *)
Theorem wrap_tablelinenos_all_or_nothing cssclass noclasses isLeft diffs source :
  if rows_only diffs then
    exists linenos,
      getDiffLineNos isLeft diffs = Ok linenos
      /\ List.length linenos = List.length diffs
      /\ _wrap_tablelinenos cssclass noclasses isLeft diffs
           (wrap isLeft diffs source)
         = ([(0%Z, linenos_cell cssclass noclasses
                     (Py.join (map marker_text linenos)));
             (0%Z, "<pre>"
                   +++ Py.join (map snd (flat_map (yielded isLeft source) diffs))
                   +++ String Py.LF "</pre>");
             (0%Z, "</td></tr></table>")], None)
  else
    _wrap_tablelinenos cssclass noclasses isLeft diffs (wrap isLeft diffs source)
    = ([], Some TypeError).
Proof.
  destruct (rows_only diffs) eqn:R.
  - destruct (lineno_loop_rows isLeft diffs R []) as (linenos & E & L).
    exists linenos. split; [exact E|]. split; [exact L|].
    unfold _wrap_tablelinenos, wrap. rewrite wrap_code_rows by exact R.
    cbn [snd fst]. unfold getDiffLineNos. rewrite E.
    do 2 f_equal. f_equal. f_equal.
    cbn [map Py.join fold_right snd pre_open].
    rewrite map_app.
    change (fold_right String.append EmptyString) with Py.join.
    rewrite join_app. reflexivity.
  - unfold _wrap_tablelinenos, wrap, _wrap_code.
    pose proof (wrap_loop_not_rows isLeft source diffs R) as W.
    destruct (wrap_loop isLeft source diffs) as [out e].
    cbn [snd] in *. now rewrite W.
Qed.

(** ** The recursion of [_fancy_replace] on a long run of equal lines *)

Lemma b2j_fold_repeat (x : string) m :
  forall s acc,
    fold_left (b2j_add String.eqb) (combine (seq s m) (repeat x m)) [(x, acc)]
    = [(x, acc ++ seq s m)].
Proof.
  induction m as [|m IH]; intros s acc; cbn [seq repeat combine fold_left].
  - now rewrite app_nil_r.
  - cbn [b2j_add dict_get]. rewrite String.eqb_refl.
    cbn [dict_set]. rewrite String.eqb_refl.
    rewrite IH, <- app_assoc. reflexivity.
Qed.

(** With 200 lines or more, all equal, the line is popular: [__chain_b]
    purges it and the index [b2j] is empty. *)
Lemma b2j_repeat (x : string) n :
  200 <= n -> b2j String.eqb None (repeat x n) = [].
Proof.
  intros Hn. unfold b2j, __chain_b, enumerate.
  rewrite repeat_length.
  destruct n as [|n]; [lia|].
  cbn [seq repeat combine fold_left b2j_add dict_get app].
  rewrite b2j_fold_repeat.
  cbv zeta. cbn [filter in_set existsb negb fst snd map].
  unfold autojunk. cbn [andb].
  destruct (Nat.leb_spec 200 (S n)) as [_|C]; [|lia].
  rewrite length_app, length_seq. cbn [List.length Nat.add].
  assert (Hp : (S n / 100 + 1 <? S n) = true).
  { apply Nat.ltb_lt.
    pose proof (Nat.Div0.mul_div_le (S n) 100). lia. }
  rewrite Hp. cbn [map fst filter in_set existsb].
  rewrite String.eqb_refl. reflexivity.
Qed.

Lemma flm_outer_no_index (a b : list string) :
  b2j String.eqb None b = [] ->
  forall irange blo bhi j2len best,
    flm_outer String.eqb EmptyString None a b irange blo bhi j2len best = best.
Proof.
  intros H. induction irange as [|i irange IH]; intros blo bhi j2len best;
    [reflexivity|].
  cbn [flm_outer]. rewrite H. cbn [dict_get flm_inner]. apply IH.
Qed.

(** With an empty index and first lines that differ no block is found. *)
Lemma flm_no_match (a b : list string) ahi bhi :
  b2j String.eqb None b = [] ->
  String.eqb (nth 0 a EmptyString) (nth 0 b EmptyString) = false ->
  find_longest_match String.eqb EmptyString None a b 0 ahi 0 bhi = (0, 0, 0).
Proof.
  intros H Hd. unfold find_longest_match.
  rewrite flm_outer_no_index by exact H.
  cbn [extend_down].
  assert (U : forall junk gap,
             extend_up String.eqb EmptyString None a b junk ahi bhi 0 0 0 gap
             = (0, 0, 0)).
  { intros junk [|gap]; [reflexivity|].
    cbn [extend_up Nat.add]. unfold a_, b_. rewrite Hd.
    now rewrite andb_false_r. }
  rewrite U. cbn [extend_down]. apply U.
Qed.

Lemma opcodes_one_replace (a b : list string) :
  b2j String.eqb None b = [] ->
  String.eqb (nth 0 a EmptyString) (nth 0 b EmptyString) = false ->
  a <> [] -> b <> [] ->
  get_opcodes String.eqb EmptyString None a b
  = Some [(Replace, 0, List.length a, 0, List.length b)].
Proof.
  intros H Hd Ha Hb. unfold get_opcodes, get_matching_blocks.
  rewrite Nat.add_1_r. cbn [matching_loop].
  rewrite flm_no_match by assumption.
  cbn [Nat.eqb matching_loop sort]. unfold collapse.
  cbn [fold_left Nat.eqb app opcodes_step snd].
  destruct a as [|x a]; [contradiction|].
  destruct b as [|y b]; [contradiction|].
  reflexivity.
Qed.

(** ** The search of [_fancy_replace] among equal lines *)

Lemma search_step_identical charjunk a b j i st e :
  String.eqb (nth i a EmptyString) (nth j b EmptyString) = true ->
  s_eq st = Some e ->
  search_step charjunk a b j (Some st) i = Some st.
Proof.
  intros H E. unfold search_step. now rewrite H, E.
Qed.

Lemma search_step_unlike charjunk a b j i st :
  nth i a EmptyString = "p" -> nth j b EmptyString = "x" ->
  s_best st = None ->
  search_step charjunk a b j (Some st) i = Some st.
Proof.
  intros Hi Hj E. unfold search_step, best_ratio.
  rewrite Hi, Hj, E. reflexivity.
Qed.

(** The lines of [a] from [alo] and of [b] from [blo], [m] of each, are
    all the line ["x"]. *)
Lemma search_row_harmless charjunk a b j st e l :
  s_best st = None -> s_eq st = Some e ->
  nth j b EmptyString = "x" ->
  Forall (fun i => nth i a EmptyString = "x" \/ nth i a EmptyString = "p") l ->
  fold_left (search_step charjunk a b j) l (Some st) = Some st.
Proof.
  intros Hb He Hj. induction 1 as [|i l Hi _ IH]; [reflexivity|].
  cbn [fold_left]. destruct Hi as [Hi|Hi].
  - rewrite (search_step_identical charjunk a b j i st e);
      [exact IH | now rewrite Hi, Hj | exact He].
  - rewrite search_step_unlike by assumption. exact IH.
Qed.

Lemma search_rows_harmless charjunk a b st e l rows :
  s_best st = None -> s_eq st = Some e ->
  Forall (fun j => nth j b EmptyString = "x") rows ->
  Forall (fun i => nth i a EmptyString = "x" \/ nth i a EmptyString = "p") l ->
  fold_left (fun st j => fold_left (search_step charjunk a b j) l st)
    rows (Some st) = Some st.
Proof.
  intros Hb He Hrows Hl. induction Hrows as [|j rows Hj _ IH]; [reflexivity|].
  cbn [fold_left].
  rewrite (search_row_harmless charjunk a b j st e l) by assumption.
  exact IH.
Qed.

Lemma search_row_unlike charjunk a b j st l :
  s_best st = None -> nth j b EmptyString = "x" ->
  Forall (fun i => nth i a EmptyString = "p") l ->
  fold_left (search_step charjunk a b j) l (Some st) = Some st.
Proof.
  intros Hb Hj. induction 1 as [|i l Hi _ IH]; [reflexivity|].
  cbn [fold_left]. rewrite search_step_unlike by assumption. exact IH.
Qed.

(** The search over the lines "p" and "x" of [a] against the lines "x" of
    [b]: no pair is close without being identical, and the identical pair
    kept is the first one met. *)
Lemma search_first_identical charjunk a b ps i0 rest j0 rows :
  Forall (fun i => nth i a EmptyString = "p") ps ->
  nth i0 a EmptyString = "x" ->
  Forall (fun i => nth i a EmptyString = "x" \/ nth i a EmptyString = "p") rest ->
  nth j0 b EmptyString = "x" ->
  Forall (fun j => nth j b EmptyString = "x") rows ->
  fold_left
    (fun st j => fold_left (search_step charjunk a b j) (ps ++ i0 :: rest) st)
    (j0 :: rows) (Some (mkSearch None None))
  = Some (mkSearch None (Some (i0, j0))).
Proof.
  intros Hps Hi0 Hrest Hj0 Hrows. cbn [fold_left].
  rewrite fold_left_app, search_row_unlike; try assumption; [|reflexivity].
  cbn [fold_left].
  assert (S0 : search_step charjunk a b j0 (Some (mkSearch None None)) i0
               = Some (mkSearch None (Some (i0, j0)))).
  { unfold search_step. rewrite Hi0, Hj0. reflexivity. }
  rewrite S0.
  rewrite (search_row_harmless charjunk a b j0 _ (i0, j0) rest);
    try assumption; try reflexivity.
  apply search_rows_harmless with (e := (i0, j0)); try assumption;
    try reflexivity.
  apply Forall_app. split.
  - eapply Forall_impl; [|exact Hps]. intros i H. now right.
  - constructor; [now left | exact Hrest].
Qed.

Lemma Forall_seq (P : nat -> Prop) s k :
  (forall i, s <= i < s + k -> P i) -> Forall P (seq s k).
Proof.
  intros H. apply Forall_forall. intros i Hi. apply in_seq in Hi. now apply H.
Qed.

Lemma search_pairs_uniform charjunk a b alo blo m m' :
  0 < m -> 0 < m' ->
  (forall i, alo <= i < alo + m -> nth i a EmptyString = "x") ->
  (forall j, blo <= j < blo + m' -> nth j b EmptyString = "x") ->
  search_pairs charjunk a alo (alo + m) b blo (blo + m')
  = Some (mkSearch None (Some (alo, blo))).
Proof.
  intros Hm Hm' Ha Hb. unfold search_pairs.
  replace (alo + m - alo) with (S (m - 1)) by lia.
  replace (blo + m' - blo) with (S (m' - 1)) by lia.
  cbn [seq].
  apply (search_first_identical charjunk a b [] alo (seq (S alo) (m - 1))
           blo (seq (S blo) (m' - 1))).
  - constructor.
  - apply Ha. lia.
  - apply Forall_seq. intros i Hi. left. apply Ha. lia.
  - apply Hb. lia.
  - apply Forall_seq. intros j Hj. apply Hb. lia.
Qed.

(** On two runs of [m] equal lines [_fancy_replace] synchronises on the
    first pair and recurses on the [m - 1] pairs left: it needs [m] levels,
    and with fewer it ends with the [RecursionError]. *)
Lemma fancy_replace_equal_lines charjunk a b fuel :
  forall alo blo m,
    fuel < m ->
    (forall i, alo <= i < alo + m -> nth i a EmptyString = "x") ->
    (forall j, blo <= j < blo + m -> nth j b EmptyString = "x") ->
    _fancy_replace charjunk fuel a alo (alo + m) b blo (blo + m) = None.
Proof.
  induction fuel as [|fuel IH]; intros alo blo m Hf Ha Hb; [reflexivity|].
  cbn [_fancy_replace].
  rewrite search_pairs_uniform by (assumption || lia).
  cbn [best_ratio s_best s_eq].
  change (Qltb (Qmake 37 50) cutoff) with true. cbn iota.
  unfold fancy_helper_of at 1. rewrite !Nat.ltb_irrefl.
  unfold fancy_helper_of.
  destruct (Nat.ltb_spec (alo + 1) (alo + m)) as [_|C]; [|lia].
  destruct (Nat.ltb_spec (blo + 1) (blo + m)) as [_|C]; [|lia].
  replace (alo + m) with (alo + 1 + (m - 1)) by lia.
  replace (blo + m) with (blo + 1 + (m - 1)) by lia.
  rewrite IH; [reflexivity | lia | |].
  - intros i Hi. apply Ha. lia.
  - intros j Hj. apply Hb. lia.
Qed.

Lemma nth_repeat_below (x d : string) i n : i < n -> nth i (repeat x n) d = x.
Proof.
  revert i. induction n as [|n IH]; intros i H; [lia|].
  destruct i; [reflexivity|]. cbn [repeat nth]. apply IH. lia.
Qed.

(** The line "p" before [n] lines "x", against [n] lines "x", [n] at least
    200: the matcher finds no block, since the line "x" is popular, and
    [_fancy_replace] is called on the whole of both sequences; it
    synchronises on the first pair of lines "x" and needs [n] levels. *)
Lemma compare_recursion_error room charjunk n :
  200 <= n -> room < n ->
  compare room None charjunk ("p" :: repeat "x" n) (repeat "x" n) = None.
Proof.
  intros Hn Hr. unfold compare.
  rewrite opcodes_one_replace.
  - cbn [fold_left compare_step List.length]. rewrite repeat_length.
    assert (F : _fancy_replace charjunk room ("p" :: repeat "x" n) 0 (S n)
                  (repeat "x" n) 0 n = None).
    { destruct room as [|room]; [reflexivity|].
      assert (E0 : seq 0 n = 0 :: seq 1 (n - 1)).
      { destruct n; [lia|]. replace (S n - 1) with n by lia. reflexivity. }
      assert (E1 : seq 0 (S n) = [0] ++ 1 :: seq 2 (n - 1)).
      { destruct n; [lia|]. replace (S n - 1) with n by lia. reflexivity. }
      cbn [_fancy_replace]. unfold search_pairs.
      rewrite ?Nat.sub_0_r. cbn [Nat.sub]. rewrite E1, E0.
      rewrite (search_first_identical charjunk ("p" :: repeat "x" n)
                 (repeat "x" n) [0] 1 (seq 2 (n - 1)) 0 (seq 1 (n - 1))).
      - cbn [best_ratio s_best s_eq].
        change (Qltb (Qmake 37 50) cutoff) with true. cbn iota.
        match goal with
        | |- context [fancy_helper_of ?f ?a (1 + 1) ?ahi ?b (0 + 1) ?bhi] =>
            assert (A : fancy_helper_of f a (1 + 1) ahi b (0 + 1) bhi = None)
        end.
        { unfold fancy_helper_of.
          destruct (Nat.ltb_spec (1 + 1) (S n)) as [_|C]; [|lia].
          destruct (Nat.ltb_spec (0 + 1) n) as [_|C]; [|lia].
          assert (K : _fancy_replace charjunk room ("p" :: repeat "x" n)
                        (1 + 1) (1 + 1 + (n - 1)) (repeat "x" n)
                        (0 + 1) (0 + 1 + (n - 1)) = None).
          { apply fancy_replace_equal_lines; [lia | |].
            - intros i Hi. destruct i as [|i]; [lia|].
              cbn [nth]. apply nth_repeat_below. lia.
            - intros j Hj. apply nth_repeat_below. lia. }
          replace (1 + 1 + (n - 1)) with (S n) in K by lia.
          replace (0 + 1 + (n - 1)) with n in K by lia.
          exact K. }
        rewrite A.
        now destruct (fancy_helper_of (_fancy_replace charjunk room)
                        ("p" :: repeat "x" n) 0 1 (repeat "x" n) 0 0).
      - constructor; [reflexivity | constructor].
      - cbn [nth]. apply nth_repeat_below. lia.
      - apply Forall_seq. intros i Hi. left. destruct i as [|i]; [lia|].
        cbn [nth]. apply nth_repeat_below. lia.
      - apply nth_repeat_below. lia.
      - apply Forall_seq. intros j Hj. apply nth_repeat_below. lia. }
    now rewrite F.
  - now apply b2j_repeat.
  - cbn [nth]. rewrite nth_repeat_below by lia. reflexivity.
  - discriminate.
  - destruct n; [lia | discriminate].
Qed.

Lemma expand_tabs_repeat_x tabSize n :
  map (expand_tabs tabSize) (repeat "x" n) = repeat "x" n.
Proof. now rewrite map_repeat. Qed.

Lemma getDiffDetails_on_equal_lines room n context numlines tabSize :
  200 <= n -> room < n ->
  snd (getDiffDetails room (of_lines ("p" :: repeat "x" n) (repeat "x" n))
         context numlines tabSize) = None.
Proof.
  intros Hn Hr. unfold getDiffDetails, of_lines.
  cbn [snd fromlines tolines map].
  rewrite expand_tabs_repeat_x.
  change (expand_tabs tabSize "p") with "p".
  unfold _mdiff, ndiff.
  now rewrite compare_recursion_error.
Qed.

(** C1, where the code fails.  The line "p" followed by 600 lines "x",
    against 600 lines "x": the line "x" is popular, the matcher finds no
    block, and [Differ._fancy_replace] recurses once for every pair of
    lines "x".  With room for 500 levels or fewer on the stack (the default
    recursion limit of 1000 frames leaves fewer, two frames a level)
    [getDiffDetails] ends with the [RecursionError] and returns no
    sequence, so no line of either input is paired. *)
Theorem getDiffDetails_recursion_error room :
  room <= 500 ->
  snd (getDiffDetails room
         (of_lines ("p" :: repeat "x" 600) (repeat "x" 600)) false 5 8)
  = None.
Proof. intros H. apply getDiffDetails_on_equal_lines; lia. Qed.

Lemma getDiffDetails_recursion_error_witness :
  snd (getDiffDetails 500
         (of_lines ("p" :: repeat "x" 600) (repeat "x" 600)) false 5 8)
  = None.
Proof. apply getDiffDetails_recursion_error. lia. Defined.

(** ** The pairs [_wrap_code] drops *)

(** [source[k]] raises exactly when [k] is outside [-len .. len - 1]. *)
Lemma py_subscript_raises {X} (source : list X) (k : Z) :
  match py_subscript source k with
  | Ok _ => (- Z.of_nat (List.length source) <= k < Z.of_nat (List.length source))%Z
  | Raise _ => (k < - Z.of_nat (List.length source)
                \/ Z.of_nat (List.length source) <= k)%Z
  end.
Proof.
  unfold py_subscript.
  destruct (Z.ltb_spec k 0) as [Hk|Hk].
  - destruct (Z.ltb_spec (Z.of_nat (List.length source) + k) 0) as [Hn|Hn];
      [lia|].
    destruct (nth_error source (Z.to_nat (Z.of_nat (List.length source) + k)))
      eqn:E; [lia|].
    apply nth_error_None in E. lia.
  - destruct (Z.ltb_spec k 0) as [Hn|Hn]; [lia|].
    destruct (nth_error source (Z.to_nat k)) eqn:E.
    + assert (Z.to_nat k < List.length source)
        by (apply nth_error_Some; congruence).
      lia.
    + apply nth_error_None in E. lia.
Qed.

Lemma highlighted_raises {X} (source : list (X * string)) n cls :
  match highlighted source (PInt n) cls with
  | Ok _ => (1 - Z.of_nat (List.length source) <= n
             <= Z.of_nat (List.length source))%Z
  | Raise _ => (n < 1 - Z.of_nat (List.length source)
                \/ Z.of_nat (List.length source) < n)%Z
  end.
Proof.
  unfold highlighted.
  pose proof (py_subscript_raises source (n - 1)) as H.
  destruct (py_subscript source (n - 1)) as [[i t]|e]; lia.
Qed.

(** A pair yields a content line unless it is one of the pairs of
    [dropped]. *)
Lemma yielded_unless_dropped isLeft source left_ right_ change :
  List.length (yielded isLeft source (Row left_ right_ change))
  = if dropped isLeft (List.length source) (Row left_ right_ change)
    then 0 else 1.
Proof.
  destruct left_ as [ln lt], right_ as [rn rt].
  unfold yielded, wrap_pair, dropped, int_within, le_len.
  destruct isLeft, change, ln as [n|s], rn as [m|s'];
    cbn [is_int negb andb orb fst snd];
    repeat match goal with
      | |- context [(?x <=? ?y)%Z] => destruct (Z.leb_spec x y)
      | |- context [(?x <? ?y)%Z] => destruct (Z.ltb_spec x y)
      end;
    cbn [andb orb negb];
    repeat match goal with
      | |- context [highlighted ?s (PInt ?k) ?c] =>
          let H := fresh "H" in
          pose proof (highlighted_raises s k c) as H;
          destruct (highlighted s (PInt k) c)
      | |- context [py_subscript ?s ?k] =>
          let H := fresh "H" in
          pose proof (py_subscript_raises s k) as H;
          destruct (py_subscript s k)
      end;
    cbn [List.length]; try reflexivity; exfalso; unfold srcline in *; lia.
Qed.

Lemma content_unless_dropped isLeft source diffs :
  rows_only diffs = true ->
  List.length (flat_map (yielded isLeft source) diffs)
  + List.length (filter (dropped isLeft (List.length source)) diffs)
  = List.length diffs.
Proof.
  induction diffs as [|x diffs IH]; intros H; [reflexivity|].
  simpl in H. apply andb_true_iff in H. destruct H as [Hx H].
  specialize (IH H).
  destruct x as [l r chg| |]; try discriminate.
  cbn [flat_map filter]. rewrite length_app, yielded_unless_dropped.
  destruct (dropped isLeft (List.length source) (Row l r chg)); simpl; lia.
Qed.

(** ** The pairs of [_mdiff] marked unchanged *)

Lemma make_line_real lines format_key side num_lines :
  is_real (fst (fst (_make_line lines format_key side num_lines))) = true.
Proof.
  unfold _make_line.
  destruct format_key as [key|].
  - destruct (Ascii.eqb key "?").
    + destruct (pop0 lines) as [text lines1].
      destruct (pop0 lines1) as [markers lines2]. reflexivity.
    + destruct (pop0 lines) as [l lines1]. reflexivity.
  - destruct (pop0 lines) as [l lines1]. reflexivity.
Qed.

Lemma flagged_blanks_from n :
  forallb flagged_or_real (from_queue (blanks n)) = true.
Proof.
  rewrite blanks_from_queue. destruct (n <? 0)%Z; [reflexivity|].
  induction (Z.to_nat n) as [|k IH]; [reflexivity | exact IH].
Qed.

Lemma flagged_blanks_to n :
  forallb flagged_or_real (to_queue (blanks n)) = true.
Proof.
  rewrite blanks_to_queue. destruct (n <? 0)%Z; [|reflexivity].
  induction (Z.to_nat (- n)) as [|k IH]; [reflexivity | exact IH].
Qed.

(** Every line [_line_iterator] yields is flagged as a difference or has a
    line number: only the round of a common line yields its two lines
    unflagged, and both are numbered there. *)
Lemma line_iterator_flags fuel :
  forall lines num_lines pending hr,
    _line_iterator fuel lines num_lines pending = Some hr ->
    forallb flagged_or_real (from_queue hr) = true
    /\ forallb flagged_or_real (to_queue hr) = true.
Proof.
  induction fuel as [|fuel IH]; intros lines nl pending hr H; [discriminate|].
  cbn [_line_iterator] in H.
  repeat match type of H with
    | (if ?c then _ else _) = _ => destruct c
    end;
    try discriminate H;
    repeat match type of H with
      | context [_make_line ?l ?k ?s ?n] =>
          let R := fresh "R" in
          pose proof (make_line_real l k s n) as R;
          destruct (_make_line l k s n) as [[? ?] ?]
      end;
    cbn [fst] in *;
    try (injection H as <-; split;
         [apply flagged_blanks_from | apply flagged_blanks_to]);
    match type of H with
    | yield_ _ ?r = _ =>
        let E := fresh "E" in
        destruct r as [rest|] eqn:E; [|discriminate H];
        apply IH in E; destruct E as [E1 E2];
        injection H as <-;
        cbn [from_queue to_queue flat_map app forallb flagged_or_real fst snd orb];
        fold (from_queue rest); fold (to_queue rest);
        rewrite ?E1, ?E2;
        repeat match goal with R : is_real _ = true |- _ => rewrite R; clear R end;
        split; reflexivity
    | yields _ ?r = _ =>
        let E := fresh "E" in
        destruct r as [rest|] eqn:E; [|discriminate H];
        apply IH in E; destruct E as [E1 E2];
        injection H as <-;
        rewrite !from_queue_app, !to_queue_app, !forallb_app,
          flagged_blanks_from, flagged_blanks_to;
        cbn [from_queue to_queue flat_map app forallb flagged_or_real fst snd orb andb];
        rewrite ?E1, ?E2; split; reflexivity
    end.
Qed.

Lemma zipq_unchanged_numbered F T :
  forallb flagged_or_real F = true -> forallb flagged_or_real T = true ->
  forallb unchanged_numbered (zipq F T) = true.
Proof.
  revert T. induction F as [|[f fd] F IH]; intros T HF HT; [reflexivity|].
  destruct T as [|[t td] T]; [reflexivity|].
  cbn [forallb] in HF, HT.
  apply andb_true_iff in HF. destruct HF as [Hf HF].
  apply andb_true_iff in HT. destruct HT as [Ht HT].
  cbn [zipq forallb]. rewrite (IH T HF HT), andb_true_r.
  unfold flagged_or_real in Hf, Ht. cbn [fst snd] in Hf, Ht.
  destruct fd, td; cbn in *; try reflexivity.
  now rewrite Hf, Ht.
Qed.

(** Without context, a pair [_mdiff] marks unchanged has a line number on
    both sides. *)
Lemma mdiff_unchanged_numbered room a b linejunk charjunk rows :
  _mdiff room a b None linejunk charjunk = Some rows ->
  forallb unchanged_numbered rows = true.
Proof.
  unfold _mdiff.
  destruct (ndiff room a b linejunk charjunk) as [d|]; [|discriminate].
  destruct (_line_iterator (S (List.length d)) d (0%Z, 0%Z) 0%Z) as [hr|] eqn:E;
    [|discriminate].
  intros [= <-]. rewrite line_pair_iterator_zipq. cbn [app].
  apply line_iterator_flags in E. destruct E as [E1 E2].
  now apply zipq_unchanged_numbered.
Qed.

Lemma In_Zseq n start k :
  In n (Zseq start k) -> (start <= n < start + Z.of_nat k)%Z.
Proof.
  revert start. induction k as [|k IH]; intros start H; [contradiction|].
  destruct H as [<-|H]; [lia|]. apply IH in H. lia.
Qed.

(** A sequence [_mdiff] returns without context holds no pair of
    [dropped], for a stream with a line for every line of the side. *)
Lemma mdiff_none_dropped room (a b : list string) linejunk charjunk rows
    (isLeft : bool) len :
  _mdiff room a b None linejunk charjunk = Some rows ->
  List.length (if isLeft then a else b) <= len ->
  filter (dropped isLeft len) rows = [].
Proof.
  intros H Hlen.
  pose proof (mdiff_unchanged_numbered _ _ _ _ _ _ H) as U.
  destruct (mdiff_no_context _ _ _ _ _ _ H) as (_ & N & L & R).
  assert (G : forall x, In x rows -> dropped isLeft len x = false).
  { intros x Hx.
    assert (Ux := proj1 (forallb_forall _ _) U x Hx).
    assert (Nx := proj1 (forallb_forall _ _) N x Hx).
    destruct x as [[ln lt] [rn rt] change| |]; try reflexivity.
    assert (Bl : forall n, ln = PInt n ->
                           (1 <= n <= Z.of_nat (List.length a))%Z).
    { intros n ->.
      assert (I : In n (left_numbers rows)).
      { unfold left_numbers. apply in_flat_map.
        exists (Row (PInt n, lt) (rn, rt) change). split; [exact Hx | now left]. }
      rewrite L in I. apply In_Zseq in I. lia. }
    assert (Br : forall n, rn = PInt n ->
                           (1 <= n <= Z.of_nat (List.length b))%Z).
    { intros n ->.
      assert (I : In n (right_numbers rows)).
      { unfold right_numbers. apply in_flat_map.
        exists (Row (ln, lt) (PInt n, rt) change). split; [exact Hx|].
        destruct ln; now left. }
      rewrite R in I. apply In_Zseq in I. lia. }
    unfold dropped, has_number, unchanged_numbered, is_real in *.
    destruct isLeft; cbn [fst snd] in *.
    - destruct ln as [n|s].
      + specialize (Bl n eq_refl).
        destruct (Z.ltb_spec (Z.of_nat len) n); [lia|].
        destruct (Z.ltb_spec n (1 - Z.of_nat len)); [lia|].
        now rewrite andb_false_r.
      + destruct change; cbn in *; [now rewrite Nx | discriminate].
    - destruct rn as [n|s].
      + specialize (Br n eq_refl).
        destruct (Z.ltb_spec (Z.of_nat len) n); [lia|].
        destruct (Z.ltb_spec n (1 - Z.of_nat len)); [lia|].
        now rewrite andb_false_r.
      + destruct change; cbn in *.
        * rewrite orb_false_r in Nx. now rewrite Nx.
        * rewrite andb_false_r in Ux. discriminate. }
  induction rows as [|x rows IH]; [reflexivity|].
  cbn [filter]. rewrite (G x (or_introl eq_refl)).
  clear - G. induction rows as [|y rows IH]; [reflexivity|].
  cbn [filter]. rewrite (G y (or_intror (or_introl eq_refl))).
  apply IH. intros z [<-|Hz]; apply G; [now left | right; now right].
Qed.

(** C5, as amended.  For a sequence of pairs [getDiffLineNos] returns one
    marker per pair, and [_wrap_code] yields one content line per pair but
    for the pairs it drops: a changed pair whose line number on the side
    rendered is greater than the number of lines of the highlighted
    stream, a changed pair with no line number on either side, an unchanged
    pair with no line number on the side rendered, and a pair whose line
    number is below [1 - len].  The two columns have equal length exactly
    when the sequence holds no such pair; and it holds none when it is a
    sequence [getDiffDetails] returns with context mode disabled and the
    highlighted stream has a line for every line of the file rendered. *)
Theorem linenos_and_content_lines isLeft diffs source :
  rows_only diffs = true ->
  exists markers,
    getDiffLineNos isLeft diffs = Ok markers
    /\ List.length markers = List.length diffs
    /\ snd (_wrap_code isLeft diffs source) = None
    /\ content_lines (fst (_wrap_code isLeft diffs source))
       + List.length (filter (dropped isLeft (List.length source)) diffs)
       = List.length markers
    /\ (List.length markers
        = content_lines (fst (_wrap_code isLeft diffs source))
        <-> filter (dropped isLeft (List.length source)) diffs = [])
    /\ (forall room self numlines tabSize,
          snd (getDiffDetails room self false numlines tabSize) = Some diffs ->
          List.length (if isLeft then fromlines self else tolines self)
          <= List.length source ->
          List.length markers
          = content_lines (fst (_wrap_code isLeft diffs source))).
Proof.
  intros H.
  destruct (lineno_loop_rows isLeft diffs H []) as [m [E L]].
  exists m. simpl in L.
  assert (C : content_lines (fst (_wrap_code isLeft diffs source))
              + List.length (filter (dropped isLeft (List.length source)) diffs)
              = List.length diffs).
  { rewrite wrap_code_rows by assumption. unfold content_lines.
    cbn [fst List.length]. rewrite length_app. cbn [List.length].
    pose proof (content_unless_dropped isLeft source diffs H). lia. }
  split; [exact E|]. split; [exact L|].
  split; [now rewrite wrap_code_rows|].
  split; [lia|]. split.
  - split.
    + intros Q.
      destruct (filter (dropped isLeft (List.length source)) diffs);
        [reflexivity | cbn [List.length] in C; lia].
    + intros Q. rewrite Q in C. cbn [List.length] in C. lia.
  - intros room self numlines tabSize G Hlen.
    unfold getDiffDetails in G. cbn [snd] in G.
    rewrite (mdiff_none_dropped _ _ _ _ _ _ isLeft (List.length source) G) in C.
    + cbn [List.length] in C. lia.
    + destruct isLeft; now rewrite length_map.
Qed.

Lemma linenos_and_content_lines_witness :
  exists markers,
    getDiffLineNos true
      [Row (PInt 1, "a") (PInt 1, "a") false;
       Row (PInt 2, marked "-" " ") (PInt 2, marked "+" "b") true] = Ok markers
    /\ List.length markers = 2
    /\ content_lines
         (fst (_wrap_code true
                 [Row (PInt 1, "a") (PInt 1, "a") false;
                  Row (PInt 2, marked "-" " ") (PInt 2, marked "+" "b") true]
                 [(1%Z, "a")]))
       + 1 = List.length markers.
Proof.
  destruct (linenos_and_content_lines true
              [Row (PInt 1, "a") (PInt 1, "a") false;
               Row (PInt 2, marked "-" " ") (PInt 2, marked "+" "b") true]
              [(1%Z, "a")] eq_refl)
    as (markers & E & L & _ & C & _).
  exists markers. split; [exact E|]. split; [exact L|]. exact C.
Defined.

(** ** What [getDiffDetails] returns *)

(** X1.  With context mode disabled, whatever the room on the stack, a
    list [getDiffDetails] returns is a list of pairs in which the left line
    numbers present are 1, 2, ... up to the number of lines of [fromlines]
    and the right ones 1, 2, ... up to the number of lines of [tolines], in
    this order, and in which every pair marked unchanged has a line number
    on both sides.  The list is returned whenever the stack has room for as
    many levels as the shorter file has lines. *)
Theorem getDiffDetails_covers_when_returned room self numlines tabSize :
  (Nat.min (List.length (fromlines self)) (List.length (tolines self)) <= room ->
   exists diffs,
     snd (getDiffDetails room self false numlines tabSize) = Some diffs)
  /\ (forall diffs,
        snd (getDiffDetails room self false numlines tabSize) = Some diffs ->
        rows_only diffs = true
        /\ left_numbers diffs = Zseq 1 (List.length (fromlines self))
        /\ right_numbers diffs = Zseq 1 (List.length (tolines self))
        /\ forallb unchanged_numbered diffs = true).
Proof.
  split; [apply getDiffDetails_returns|].
  unfold getDiffDetails. cbn [snd]. intros diffs H.
  destruct (mdiff_no_context _ _ _ _ _ _ H) as (R & _ & L1 & L2).
  rewrite length_map in L1, L2.
  repeat split; try assumption.
  eapply mdiff_unchanged_numbered; eassumption.
Qed.

Lemma lineno_loop_numbered isLeft diffs :
  rows_only diffs = true ->
  forallb has_number diffs = true ->
  forallb unchanged_numbered diffs = true ->
  forall acc markers,
    forallb is_some acc = true ->
    lineno_loop isLeft diffs acc = Ok markers ->
    forallb is_some markers = true.
Proof.
  induction diffs as [|x diffs IH]; intros R N U acc markers Hacc H.
  - injection H as <-. exact Hacc.
  - cbn [rows_only forallb] in R, N, U.
    apply andb_true_iff in R. destruct R as [_ R].
    apply andb_true_iff in N. destruct N as [Nx N].
    apply andb_true_iff in U. destruct U as [Ux U].
    destruct x as [[ln lt] [rn rt] change| |]; try discriminate.
    cbn [lineno_loop] in H.
    apply (IH R N U _ _) in H; [exact H|].
    rewrite forallb_app, Hacc. cbn [forallb]. rewrite andb_true_r.
    unfold lineno_marker.
    cbn [has_number unchanged_numbered is_real fst] in Nx, Ux.
    destruct isLeft, change, ln, rn; cbn in *; try reflexivity;
      discriminate.
Qed.

(** X2.  On a list [getDiffDetails] returns with context mode disabled,
    [getDiffLineNos] returns one marker per pair, for either side, and no
    marker is [None]: every pair falls in one of the branches that build a
    marker. *)
Theorem linenos_of_alignment room self numlines tabSize isLeft diffs :
  snd (getDiffDetails room self false numlines tabSize) = Some diffs ->
  exists markers,
    getDiffLineNos isLeft diffs = Ok markers
    /\ List.length markers = List.length diffs
    /\ forallb is_some markers = true.
Proof.
  unfold getDiffDetails. cbn [snd]. intros H.
  destruct (mdiff_no_context _ _ _ _ _ _ H) as (R & N & _).
  pose proof (mdiff_unchanged_numbered _ _ _ _ _ _ H) as U.
  destruct (lineno_loop_rows isLeft diffs R []) as (markers & E & L).
  exists markers. split; [exact E|]. split; [exact L|].
  eapply lineno_loop_numbered; try eassumption. reflexivity.
Qed.

Lemma linenos_of_alignment_witness :
  exists markers,
    getDiffLineNos true
      [Row (PInt 1, marked "-" "a") (PInt 1, marked "+" "b") true] = Ok markers
    /\ List.length markers = 1
    /\ forallb is_some markers = true.
Proof.
  apply (linenos_of_alignment 400 (of_lines ["a"] ["b"]) 5 8 true).
  vm_compute. reflexivity.
Defined.

(** ** Context mode *)

Lemma read_context_In cl context start count t :
  t < count ->
  In (nth ((start + t) mod context) cl Unset) (read_context cl context start count).
Proof.
  intros H. unfold read_context. apply in_map_iff.
  exists t. split; [reflexivity|]. apply in_seq. lia.
Qed.

Lemma context_loop_keeps_changes context rows :
  0 < context ->
  forall st,
    match st with
    | Storing _ cl => List.length cl = context
    | Trailing _ => True
    end ->
    forall f t,
      In (Row f t true) rows ->
      In (Row f t true) (context_loop context rows st).
Proof.
  intros Hc. induction rows as [|x rows IH]; intros st Hst f t Hin;
    [contradiction|].
  assert (A : forall ltw,
             match after_write context ltw with
             | Storing _ cl => List.length cl = context
             | Trailing _ => True
             end).
  { intros ltw. unfold after_write.
    destruct (ltw =? 0); [apply repeat_length | exact I]. }
  cbn [context_loop].
  destruct st as [index cl|ltw].
  - assert (Hi : index mod context < context)
      by (apply Nat.mod_upper_bound; lia).
    destruct Hin as [->|Hin].
    + apply in_or_app. left.
      assert (Hx : nth (index mod context)
                     (list_set cl (index mod context) (Row f t true)) Unset
                   = Row f t true).
      { rewrite list_set_nth by lia. now rewrite Nat.eqb_refl. }
      destruct (Nat.ltb_spec context (index + 1)).
      * right. rewrite <- Hx at 1.
        replace (index mod context)
          with ((index + 1 + (context - 1)) mod context) at 1.
        -- apply read_context_In. lia.
        -- replace (index + 1 + (context - 1)) with (index + 1 * context)
             by lia.
           apply Nat.Div0.mod_add.
      * rewrite <- Hx at 1.
        replace (index mod context) with ((0 + index) mod context) at 1
          by reflexivity.
        apply read_context_In. lia.
    + destruct (match x with Row _ _ flag => flag | _ => false end).
      * apply in_or_app. right. apply IH; [apply A | exact Hin].
      * apply IH; [now rewrite list_set_length | exact Hin].
  - destruct Hin as [->|Hin]; [now left|].
    right. apply IH; [apply A | exact Hin].
Qed.

(** X3.  Context mode hides no change: every pair marked changed of the
    list [getDiffDetails] returns with context mode disabled is in the list
    it returns with context mode enabled, whatever the number of context
    lines. *)
Theorem context_mode_keeps_changes room self numlines numlines' tabSize
    full shown from_line to_line :
  snd (getDiffDetails room self false numlines' tabSize) = Some full ->
  snd (getDiffDetails room self true numlines tabSize) = Some shown ->
  In (Row from_line to_line true) full ->
  In (Row from_line to_line true) shown.
Proof.
  unfold getDiffDetails, _mdiff. cbn [snd].
  destruct (ndiff room (map (expand_tabs tabSize) (fromlines self))
              (map (expand_tabs tabSize) (tolines self)) None
              (Some IS_CHARACTER_JUNK)) as [d|]; [|discriminate].
  destruct (_line_iterator (S (List.length d)) d (0%Z, 0%Z) 0%Z) as [hr|];
    [|discriminate].
  intros [= <-] [= <-] Hin.
  apply context_loop_keeps_changes; [lia | apply repeat_length | exact Hin].
Qed.

Lemma context_mode_keeps_changes_witness :
  In (Row (PInt 2, marked "-" "x") (PInt 2, marked "+" "y") true)
    [Row (PInt 1, "a") (PInt 1, "a") false;
     Row (PInt 2, marked "-" "x") (PInt 2, marked "+" "y") true].
Proof.
  apply (context_mode_keeps_changes 400 (of_lines ["a"; "x"] ["a"; "y"])
           5 5 8
           [Row (PInt 1, "a") (PInt 1, "a") false;
            Row (PInt 2, marked "-" "x") (PInt 2, marked "+" "y") true]
           [Row (PInt 1, "a") (PInt 1, "a") false;
            Row (PInt 2, marked "-" "x") (PInt 2, marked "+" "y") true]).
  - vm_compute. reflexivity.
  - vm_compute. reflexivity.
  - right. now left.
Defined.
